(** * BaseDB: a shallow embedding of [src/api/BaseDB.py] and [src/api/Exceptions.py]

    The Python class [BaseDynamoDBAbstraction] is embedded as Rocq functions in
    a state-and-exception monad.  Python values are a tagged union [pyval];
    dictionaries are association lists in insertion order; the dictionary a
    caller hands to [add_item] lives in a heap of objects so that in-place
    mutation and object identity are visible; the handle [self] is a record
    of the attributes the class assigns; the DynamoDB client and table
    resource are an interface ([Backend]) over an abstract store state. *)

From Stdlib Require Import ZArith String Ascii Bool.
From Stdlib Require Floats.SpecFloat.
From stdpp Require Import base list gmap strings pretty.

#[local] Set Warnings "-register-all".

Local Open Scope Z_scope.

(** * IEEE-754 binary64, the representation of Python's [float]

    Every finite double is an integer multiple of [2^-1074] (the smallest
    subnormal).  A finite double is stored as its sign and that multiple
    [k]: its magnitude is [k * 2^-1074].  The multiples that are doubles
    are those with at most 53 significant bits below [2^1024]. *)
Module F64.

Inductive t : Type :=
| Fin (neg : bool) (k : Z)
| Inf (neg : bool)
| NaN.

(** [2^1074]: the number of units in 1.0. *)
Definition one_units : Z := 2 ^ 1074.
(** [2^1024] in units: the first magnitude that no longer is finite. *)
Definition top : Z := 2 ^ 2098.

(** Number of low bits that a magnitude of [t] units cannot carry. *)
Definition shift_of (t : Z) : Z := Z.max 0 (Z.log2 t - 52).

Definition representable (k : Z) : Prop :=
  0 <= k < top /\ k mod 2 ^ shift_of k = 0.

(** Round the non-negative rational [n / d] (in units) to the nearest
    double, ties to even; [None] is overflow. *)
Definition round_units (n d : Z) : option Z :=
  let s := shift_of (n / d) in
  let D := d * 2 ^ s in
  let q := n / D in
  let r := n mod D in
  let q' := if 2 * r <? D then q
            else if D <? 2 * r then q + 1
            else if Z.even q then q else q + 1 in
  let k := q' * 2 ^ s in
  if k <? top then Some k else None.

Definition round (neg : bool) (n d : Z) : t :=
  match round_units n d with
  | Some k => Fin neg k
  | None => Inf neg
  end.

(** The double nearest to [(-1)^neg * c * 10^e], for [0 <= c]. *)
Definition of_decimal (neg : bool) (c e : Z) : t :=
  if 0 <=? e then round neg (c * 10 ^ e * one_units) 1
  else round neg (c * one_units) (10 ^ (- e)).

Definition of_Z (z : Z) : t := round (z <? 0) (Z.abs z * one_units) 1.

(** Truncation toward zero of a finite double. *)
Definition trunc (neg : bool) (k : Z) : Z :=
  let m := k / one_units in if neg then - m else m.

Definition is_zero (f : t) : bool :=
  match f with Fin _ k => k =? 0 | _ => false end.

Definition signed (neg : bool) (k : Z) : Z := if neg then - k else k.

(** IEEE subtraction, round to nearest even. *)
Definition sub (a b : t) : t :=
  match a, b with
  | NaN, _ | _, NaN => NaN
  | Inf sa, Inf sb => if Bool.eqb sa sb then NaN else Inf sa
  | Inf sa, Fin _ _ => Inf sa
  | Fin _ _, Inf sb => Inf (negb sb)
  | Fin sa ka, Fin sb kb =>
      let d := signed sa ka - signed sb kb in
      if d =? 0 then Fin (sa && negb sb) 0
      else round (d <? 0) (Z.abs d) 1
  end.

(** The canonical IEEE triple of a double, for comparison with the
    Standard Library's specification of binary64. *)
Definition to_spec (f : t) : SpecFloat.spec_float :=
  match f with
  | NaN => SpecFloat.S754_nan
  | Inf s => SpecFloat.S754_infinity s
  | Fin s k =>
      match k / 2 ^ shift_of k with
      | Zpos m => SpecFloat.S754_finite s m (shift_of k - 1074)
      | _ => SpecFloat.S754_zero s
      end
  end.

End F64.

(** * Python's [decimal.Decimal]: sign, coefficient and decimal exponent *)
Module Dec.

Inductive t : Type :=
| Finite (neg : bool) (coeff : Z) (exp : Z)
| Infinity (neg : bool)
| NaN.

(** Number of trailing zero bits. *)
Fixpoint twos (p : positive) : Z :=
  match p with
  | xO p' => 1 + twos p'
  | _ => 0
  end.

(** [Decimal.from_float]: [n, d = abs(f).as_integer_ratio()],
    [k = d.bit_length() - 1], coefficient [n * 5**k], exponent [-k]. *)
Definition from_float (f : F64.t) : t :=
  match f with
  | F64.NaN => NaN
  | F64.Inf s => Infinity s
  | F64.Fin s (Zpos p) =>
      let v := Z.min (twos p) 1074 in
      let n := Zpos p / 2 ^ v in
      let k := 1074 - v in
      Finite s (n * 5 ^ k) (- k)
  | F64.Fin s _ => Finite s 0 0
  end.

(** [Decimal.__float__]: the correctly rounded double. *)
Definition to_float (d : t) : F64.t :=
  match d with
  | NaN => F64.NaN
  | Infinity s => F64.Inf s
  | Finite s c e => F64.of_decimal s c e
  end.

Definition is_zero (d : t) : bool :=
  match d with Finite _ c _ => c =? 0 | _ => false end.

End Dec.

(** Division of two positive integers in the Standard Library's binary64,
    the yardstick for [F64.round]. *)
Definition sf_div (p q : positive) : SpecFloat.spec_float :=
  SpecFloat.SFdiv 53 1024 (SpecFloat.S754_finite false p 0)
                          (SpecFloat.S754_finite false q 0).

(** * Python values *)

Inductive pyval : Type :=
| PNone
| PBool (b : bool)
| PInt (z : Z)
| PFloat (f : F64.t)
| PStr (s : string)
| PBytes (b : list Byte.byte)
| PByteArray (b : list Byte.byte)
| PDecimal (d : Dec.t)
| PBinary (value : pyval)                 (* boto3.dynamodb.types.Binary *)
| PList (l : list pyval)
| PDict (d : list (string * pyval))
| PType (name : string).                  (* a class object, e.g. the builtin [bytes] *)

(** A Python [dict] with string keys, in insertion order. *)
Definition dict : Type := list (string * pyval).

Fixpoint dict_get (k : string) (d : dict) : option pyval :=
  match d with
  | [] => None
  | (k', v) :: d' => if String.eqb k k' then Some v else dict_get k d'
  end.

(** [d[k] = v]: an existing key keeps its position, a new key goes last. *)
Fixpoint dict_set (k : string) (v : pyval) (d : dict) : dict :=
  match d with
  | [] => [(k, v)]
  | (k', v') :: d' =>
      if String.eqb k k' then (k', v) :: d' else (k', v') :: dict_set k v d'
  end.

Definition keys (d : dict) : list string := map fst d.

(** * Exceptions *)

(** The classes of [Exceptions.py]. *)
Inductive api_class : Type :=
| cNotImplementedError | cNotFoundError | cMissingParameter
| cInvalidParameter | cInvalidMethodError | cServerError.

Inductive builtin_class : Type :=
| KeyError | TypeError | ValueError | AttributeError | OverflowError
| UnboundLocalError | IndexError.

Inductive exn : Type :=
| ApiError (cls : api_class) (code : Z) (message : string)
| BuiltinError (cls : builtin_class) (message : string)
| ClientError (detail : string)           (* botocore.exceptions.ClientError *)
| LibraryError (name : string).           (* anything else boto3 or json raises *)

(** [__init__(self, message, code)]: [self.message = f"{self.code}:{message}"]. *)
Definition api_init (cls : api_class) (message : string) (code : Z) : exn :=
  ApiError cls code (pretty code +:+ ":" +:+ message).

Definition NotImplementedError (message : string) : exn := api_init cNotImplementedError message 501.
Definition NotFoundError (message : string) : exn := api_init cNotFoundError message 404.
Definition MissingParameter (message : string) : exn := api_init cMissingParameter message 400.
Definition InvalidParameter (message : string) : exn := api_init cInvalidParameter message 400.
Definition InvalidMethodError (message : string) : exn := api_init cInvalidMethodError message 405.
Definition ServerError (message : string) : exn := api_init cServerError message 500.

Inductive result (A : Type) : Type :=
| Ok (a : A)
| Raise (e : exn).
Arguments Ok {A} a.
Arguments Raise {A} e.

#[global] Instance result_ret : MRet result := λ A a, Ok a.
#[global] Instance result_bind : MBind result := λ A B f r,
  match r with
  | Ok a => f a
  | Raise e => Raise e
  end.

(** * Builtins *)

Definition truthy (v : pyval) : bool :=
  match v with
  | PNone => false
  | PBool b => b
  | PInt z => negb (z =? 0)
  | PFloat f => negb (F64.is_zero f)
  | PStr s => negb (String.eqb s "")
  | PBytes b | PByteArray b => negb (Nat.eqb (length b) 0)
  | PDecimal d => negb (Dec.is_zero d)
  | PBinary _ => true
  | PList l => negb (Nat.eqb (length l) 0)
  | PDict d => negb (Nat.eqb (length d) 0)
  | PType _ => true
  end.

(** [v == None] *)
Definition eq_None (v : pyval) : bool :=
  match v with PNone => true | _ => false end.

(** [v == s] for a string literal [s] *)
Definition eq_str (v : pyval) (s : string) : bool :=
  match v with PStr s' => String.eqb s' s | _ => false end.

(** [v == z] for an integer literal [z]; numbers compare by exact value. *)
Definition eq_int (v : pyval) (z : Z) : bool :=
  match v with
  | PInt z' => z' =? z
  | PBool b => (if b then 1 else 0) =? z
  | PFloat (F64.Fin s k) => F64.signed s k =? z * F64.one_units
  | PDecimal (Dec.Finite s c e) =>
      if 0 <=? e then F64.signed s c * 10 ^ e =? z
      else F64.signed s c =? z * 10 ^ (- e)
  | _ => false
  end.

(** ** [float(x)] for a string: the grammar of Python's float literals

    Optional whitespace around, an optional sign, then [inf], [infinity]
    or [nan] in any casing, or a decimal numeral with optional point,
    exponent and single underscores between digits.  Strings are read as
    ASCII. *)
Module FloatLiteral.
Definition code (c : ascii) : Z := Z.of_N (N_of_ascii c).

Definition is_space (c : ascii) : bool :=
  let n := code c in
  ((9 <=? n) && (n <=? 13)) || ((28 <=? n) && (n <=? 32)).

Definition digit (c : ascii) : option Z :=
  let n := code c in
  if (48 <=? n) && (n <=? 57) then Some (n - 48) else None.

Definition lower (c : ascii) : ascii :=
  let n := code c in
  if (65 <=? n) && (n <=? 90) then ascii_of_N (Z.to_N (n + 32)) else c.

Fixpoint lstrip (l : list ascii) : list ascii :=
  match l with
  | c :: l' => if is_space c then lstrip l' else l
  | [] => []
  end.

Definition strip (l : list ascii) : list ascii :=
  rev (lstrip (rev (lstrip l))).

(** The rest of a [digitpart]: [(["_"] digit)*], accumulating the value
    [acc] and the digit count [cnt]. *)
Fixpoint digits_rest (acc cnt : Z) (l : list ascii) : Z * Z * list ascii :=
  match l with
  | c :: l' =>
      match digit c with
      | Some d => digits_rest (acc * 10 + d) (cnt + 1) l'
      | None =>
          if Ascii.eqb c "_"%char then
            match l' with
            | c2 :: l'' =>
                match digit c2 with
                | Some d => digits_rest (acc * 10 + d) (cnt + 1) l''
                | None => (acc, cnt, l)
                end
            | [] => (acc, cnt, l)
            end
          else (acc, cnt, l)
      end
  | [] => (acc, cnt, l)
  end.

(** [digitpart ::= digit (["_"] digit)*] *)
Definition digitpart (l : list ascii) : option (Z * Z * list ascii) :=
  match l with
  | c :: l' =>
      match digit c with
      | Some d => Some (digits_rest d 1 l')
      | None => None
      end
  | [] => None
  end.

(** [number ::= [digitpart] "." digitpart | digitpart ["."]], as a
    coefficient and a decimal exponent. *)
Definition number (l : list ascii) : option (Z * Z * list ascii) :=
  match digitpart l with
  | Some (ip, _, r) =>
      match r with
      | "."%char :: r' =>
          match digitpart r' with
          | Some (fp, fc, r'') => Some (ip * 10 ^ fc + fp, - fc, r'')
          | None => Some (ip, 0, r')
          end
      | _ => Some (ip, 0, r)
      end
  | None =>
      match l with
      | "."%char :: r' =>
          match digitpart r' with
          | Some (fp, fc, r'') => Some (fp, - fc, r'')
          | None => None
          end
      | _ => None
      end
  end.

Definition sign (l : list ascii) : bool * list ascii :=
  match l with
  | "+"%char :: r => (false, r)
  | "-"%char :: r => (true, r)
  | _ => (false, l)
  end.

(** [exponent ::= ("e" | "E") [sign] digitpart], or nothing. *)
Definition exponent (l : list ascii) : option (Z * list ascii) :=
  match l with
  | [] => Some (0, [])
  | c :: r =>
      if Ascii.eqb (lower c) "e" then
        let '(neg, r1) := sign r in
        match digitpart r1 with
        | Some (x, _, r2) => Some (F64.signed neg x, r2)
        | None => None
        end
      else None
  end.

Definition is_word (l : list ascii) (w : string) : bool :=
  String.eqb (string_of_list_ascii (map lower l)) w.

(** What a float literal denotes, before rounding. *)
Inductive literal : Type :=
| LInf (neg : bool)
| LNaN
| LDec (neg : bool) (c e : Z).            (* [(-1)^neg * c * 10^e] *)

(** [None] is Python's [ValueError: could not convert string to float]. *)
Definition read (s : string) : option literal :=
  let '(neg, l) := sign (strip (list_ascii_of_string s)) in
  if is_word l "inf" || is_word l "infinity" then Some (LInf neg)
  else if is_word l "nan" then Some LNaN
  else
    match number l with
    | Some (c, e, r) =>
        match exponent r with
        | Some (x, []) => Some (LDec neg c (e + x))
        | _ => None
        end
    | None => None
    end.

Definition to_float (l : literal) : F64.t :=
  match l with
  | LInf neg => F64.Inf neg
  | LNaN => F64.NaN
  | LDec neg c e => F64.of_decimal neg c e
  end.

Definition parse (s : string) : option F64.t := to_float <$> read s.

End FloatLiteral.

Definition string_of_bytes (b : list Byte.byte) : string :=
  string_of_list_ascii (map ascii_of_byte b).

Definition float_of_str (s : string) : result F64.t :=
  match FloatLiteral.parse s with
  | Some f => Ok f
  | None => Raise (BuiltinError ValueError "could not convert string to float")
  end.

(** [float(x)] *)
Definition py_float (x : pyval) : result F64.t :=
  match x with
  | PFloat f => Ok f
  | PInt z =>
      match F64.of_Z z with
      | F64.Inf _ => Raise (BuiltinError OverflowError "int too large to convert to float")
      | f => Ok f
      end
  | PBool b => Ok (F64.of_Z (if b then 1 else 0))
  | PStr s => float_of_str s
  | PBytes b | PByteArray b => float_of_str (string_of_bytes b)
  | PDecimal d => Ok (Dec.to_float d)
  | _ => Raise (BuiltinError TypeError "float() argument must be a string or a real number")
  end.

(** [int(f)] for a float [f] *)
Definition int_of_float (f : F64.t) : result Z :=
  match f with
  | F64.Fin s k => Ok (F64.trunc s k)
  | F64.Inf _ => Raise (BuiltinError OverflowError "cannot convert float infinity to integer")
  | F64.NaN => Raise (BuiltinError ValueError "cannot convert float NaN to integer")
  end.

(** [f - z] for a float [f] and an int [z]: the int is converted first. *)
Definition float_sub_int (f : F64.t) (z : Z) : result F64.t :=
  g ← py_float (PInt z); Ok (F64.sub f g).

Definition byte_of_Z (z : Z) : option Byte.byte := Byte.of_N (Z.to_N z).

(** One element of an iterable handed to [bytes(...)]. *)
Definition bytes_elem (v : pyval) : result Byte.byte :=
  let of_int (z : Z) :=
    if (0 <=? z) && (z <? 256) then
      match byte_of_Z z with
      | Some b => Ok b
      | None => Raise (BuiltinError ValueError "bytes must be in range(0, 256)")
      end
    else Raise (BuiltinError ValueError "bytes must be in range(0, 256)") in
  match v with
  | PInt z => of_int z
  | PBool b => of_int (if b then 1 else 0)
  | _ => Raise (BuiltinError TypeError "object cannot be interpreted as an integer")
  end.

(** [bytes(x)] *)
Definition py_bytes (x : pyval) : result (list Byte.byte) :=
  let zeros (z : Z) :=
    if z <? 0 then Raise (BuiltinError ValueError "negative count")
    else Ok (replicate (Z.to_nat z) Byte.x00) in
  match x with
  | PBytes b | PByteArray b => Ok b
  | PBinary (PBytes b) => Ok b
  | PInt z => zeros z
  | PBool b => zeros (if b then 1 else 0)
  | PList l => mapM bytes_elem l
  | PDict [] => Ok []
  | PStr _ => Raise (BuiltinError TypeError "string argument without an encoding")
  | _ => Raise (BuiltinError TypeError "cannot convert object to bytes")
  end.

(** The error of [Binary] on a value that is no byte sequence. *)
Definition Binary_TypeError : exn :=
  BuiltinError TypeError
    "Value must be of the following types: <class 'bytearray'>, <class 'bytes'>".

(** [boto3.dynamodb.types.Binary(value)]: the constructor accepts only
    instances of [bytes] and [bytearray]. *)
Definition Binary (value : pyval) : result pyval :=
  match value with
  | PBytes _ | PByteArray _ => Ok (PBinary value)
  | _ => Raise Binary_TypeError
  end.

(** What Python's runtime library provides and the model does not spell
    out: the JSON parser and the text form of values other than strings,
    integers, booleans and [None]. *)
Class PyRuntime : Type := {
  json_loads : pyval → result pyval;
  format_other : pyval → string
}.

(** [str(v)], as used by f-strings. *)
Definition py_str `{PyRuntime} (v : pyval) : string :=
  match v with
  | PStr s => s
  | PNone => "None"
  | PBool true => "True"
  | PBool false => "False"
  | PInt z => pretty z
  | _ => format_other v
  end.

(** ** Subscripts and dictionary methods *)

(** [v[k]] for a string key *)
Definition getitem (v : pyval) (k : string) : result pyval :=
  match v with
  | PDict d =>
      match dict_get k d with
      | Some x => Ok x
      | None => Raise (BuiltinError KeyError k)
      end
  | _ => Raise (BuiltinError TypeError "indices must be integers or the object is not subscriptable")
  end.

(** [v.items()] *)
Definition items (v : pyval) : result dict :=
  match v with
  | PDict d => Ok d
  | _ => Raise (BuiltinError AttributeError "object has no attribute 'items'")
  end.

(** [d.get(k, default)] *)
Definition dict_get_default (d : dict) (k : string) (default : pyval) : pyval :=
  match dict_get k d with
  | Some v => v
  | None => default
  end.

(** [k in d] *)
Definition dict_mem (k : string) (d : dict) : bool :=
  match dict_get k d with Some _ => true | None => false end.

(** [d[k1][k2][k3] = v] *)
Definition setitem3 (d : dict) (k1 k2 k3 : string) (v : pyval) : result dict :=
  d1 ← getitem (PDict d) k1;
  d2 ← getitem d1 k2;
  match d1, d2 with
  | PDict e1, PDict e2 =>
      Ok (dict_set k1 (PDict (dict_set k2 (PDict (dict_set k3 v e2)) e1)) d)
  | _, _ => Raise (BuiltinError TypeError "object does not support item assignment")
  end.

(** A [for k, v in d.items()] loop whose body assigns into the object
    being iterated.  [entries] are the pairs still to visit; the object's
    state is threaded through and survives an exception. *)
Fixpoint for_items (body : string → pyval → dict → result dict)
    (entries : dict) (obj : dict) : result unit * dict :=
  match entries with
  | [] => (Ok tt, obj)
  | (k, v) :: rest =>
      match body k v obj with
      | Ok obj' => for_items body rest obj'
      | Raise e => (Raise e, obj)
      end
  end.

(** The outcome of a loop that ran to its end; the state reached by a
    loop that raised is dropped with the object. *)
Definition completed {A : Type} (r : result unit * A) : result A :=
  match r with
  | (Ok _, a) => Ok a
  | (Raise e, _) => Raise e
  end.

(** * The type converter *)

(** [convert_dtypes(item, type)], on the state of the object [item].  The
    Python function returns the object it was given. *)
Definition convert_dtypes (item : dict) (type : string) : result unit * dict :=
  let allowed_types := ["dynamo2native"; "native2dynamo"] in
  if negb (existsb (String.eqb type) allowed_types) then
    (Raise (BuiltinError ValueError ("Invalid type of conversion: " +:+ type)), item)
  else if String.eqb type "dynamo2native" then
    for_items (λ k v item,
      match v with
      | PBinary value => Ok (dict_set k value item)
      | PDecimal _ => f ← py_float v; Ok (dict_set k (PFloat f) item)
      | _ => Ok item
      end) item item
  else if String.eqb type "native2dynamo" then
    for_items (λ k v item,
      match v with
      | PBytes _ | PByteArray _ =>
          b ← Binary (PType "bytes"); Ok (dict_set k b item)
      | PFloat f => Ok (dict_set k (PDecimal (Dec.from_float f)) item)
      | _ => Ok item
      end) item item
  else (Ok tt, item).

Section Infer.
Context `{PyRuntime}.

(** The dispatch table of [infer_types]. *)
Definition conversions (dtype : string) : option (pyval → result pyval) :=
  if String.eqb dtype "N" then Some (λ x,
    f ← py_float x;
    i ← int_of_float f;
    d ← float_sub_int f i;
    if F64.is_zero d then
      f' ← py_float x; i' ← int_of_float f'; Ok (PInt i')
    else
      f' ← py_float x; Ok (PFloat f'))
  else if String.eqb dtype "S" then Some (λ x, Ok x)
  else if String.eqb dtype "BOOL" then Some (λ x,
    Ok (PBool (eq_str x "True" || eq_str x "true" || eq_str x "TRUE")))
  else if String.eqb dtype "NULL" then Some (λ x, Ok PNone)
  else if String.eqb dtype "B" then Some (λ x, b ← py_bytes x; Ok (PBytes b))
  else if String.eqb dtype "L" then Some json_loads
  else if String.eqb dtype "M" then Some json_loads
  else if String.eqb dtype "NS" then Some json_loads
  else if String.eqb dtype "SS" then Some json_loads
  else None.

(** [conversions[dtype]] *)
Definition conversions_getitem (dtype : string) : result (pyval → result pyval) :=
  match conversions dtype with
  | Some f => Ok f
  | None => Raise (BuiltinError KeyError dtype)
  end.

(** The two inner loops of [infer_types] for one item. *)
Definition infer_item (item : pyval) : result pyval :=
  entries ← items item;
  item' ← completed (for_items (λ attr_name val_dict item,
      vd ← items val_dict;
      completed (for_items (λ dtype value item,
          f ← conversions_getitem dtype;
          v ← f value;
          Ok (dict_set attr_name v item)) vd item))
    entries entries);
  Ok (PDict item').

(** [infer_types(items)]: the items are decoded in place and the list is
    returned; an exception abandons the response they came from. *)
Definition infer_types (items : pyval) : result pyval :=
  let items := match items with PList l => l | _ => [items] end in
  l ← mapM infer_item items;
  Ok (PList l).

End Infer.

(** * The table handle and the external store *)

(** One entry of a table's key schema, as boto3 reports it. *)
Record KeySchemaElement : Type := {
  AttributeName : string;
  KeyType : string
}.

(** A [boto3] table resource. *)
Record Table : Type := { name : string }.

(** [boto3.resource('dynamodb')] *)
Inductive Resource : Type := DynamoDBResource.

(** The attributes of a [BaseDynamoDBAbstraction] object.  [sort_key] is
    assigned only for a two-component key schema, [payload] only by
    [scan_table]. *)
Record Handle (Client : Type) : Type := {
  verbose : pyval;
  debug : pyval;
  client : Client;
  resource : Resource;
  table : Table;
  key_schema : list KeySchemaElement;
  partition_key : string;
  sort_key : option string;
  payload : option pyval
}.
Arguments verbose {Client} _.
Arguments debug {Client} _.
Arguments client {Client} _.
Arguments resource {Client} _.
Arguments table {Client} _.
Arguments key_schema {Client} _.
Arguments partition_key {Client} _.
Arguments sort_key {Client} _.
Arguments payload {Client} _.

Definition set_payload {Client : Type} (h : Handle Client) (v : pyval) : Handle Client :=
  {| verbose := verbose h; debug := debug h; client := client h;
     resource := resource h; table := table h; key_schema := key_schema h;
     partition_key := partition_key h; sort_key := sort_key h;
     payload := Some v |}.

(** The external collaborator: the calls the class makes on the boto3
    client and table resource, as transitions of a store state [W].  Each
    takes the keyword arguments of the call and answers with a response or
    an exception. *)
Class Backend (W Client : Type) : Type := {
  Table_key_schema : Table → W → result (list KeySchemaElement) * W;
  Table_get_item : Table → dict → W → result pyval * W;
  Table_query : Table → dict → W → result pyval * W;
  Table_scan : Table → dict → W → result pyval * W;
  Table_put_item : Table → dict → W → result pyval * W;
  Table_update_item : Table → dict → W → result pyval * W;
  Table_delete_item : Table → dict → W → result pyval * W;
  Client_batch_get_item : Client → dict → W → result pyval * W;
  Client_execute_statement : Client → dict → W → result pyval * W
}.

(** References to dictionary objects owned by the caller. *)
Definition loc : Type := positive.

Section BaseDB.
Context `{PyRuntime}.
Context {W Client : Type} `{Backend W Client}.

Record state : Type := {
  st_self : Handle Client;
  st_heap : gmap loc dict;
  st_store : W
}.

(** Computations that read and write the state and may raise; the
    state reached when an exception is raised is kept. *)
Definition M (A : Type) : Type := state → result A * state.

#[global] Instance M_ret : MRet M := λ A a s, (Ok a, s).
#[global] Instance M_bind : MBind M := λ A B f m s,
  match m s with
  | (Ok a, s') => f a s'
  | (Raise e, s') => (Raise e, s')
  end.

Definition raise {A : Type} (e : exn) : M A := λ s, (Raise e, s).

Definition lift {A : Type} (r : result A) : M A := λ s, (r, s).

Definition self : M (Handle Client) := λ s, (Ok (st_self s), s).

Definition set_self (h : Handle Client) : M unit := λ s,
  (Ok tt, {| st_self := h; st_heap := st_heap s; st_store := st_store s |}).

(** The state after a store call that leaves [w]. *)
Definition with_store (s : state) (w : W) : state :=
  {| st_self := st_self s; st_heap := st_heap s; st_store := w |}.

(** The state in which the caller's objects are [h]. *)
Definition with_heap (s : state) (h : gmap loc dict) : state :=
  {| st_self := st_self s; st_heap := h; st_store := st_store s |}.

(** [m] leaves the handle as it finds it. *)
Definition keeps_self {A : Type} (m : M A) : Prop :=
  ∀ s, st_self (m s).2 = st_self s.

(** A call on the client or the table resource. *)
Definition call {A : Type} (f : W → result A * W) : M A := λ s,
  let '(r, w) := f (st_store s) in (r, with_store s w).

(** Run a computation on the dictionary object at [l]. *)
Definition on_object {A : Type} (l : loc) (f : dict → result A * dict) : M A := λ s,
  match st_heap s !! l with
  | Some d =>
      let '(r, d') := f d in
      (r, {| st_self := st_self s; st_heap := <[l := d']> (st_heap s);
             st_store := st_store s |})
  | None => (Raise (LibraryError "dangling reference"), s)
  end.

(** [try: m  except ClientError: handler] *)
Definition except_ClientError {A : Type} (m : M A) (handler : string → M A) : M A := λ s,
  match m s with
  | (Raise (ClientError e), s') => handler e s'
  | r => r
  end.

(** [try: m  except KeyError: handler] *)
Definition except_KeyError {A : Type} (m : M A) (handler : M A) : M A := λ s,
  match m s with
  | (Raise (BuiltinError KeyError _), s') => handler s'
  | r => r
  end.

(** [response['ResponseMetadata']['HTTPStatusCode']] *)
Definition HTTPStatusCode (response : pyval) : result pyval :=
  md ← getitem response "ResponseMetadata"; getitem md "HTTPStatusCode".

(** [self.sort_key] *)
Definition getattr_sort_key (h : Handle Client) : result string :=
  match sort_key h with
  | Some k => Ok k
  | None => Raise (BuiltinError AttributeError "object has no attribute 'sort_key'")
  end.

(** ** Constructor *)

Definition init (client : Client) (table_name : string) (verbose debug : pyval)
    : W → result (Handle Client) * W := λ w,
  let table := {| name := table_name |} in
  match Table_key_schema table w with
  | (Raise e, w') => (Raise e, w')
  | (Ok key_schema, w') =>
      match key_schema with
      | [] => (Raise (BuiltinError IndexError "list index out of range"), w')
      | pk :: rest =>
          let sort_key :=
            match rest with
            | [sk] => Some (AttributeName sk)
            | _ => None
            end in
          (Ok {| verbose := verbose; debug := debug; client := client;
                 resource := DynamoDBResource; table := table;
                 key_schema := key_schema;
                 partition_key := AttributeName pk;
                 sort_key := sort_key; payload := None |}, w')
      end
  end.

(** ** Helper functions *)

Definition define_key_args (pk_value sk_value : pyval) : M dict :=
  h ← self;
  let Key := [(partition_key h, pk_value)] in
  if Nat.eqb (length (key_schema h)) 2 then
    if eq_None sk_value then
      raise (MissingParameter "Table requires a sort key value but none was provided")
    else
      sk ← lift (getattr_sort_key h);
      mret [("Key", PDict (dict_set sk sk_value Key))]
  else mret [("Key", PDict Key)].

(** [{self.partition_key: pk_val, self.sort_key: sk_val}] for each pair
    of [zip(pk_list, sk_list)] *)
Fixpoint zip_keys (pk sk : string) (pk_list sk_list : list pyval) : list pyval :=
  match pk_list, sk_list with
  | pk_val :: pks, sk_val :: sks =>
      PDict (dict_set sk sk_val [(pk, pk_val)]) :: zip_keys pk sk pks sks
  | _, _ => []
  end.

Definition define_list_key_args (pk_list : list pyval) (sk_list : option (list pyval))
    : M dict :=
  h ← self;
  if Nat.eqb (length (key_schema h)) 2 then
    match sk_list with
    | None => raise (BuiltinError TypeError "object of type 'NoneType' has no len()")
    | Some sk_list =>
        if negb (Nat.eqb (length sk_list) (length pk_list)) then
          raise (BuiltinError ValueError "The number of primary keys and sort keys must be the same")
        else
          sk ← lift (getattr_sort_key h);
          mret [("RequestItems", PDict [(name (table h),
                  PDict [("Keys", PList (zip_keys (partition_key h) sk pk_list sk_list))])])]
    end
  else
    mret [("RequestItems", PDict [(name (table h),
            PDict [("Keys", PList (map (λ pk_val, PDict [(partition_key h, pk_val)]) pk_list))])])].

(** ** Read operations *)

Definition get_by_keys (pk_value sk_value AttributesToGet : pyval) : M (dict * pyval) :=
  arguments ← define_key_args pk_value sk_value;
  let arguments :=
    if truthy AttributesToGet
    then dict_set "AttributesToGet" AttributesToGet arguments
    else arguments in
  h ← self;
  response ← call (Table_get_item (table h) arguments);
  statusCode ← lift (HTTPStatusCode response);
  let payload : dict := [] in
  payload ← except_KeyError
    (Item ← lift (getitem response "Item");
     Item ← lift (items Item);
     let '(r, Item) := convert_dtypes Item "dynamo2native" in
     _ ← lift r;
     mret (dict_set "data" (PDict Item) payload))
    (raise (NotFoundError ("Item " +:+ py_str pk_value +:+ py_str sk_value
                           +:+ " was not found")));
  mret (payload, statusCode).

Definition batch_get_by_key (pk_list : list pyval) (sk_list : option (list pyval))
    (AttributesToGet : pyval) : M (dict * pyval) :=
  arguments ← define_list_key_args pk_list sk_list;
  h ← self;
  arguments ←
    (if truthy AttributesToGet
     then lift (setitem3 arguments "RequestItems" (name (table h))
                  "AttributesToGet" AttributesToGet)
     else mret arguments);
  response ← call (Client_batch_get_item (client h) arguments);
  statusCode ← lift (HTTPStatusCode response);
  let payload : dict := [] in
  data ← lift (Responses ← getitem response "Responses";
               getitem Responses (name (table h)));
  let payload := dict_set "data" data payload in
  data ← lift (infer_types data);
  let payload := dict_set "data" data payload in
  if negb (truthy data) then
    raise (NotFoundError "None of the items were found")
  else
    UnprocessedKeys ← lift (getitem response "UnprocessedKeys");
    payload ←
      (if truthy UnprocessedKeys
       then
         Keys ← lift (t ← getitem UnprocessedKeys (name (table h));
                      getitem t "Keys");
         mret (dict_set "error" Keys payload)
       else mret payload);
    mret (payload, statusCode).

Definition query_table (type : string) (kwargs : dict) : M (dict * pyval) :=
  let payload : dict := [] in
  h ← self;
  response ←
    (if String.eqb type "PartiQL" then
       call (Client_execute_statement (client h) kwargs)
     else if String.eqb type "native" then
       response ← call (Table_query (table h) kwargs);
       Count ← lift (getitem response "Count");
       if eq_int Count 0 then
         raise (NotFoundError "None of the given keys were found")
       else mret response
     else
       raise (BuiltinError UnboundLocalError
                "cannot access local variable 'response'"));
  statusCode ← lift (HTTPStatusCode response);
  Items ← lift (getitem response "Items");
  mret (dict_set "data" Items payload, statusCode).

Definition scan_table (kwargs : dict) : M (pyval * pyval) :=
  h ← self;
  _ ← set_self (set_payload h (PDict []));
  h ← self;
  response ← call (Table_scan (table h) []);
  statusCode ← lift (HTTPStatusCode response);
  Items ← lift (getitem response "Items");
  mret (Items, statusCode).

(** ** Write operations *)

(** [for k, v in key_args['Key'].items(): item[k] = v] *)
Fixpoint merge_keys (item : loc) (entries : dict) : M unit :=
  match entries with
  | [] => mret tt
  | (k, v) :: rest =>
      _ ← on_object item (λ d, (Ok tt, dict_set k v d));
      merge_keys item rest
  end.

(** [item] is the reference the caller passes (the default, one [{}]
    object shared by the calls that omit it, is such a reference too); the
    name is rebound to what [convert_dtypes] returns, which is the same
    reference. *)
Definition add_item (pk_value sk_value : pyval) (item : loc) : M (bool * pyval) :=
  key_args ← define_key_args pk_value sk_value;
  Key ← lift (k ← getitem (PDict key_args) "Key"; items k);
  _ ← merge_keys item Key;
  item ← (_ ← on_object item (λ d, convert_dtypes d "native2dynamo"); mret item);
  h ← self;
  Item ← on_object item (λ d, (Ok d, d));
  response ← call (Table_put_item (table h) [("Item", PDict Item)]);
  statusCode ← lift (HTTPStatusCode response);
  let success := if eq_int statusCode 200 then true else false in
  mret (success, statusCode).

(** [lookup[key]] for the message table of [update_item] *)
Definition lookup_getitem (lookup : dict) (key : pyval) : result pyval :=
  match key with
  | PStr k => getitem (PDict lookup) k
  | PList _ | PDict _ | PByteArray _ => Raise (BuiltinError TypeError "unhashable type")
  | _ => Raise (BuiltinError KeyError (py_str key))
  end.

Definition update_item (pk_value sk_value attribute_name attribute_value : pyval)
    (kwargs : dict) : M (dict * pyval) :=
  let payload : dict := [] in
  arguments ← define_key_args pk_value sk_value;
  let arguments := dict_set "UpdateExpression"
    (PStr ("SET " +:+ py_str attribute_name +:+ " = :r")) arguments in
  let arguments := dict_set "ExpressionAttributeValues"
    (PDict [(":r", attribute_value)]) arguments in
  let arguments := dict_set "ReturnValues"
    (dict_get_default kwargs "ReturnValues" (PStr "UPDATED_OLD")) arguments in
  let arguments := dict_set "ConditionExpression"
    (dict_get_default kwargs "ConditionExpression"
       (PStr ("attribute_exists(" +:+ py_str attribute_name +:+ ")"))) arguments in
  h ← self;
  response ← except_ClientError
    (call (Table_update_item (table h) arguments))
    (λ e, (* logging.exception(e) *)
          raise (InvalidParameter "Check that the attribute value is not empty"));
  statusCode ← lift (HTTPStatusCode response);
  Attributes_in_response ←
    lift (match response with
          | PDict d => Ok (dict_mem "Attributes" d)
          | _ => Raise (BuiltinError TypeError "argument is not iterable")
          end);
  if (Attributes_in_response : bool) then
    Attributes ← lift (getitem response "Attributes");
    let payload := dict_set "data" Attributes payload in
    let lookup : dict :=
      [("UPDATED_OLD", PStr "Returned only updated old item");
       ("ALL_OLD", PStr "Returned all old item");
       ("UPDATED_NEW", PStr "Returned only updated new item");
       ("ALL_NEW", PStr "Returned all new item")] in
    ReturnValues ← lift (getitem (PDict arguments) "ReturnValues");
    message ← lift (lookup_getitem lookup ReturnValues);
    mret (dict_set "message" message payload, statusCode)
  else
    mret (dict_set "message" (PStr "Item was updated") payload, statusCode).

(** ** Delete operations *)

Definition dump_item (pk_value sk_value : pyval) (kwargs : dict) : M (bool * pyval) :=
  arguments ← define_key_args pk_value sk_value;
  h ← self;
  response ← call (Table_delete_item (table h) arguments);
  statusCode ← lift (HTTPStatusCode response);
  let success := if eq_int statusCode 200 then true else false in
  mret (success, statusCode).

End BaseDB.


(** * Vocabulary of the statements *)

(** What the read direction does to one attribute value. *)
Definition read_value (v : pyval) : pyval :=
  match v with
  | PBinary value => value
  | PDecimal d => PFloat (Dec.to_float d)
  | _ => v
  end.

(** What the write direction does to a value that is not a byte sequence. *)
Definition write_value (v : pyval) : pyval :=
  match v with
  | PFloat f => PDecimal (Dec.from_float f)
  | _ => v
  end.

(** [isinstance(v, (bytes, bytearray))] *)
Definition is_bytes (v : pyval) : bool :=
  match v with
  | PBytes _ | PByteArray _ => true
  | _ => false
  end.


(** A value as Python can hold it: the payload of a float is a double. *)
Definition wf_value (v : pyval) : Prop :=
  match v with
  | PFloat (F64.Fin _ k) => F64.representable k
  | _ => True
  end.

(** The values that neither direction of [convert_dtypes] gives a
    second meaning: no byte sequence, box or exact decimal. *)
Definition plain_value (v : pyval) : Prop :=
  match v with
  | PBytes _ | PByteArray _ | PBinary _ | PDecimal _ => False
  | _ => wf_value v
  end.

(** [DYNAMODB_KEY_TYPES = Union[str, int, Decimal]] *)
Definition is_key_type (v : pyval) : Prop :=
  match v with
  | PStr _ | PInt _ | PDecimal _ => True
  | _ => False
  end.

(** What the four key-resolving operations raise on a composite-key table
    without a sort-key value. *)
Definition sort_key_missing : exn :=
  ApiError cMissingParameter 400
    "400:Table requires a sort key value but none was provided".

(** The string with its ASCII letters in lower case. *)
Definition casefold (s : string) : string :=
  string_of_list_ascii (map FloatLiteral.lower (list_ascii_of_string s)).

(** The wire tags the dispatch table of [infer_types] knows. *)
Definition wire_tags : list string :=
  ["N"; "S"; "BOOL"; "NULL"; "B"; "L"; "M"; "NS"; "SS"].

(** An item with the single attribute [attr], in wire form [{dtype: x}]. *)
Definition wire_item (attr dtype : string) (x : pyval) : pyval :=
  PDict [(attr, PDict [(dtype, x)])].

(** What [infer_types] returns for that item when the decoder yields [v]. *)
Definition decoded (attr : string) (v : pyval) : result pyval :=
  Ok (PList [PDict [(attr, v)]]).

(** The item after [for k, v in Key.items(): item[k] = v]. *)
Definition merge_into (item Key : dict) : dict :=
  foldl (λ acc kv, dict_set kv.1 kv.2 acc) item Key.

(** Does some attribute hold a byte sequence? *)
Definition has_bytes (item : dict) : bool :=
  existsb (λ kv, is_bytes kv.2) item.

(** What [update_item] raises when the store rejects the call. *)
Definition update_rejected : exn :=
  ApiError cInvalidParameter 400 "400:Check that the attribute value is not empty".

(** The request [update_item] builds from the resolved key when it is
    called without options. *)
Definition default_update_arguments (key_args : dict) (attribute_name : string)
    (attribute_value : pyval) : dict :=
  dict_set "ConditionExpression"
    (PStr ("attribute_exists(" +:+ attribute_name +:+ ")"))
    (dict_set "ReturnValues" (PStr "UPDATED_OLD")
       (dict_set "ExpressionAttributeValues" (PDict [(":r", attribute_value)])
          (dict_set "UpdateExpression"
             (PStr ("SET " +:+ attribute_name +:+ " = :r")) key_args))).


(** * An in-memory table: a test double for the store

    A small store against which the operations can be run: the table
    resource keeps native items in a list, the low-level client replays
    scripted replies.  Conditions of the form [attribute_exists(a)] are
    the only ones it understands. *)
Module MemStore.

Record t : Type := {
  schema : list KeySchemaElement;
  rows : list dict;
  replies : list (result pyval)
}.

Definition with_rows (w : t) (r : list dict) : t :=
  {| schema := schema w; rows := r; replies := replies w |}.

Definition scalar_eqb (a b : pyval) : bool :=
  match a, b with
  | PNone, PNone => true
  | PBool x, PBool y => Bool.eqb x y
  | PInt x, PInt y => x =? y
  | PStr x, PStr y => String.eqb x y
  | _, _ => false
  end.

(** Does [row] carry every attribute of [Key] with the same value? *)
Definition matches (Key row : dict) : bool :=
  forallb (λ kv, match dict_get kv.1 row with
                 | Some v => scalar_eqb kv.2 v
                 | None => false
                 end) Key.

Definition response (fields : dict) : pyval :=
  PDict (("ResponseMetadata", PDict [("HTTPStatusCode", PInt 200)]) :: fields).

Definition key_of (w : t) (Item : dict) : dict :=
  omap (λ e, (λ v, (AttributeName e, v)) <$> dict_get (AttributeName e) Item) (schema w).

Definition validation_error : exn := ClientError "ValidationException".

Definition get_item (kw : dict) (w : t) : result pyval * t :=
  match dict_get "Key" kw with
  | Some (PDict Key) =>
      match filter (λ row, Is_true (matches Key row)) (rows w) with
      | row :: _ => (Ok (response [("Item", PDict row)]), w)
      | [] => (Ok (response []), w)
      end
  | _ => (Raise validation_error, w)
  end.

Definition put_item (kw : dict) (w : t) : result pyval * t :=
  match dict_get "Item" kw with
  | Some (PDict Item) =>
      let others := filter (λ row, ¬ Is_true (matches (key_of w Item) row)) (rows w) in
      (Ok (response []), with_rows w (others ++ [Item]))
  | _ => (Raise validation_error, w)
  end.

Definition delete_item (kw : dict) (w : t) : result pyval * t :=
  match dict_get "Key" kw with
  | Some (PDict Key) =>
      (Ok (response []),
       with_rows w (filter (λ row, ¬ Is_true (matches Key row)) (rows w)))
  | _ => (Raise validation_error, w)
  end.

(** The attribute [a] of [row] for which [cond] reads [attribute_exists(a)]. *)
Definition condition_target (cond : pyval) (row : dict) : option string :=
  head (filter (λ a, Is_true (eq_str cond ("attribute_exists(" +:+ a +:+ ")"))) (keys row)).

Definition update_item (kw : dict) (w : t) : result pyval * t :=
  match dict_get "Key" kw, dict_get "ExpressionAttributeValues" kw with
  | Some (PDict Key), Some (PDict values) =>
      match filter (λ row, Is_true (matches Key row)) (rows w),
            dict_get ":r" values with
      | row :: _, Some r =>
          match condition_target (dict_get_default kw "ConditionExpression" PNone) row with
          | Some a =>
              let others := filter (λ row, ¬ Is_true (matches Key row)) (rows w) in
              (Ok (response [("Attributes",
                              PDict [(a, dict_get_default row a PNone)])]),
               with_rows w (others ++ [dict_set a r row]))
          | None => (Raise (ClientError "ConditionalCheckFailedException"), w)
          end
      | [], Some _ => (Raise (ClientError "ConditionalCheckFailedException"), w)
      | _, None => (Raise validation_error, w)
      end
  | _, _ => (Raise validation_error, w)
  end.

Definition scan (kw : dict) (w : t) : result pyval * t :=
  (Ok (response [("Items", PList (PDict <$> rows w));
                 ("Count", PInt (Z.of_nat (length (rows w))))]), w).

(** The next scripted reply of the low-level client. *)
Definition replay (kw : dict) (w : t) : result pyval * t :=
  match replies w with
  | r :: rest => (r, {| schema := schema w; rows := rows w; replies := rest |})
  | [] => (Raise (LibraryError "EndpointConnectionError"), w)
  end.

#[global] Instance backend : Backend t unit := {|
  Table_key_schema := λ _ w, (Ok (schema w), w);
  Table_get_item := λ _, get_item;
  Table_query := λ _, scan;
  Table_scan := λ _, scan;
  Table_put_item := λ _, put_item;
  Table_update_item := λ _, update_item;
  Table_delete_item := λ _, delete_item;
  Client_batch_get_item := λ _, replay;
  Client_execute_statement := λ _, replay
|}.

(** A runtime for the test runs: no JSON payload is ever parsed. *)
#[global] Instance runtime : PyRuntime := {|
  json_loads := λ _, Raise (LibraryError "JSONDecodeError");
  format_other := λ _, "<object>"
|}.

Definition hash_key (a : string) : KeySchemaElement :=
  {| AttributeName := a; KeyType := "HASH" |}.
Definition range_key (a : string) : KeySchemaElement :=
  {| AttributeName := a; KeyType := "RANGE" |}.

(** A table keyed by ["id"] alone, and one keyed by ["id"] and ["ts"]. *)
Definition simple (r : list dict) (script : list (result pyval)) : t :=
  {| schema := [hash_key "id"]; rows := r; replies := script |}.
Definition composite (r : list dict) (script : list (result pyval)) : t :=
  {| schema := [hash_key "id"; range_key "ts"]; rows := r; replies := script |}.

(** The handles [init] builds for them, for the table ["movies"]. *)
Definition simple_handle : Handle unit :=
  {| verbose := PBool false; debug := PBool false; client := tt;
     resource := DynamoDBResource; table := {| name := "movies" |};
     key_schema := [hash_key "id"]; partition_key := "id";
     sort_key := None; payload := None |}.
Definition composite_handle : Handle unit :=
  {| verbose := PBool false; debug := PBool false; client := tt;
     resource := DynamoDBResource; table := {| name := "movies" |};
     key_schema := [hash_key "id"; range_key "ts"]; partition_key := "id";
     sort_key := Some "ts"; payload := None |}.

(** The state of a run: the handle, the caller's objects and the store. *)
Definition state_of (h : Handle unit) (w : t) (objects : gmap loc dict) : state :=
  {| st_self := h; st_heap := objects; st_store := w |}.

End MemStore.


(** * Further vocabulary *)

(** ** The calls an operation makes on the store *)

(** One call on the table resource or on the client, with its keyword
    arguments. *)
Inductive store_call (Client : Type) : Type :=
| key_schema_call (t : Table)
| get_item_call (t : Table) (kwargs : dict)
| query_call (t : Table) (kwargs : dict)
| scan_call (t : Table) (kwargs : dict)
| put_item_call (t : Table) (kwargs : dict)
| update_item_call (t : Table) (kwargs : dict)
| delete_item_call (t : Table) (kwargs : dict)
| batch_get_item_call (c : Client) (kwargs : dict)
| execute_statement_call (c : Client) (kwargs : dict).
Arguments key_schema_call {Client} t.
Arguments get_item_call {Client} t kwargs.
Arguments query_call {Client} t kwargs.
Arguments scan_call {Client} t kwargs.
Arguments put_item_call {Client} t kwargs.
Arguments update_item_call {Client} t kwargs.
Arguments delete_item_call {Client} t kwargs.
Arguments batch_get_item_call {Client} c kwargs.
Arguments execute_statement_call {Client} c kwargs.

(** A store call that also appends itself to a record of the calls made. *)
Definition recorded {W Client A : Type} (c : store_call Client)
    (f : W → result A * W)
    : W * list (store_call Client) → result A * (W * list (store_call Client)) :=
  λ wl, let '(r, w') := f wl.1 in (r, (w', wl.2 ++ [c])).

(** Any store, with the calls made on it recorded beside its state. *)
#[global] Instance Recording {W Client : Type} `{Backend W Client}
    : Backend (W * list (store_call Client)) Client := {|
  Table_key_schema := λ t, recorded (key_schema_call t) (Table_key_schema t);
  Table_get_item := λ t kw, recorded (get_item_call t kw) (Table_get_item t kw);
  Table_query := λ t kw, recorded (query_call t kw) (Table_query t kw);
  Table_scan := λ t kw, recorded (scan_call t kw) (Table_scan t kw);
  Table_put_item := λ t kw, recorded (put_item_call t kw) (Table_put_item t kw);
  Table_update_item := λ t kw, recorded (update_item_call t kw) (Table_update_item t kw);
  Table_delete_item := λ t kw, recorded (delete_item_call t kw) (Table_delete_item t kw);
  Client_batch_get_item := λ c kw,
    recorded (batch_get_item_call c kw) (Client_batch_get_item c kw);
  Client_execute_statement := λ c kw,
    recorded (execute_statement_call c kw) (Client_execute_statement c kw)
|}.

Section Frames.
Context {W Client : Type}.

(** The calls recorded so far. *)
Definition calls (s : @state (W * list (store_call Client)) Client)
    : list (store_call Client) :=
  (st_store s).2.

(** [m] makes no call on the store. *)
Definition no_call {A : Type} (m : @M (W * list (store_call Client)) Client A) : Prop :=
  ∀ s, calls (m s).2 = calls s.

(** [m] makes one call on the store, or none. *)
Definition at_most_one_call {A : Type}
    (m : @M (W * list (store_call Client)) Client A) : Prop :=
  ∀ s, calls (m s).2 = calls s ∨ ∃ c, calls (m s).2 = calls s ++ [c].

(** [m] leaves every object of the caller as it finds it. *)
Definition keeps_heap {A : Type} (m : @M W Client A) : Prop :=
  ∀ s, st_heap (m s).2 = st_heap s.

(** [m] leaves every object of the caller but [l] as it finds it. *)
Definition changes_only {A : Type} (l : loc) (m : @M W Client A) : Prop :=
  ∀ s l', l' ≠ l → st_heap (m s).2 !! l' = st_heap s !! l'.

(** Whatever [m] raises satisfies [P]. *)
Definition raises_only {A : Type} (P : exn → Prop) (m : @M W Client A) : Prop :=
  ∀ s e s', m s = (Raise e, s') → P e.

End Frames.

(** The in-memory table with its calls recorded, none made yet. *)
Definition recording (h : Handle unit) (w : MemStore.t)
    : @state (MemStore.t * list (store_call unit)) unit :=
  {| st_self := h; st_heap := ∅; st_store := (w, []) |}.

(** ** The error taxonomy *)

(** An exception that is none of the classes of [Exceptions.py]: what
    boto3 and the interpreter raise. *)
Definition foreign (e : exn) : Prop :=
  match e with
  | ApiError _ _ _ => False
  | _ => True
  end.

(** The code an exception class of [Exceptions.py] carries when its
    constructor is given a message only. *)
Definition default_code (cls : api_class) : Z :=
  match cls with
  | cNotImplementedError => 501
  | cNotFoundError => 404
  | cMissingParameter => 400
  | cInvalidParameter => 400
  | cInvalidMethodError => 405
  | cServerError => 500
  end.

(** An exception that, when it is of a class of [Exceptions.py], is of
    one of the classes [allowed] and carries the default code of its class
    before its message. *)
Definition api_among (allowed : list api_class) (e : exn) : Prop :=
  match e with
  | ApiError cls code message =>
      In cls allowed ∧ code = default_code cls
      ∧ ∃ text, message = pretty code +:+ ":" +:+ text
  | _ => True
  end.

(** A store that raises only exceptions of its own. *)
Definition foreign_store {W Client : Type} `{Backend W Client} : Prop :=
  (∀ t kw w e w', Table_get_item t kw w = (Raise e, w') → foreign e)
  ∧ (∀ t kw w e w', Table_query t kw w = (Raise e, w') → foreign e)
  ∧ (∀ t kw w e w', Table_scan t kw w = (Raise e, w') → foreign e)
  ∧ (∀ t kw w e w', Table_put_item t kw w = (Raise e, w') → foreign e)
  ∧ (∀ t kw w e w', Table_update_item t kw w = (Raise e, w') → foreign e)
  ∧ (∀ t kw w e w', Table_delete_item t kw w = (Raise e, w') → foreign e)
  ∧ (∀ c kw w e w', Client_batch_get_item c kw w = (Raise e, w') → foreign e)
  ∧ (∀ c kw w e w', Client_execute_statement c kw w = (Raise e, w') → foreign e).

(** ** Values *)

(** A box as boto3 builds it: what [Binary] holds is a byte sequence. *)
Definition boxes_bytes (v : pyval) : Prop :=
  match v with
  | PBinary value => is_bytes value = true
  | _ => True
  end.

(** The integer a decimal literal denotes, when it denotes one. *)
Definition denotes (c e z : Z) : Prop :=
  if 0 <=? e then z = c * 10 ^ e else c = z * 10 ^ (- e).

(** ** A store that is out of order *)

(** Every call fails with an exception that is not a [ClientError], as
    botocore's parameter validation and connection errors are. *)
Module DownStore.

Definition fail {A : Type} (kw : dict) (w : unit) : result A * unit :=
  (Raise (LibraryError "EndpointConnectionError"), w).

#[global] Instance backend : Backend unit unit := {|
  Table_key_schema := λ _ w, (Ok [MemStore.hash_key "id"], w);
  Table_get_item := λ _, fail;
  Table_query := λ _, fail;
  Table_scan := λ _, fail;
  Table_put_item := λ _, fail;
  Table_update_item := λ _, fail;
  Table_delete_item := λ _, fail;
  Client_batch_get_item := λ _, fail;
  Client_execute_statement := λ _, fail
|}.

Definition state_of (objects : gmap loc dict) : state :=
  {| st_self := MemStore.simple_handle; st_heap := objects; st_store := tt |}.

End DownStore.

(** ** The rounding agrees with the Standard Library's binary64 *)

Example round_tenth :
  F64.to_spec (F64.of_decimal false 1 (-1)) = sf_div 1 10.
Proof. vm_compute. reflexivity. Qed.

Example round_third :
  F64.to_spec (F64.round false (1 * F64.one_units) 3) = sf_div 1 3.
Proof. vm_compute. reflexivity. Qed.

Example round_big_half :
  F64.to_spec (F64.of_decimal false 90071992547409935 (-1))
  = sf_div 90071992547409935 10.
Proof. vm_compute. reflexivity. Qed.

Example round_tiny :
  F64.to_spec (F64.of_decimal false 37 (-325)) = sf_div 37 (10 ^ 325).
Proof. vm_compute. reflexivity. Qed.

Example round_huge :
  F64.to_spec (F64.of_decimal false 17976931348623158 292)
  = SpecFloat.binary_normalize 53 1024 (17976931348623158 * 10 ^ 292) 0 false.
Proof. vm_compute. reflexivity. Qed.

Example round_overflow :
  F64.to_spec (F64.of_decimal false 1 400)
  = SpecFloat.binary_normalize 53 1024 (10 ^ 400) 0 false.
Proof. vm_compute. reflexivity. Qed.

Example sub_fraction :
  F64.to_spec (F64.sub (F64.of_decimal false 35 (-1)) (F64.of_Z 3))
  = SpecFloat.SFsub 53 1024 (F64.to_spec (F64.of_decimal false 35 (-1)))
                            (F64.to_spec (F64.of_Z 3)).
Proof. vm_compute. reflexivity. Qed.

Example sub_rounds :
  F64.to_spec (F64.sub (F64.of_decimal false 1 17) (F64.of_decimal false 1 (-1)))
  = SpecFloat.SFsub 53 1024 (F64.to_spec (F64.of_decimal false 1 17))
                            (F64.to_spec (F64.of_decimal false 1 (-1))).
Proof. vm_compute. reflexivity. Qed.

Example of_Z_rounds :
  F64.to_spec (F64.of_Z (-9007199254740993))
  = SpecFloat.binary_normalize 53 1024 (-9007199254740993) 0 false.
Proof. vm_compute. reflexivity. Qed.

(** * Facts about the rounding *)
Module F64Facts.
Import F64.

Lemma shift_of_nonneg t : 0 <= shift_of t.
Proof. unfold shift_of. lia. Qed.

Lemma pow2_pos s : 0 <= s → 0 < 2 ^ s.
Proof. intros Hs. apply Z.pow_pos_nonneg; lia. Qed.

Lemma pow2_shift_pos t : 0 < 2 ^ shift_of t.
Proof. apply Z.pow_pos_nonneg; [lia | apply shift_of_nonneg]. Qed.

(** A value that is a double is its own rounding, whatever the
    denominator it comes with. *)
Lemma round_units_exact k d :
  representable k → 0 < d → round_units (k * d) d = Some k.
Proof.
  intros [[Hk0 Hktop] Hmod] Hd. unfold round_units.
  rewrite Z.div_mul by lia.
  pose proof (pow2_shift_pos k) as Hp.
  set (s := shift_of k) in *.
  apply Z.div_exact in Hmod; [| lia].
  set (m := k / 2 ^ s) in *.
  assert (Hn : k * d = m * (d * 2 ^ s)) by (rewrite Hmod at 1; ring).
  rewrite Hn, Z.div_mul, Z.mod_mul by nia.
  replace (2 * 0 <? d * 2 ^ s) with true by (symmetry; apply Z.ltb_lt; nia).
  replace (m * 2 ^ s) with k by (rewrite Hmod at 1; ring).
  apply Z.ltb_lt in Hktop. now rewrite Hktop.
Qed.

Lemma log2_le_53 q : 0 < q <= 2 ^ 53 → Z.log2 q <= 53.
Proof.
  intros [H0 H1]. apply Z.log2_le_mono in H1.
  rewrite Z.log2_pow2 in H1; lia.
Qed.

Lemma quotient_bound t : 0 <= t → t / 2 ^ shift_of t < 2 ^ 53.
Proof.
  intros Ht. pose proof (pow2_shift_pos t) as Hp.
  destruct (Z.eq_dec t 0) as [->|Hne].
  - rewrite Z.div_0_l by lia. apply pow2_pos. lia.
  - assert (H0 : 0 < t) by lia.
    destruct (Z.log2_spec t H0) as [_ Hub].
    apply Z.div_lt_upper_bound; [lia|].
    rewrite <- Z.pow_add_r by (try apply shift_of_nonneg; lia).
    eapply Z.lt_le_trans; [exact Hub|].
    apply Z.pow_le_mono_r; [lia|]. unfold shift_of.
    pose proof (Z.log2_nonneg t). lia.
Qed.

(** Whatever is rounded, the result is a double. *)
Lemma round_units_representable n d k :
  0 <= n → 0 < d → round_units n d = Some k → representable k.
Proof.
  intros Hn Hd. unfold round_units.
  set (t := n / d). set (s := shift_of t). set (D := d * 2 ^ s).
  set (q := n / D). set (r := n mod D).
  set (q' := if 2 * r <? D then q else if D <? 2 * r then q + 1
             else if Z.even q then q else q + 1).
  destruct (q' * 2 ^ s <? top) eqn:Htop; [|discriminate].
  intros [= <-]. apply Z.ltb_lt in Htop.
  assert (Ht : 0 <= t) by (apply Z.div_pos; lia).
  pose proof (pow2_shift_pos t) as Hp. fold s in Hp.
  assert (Hs : 0 <= s) by apply shift_of_nonneg.
  assert (Hq : q = t / 2 ^ s).
  { unfold q, D, t. rewrite Z.div_div by lia. reflexivity. }
  assert (Hqb : 0 <= q < 2 ^ 53).
  { split; [rewrite Hq; apply Z.div_pos; lia|].
    rewrite Hq. apply quotient_bound; exact Ht. }
  assert (Hq' : 0 <= q' <= 2 ^ 53).
  { unfold q'. repeat case_match; lia. }
  clearbody q'. clear Hq Hqb.
  split; [split; [nia | exact Htop]|].
  destruct (Z.eq_dec q' 0) as [->|Hne].
  { rewrite Z.mul_0_l. apply Z.mod_0_l. pose proof (pow2_shift_pos 0). lia. }
  assert (Hlog : Z.log2 (q' * 2 ^ s) = s + Z.log2 q')
    by (apply Z.log2_mul_pow2; lia).
  pose proof (log2_le_53 q' ltac:(lia)) as H53.
  pose proof (Z.log2_nonneg q') as Hl0.
  unfold shift_of at 1. rewrite Hlog.
  destruct (Z_le_gt_dec (Z.log2 q') 52) as [Hle|Hgt].
  - (* the shift of the result is at most [s] *)
    set (sh := Z.max 0 (s + Z.log2 q' - 52)).
    assert (Hsh : 0 <= sh <= s) by (unfold sh; lia).
    replace (2 ^ s) with (2 ^ (s - sh) * 2 ^ sh)
      by (rewrite <- Z.pow_add_r by lia; f_equal; lia).
    rewrite Z.mul_assoc. apply Z.mod_mul. pose proof (pow2_pos sh ltac:(lia)). lia.
  - (* the mantissa was rounded up to [2^53] *)
    assert (Hq53 : q' = 2 ^ 53).
    { destruct (Z.log2_spec q' ltac:(lia)) as [Hlb _].
      assert (2 ^ 53 <= 2 ^ Z.log2 q') by (apply Z.pow_le_mono_r; lia). lia. }
    rewrite Hq53, Z.log2_pow2 by lia.
    replace (Z.max 0 (s + 53 - 52)) with (s + 1) by lia.
    rewrite <- Z.pow_add_r by lia.
    replace (53 + s) with (52 + (s + 1)) by lia.
    rewrite Z.pow_add_r by lia. apply Z.mod_mul.
    pose proof (pow2_pos (s + 1) ltac:(lia)). lia.
Qed.

(** Only zero rounds to zero. *)
Lemma round_units_zero n : 0 <= n → round_units n 1 = Some 0 → n = 0.
Proof.
  intros Hn. unfold round_units. rewrite Z.div_1_r, Z.mul_1_l.
  pose proof (pow2_shift_pos n) as Hp.
  set (s := shift_of n) in *.
  pose proof (Z.mod_pos_bound n (2 ^ s) Hp) as Hr.
  pose proof (Z.div_pos n (2 ^ s) Hn Hp) as Hq.
  pose proof (Z.div_mod n (2 ^ s) ltac:(lia)) as Hdm.
  set (q := n / 2 ^ s) in *. set (r := n mod 2 ^ s) in *.
  set (q' := if 2 * r <? 2 ^ s then q else if 2 ^ s <? 2 * r then q + 1
             else if Z.even q then q else q + 1).
  assert (Hq' : q <= q') by (unfold q'; repeat case_match; lia).
  destruct (q' * 2 ^ s <? top); [|discriminate].
  intros [= Hk].
  assert (q' = 0) by nia. assert (q = 0) by lia.
  assert (Hlt : n < 2 ^ s) by nia.
  destruct (Z.eq_dec n 0) as [|Hne]; [assumption|exfalso].
  destruct (Z.log2_spec n ltac:(lia)) as [Hlb _].
  assert (2 ^ s <= 2 ^ Z.log2 n).
  { apply Z.pow_le_mono_r; [lia|]. unfold s, shift_of.
    pose proof (Z.log2_nonneg n). lia. }
  lia.
Qed.

Lemma representable_0 : representable 0.
Proof. split; [split; [lia | reflexivity] | reflexivity]. Qed.

Lemma one_units_pos : 0 < one_units.
Proof. apply pow2_pos. lia. Qed.

(** The integer part of a double is a double. *)
Lemma trunc_representable k :
  representable k → representable (k / one_units * one_units).
Proof.
  intros [[Hk0 Hktop] Hmod]. pose proof one_units_pos as Hu.
  pose proof (Z.div_pos k one_units Hk0 Hu) as Hz.
  pose proof (Z.mul_div_le k one_units Hu) as Hle.
  set (z := k / one_units) in *.
  split; [split; [nia | lia]|].
  destruct (Z.eq_dec z 0) as [->|Hne].
  { rewrite Z.mul_0_l. apply Z.mod_0_l. pose proof (pow2_shift_pos 0). lia. }
  assert (Hlog : Z.log2 (z * one_units) = 1074 + Z.log2 z)
    by (unfold one_units; apply Z.log2_mul_pow2; lia).
  pose proof (Z.log2_nonneg z) as Hl0.
  unfold shift_of at 1. rewrite Hlog.
  destruct (Z_le_gt_dec (Z.log2 z) 52) as [Hle52|Hgt].
  - set (sh := Z.max 0 (1074 + Z.log2 z - 52)).
    assert (Hsh : 0 <= sh <= 1074) by (unfold sh; lia).
    unfold one_units.
    replace (2 ^ 1074) with (2 ^ (1074 - sh) * 2 ^ sh)
      by (rewrite <- Z.pow_add_r by lia; f_equal; lia).
    rewrite Z.mul_assoc. apply Z.mod_mul. pose proof (pow2_pos sh ltac:(lia)). lia.
  - (* at least 53 bits above the binary point: [k] has no fraction *)
    assert (Hk : 0 < k) by nia.
    assert (Hzk : Z.log2 z = Z.max 0 (Z.log2 k - 1074)).
    { unfold z, one_units. rewrite <- Z.shiftr_div_pow2 by lia.
      apply Z.log2_shiftr. exact Hk. }
    assert (Hs0 : 0 <= shift_of k - 1074) by (unfold shift_of; lia).
    assert (Hkmod : k mod one_units = 0).
    { pose proof Hmod as Hm. apply Z.div_exact in Hm; [|pose proof (pow2_shift_pos k); lia].
      rewrite Hm. replace (shift_of k) with ((shift_of k - 1074) + 1074) at 1 by lia.
      rewrite Z.pow_add_r by lia. fold one_units.
      rewrite (Z.mul_comm (2 ^ (shift_of k - 1074)) one_units), <- Z.mul_assoc.
      rewrite Z.mul_comm. apply Z.mod_mul. lia. }
    assert (Hkz : z * one_units = k).
    { apply Z.div_exact in Hkmod; [|lia]. fold z in Hkmod. lia. }
    rewrite Hkz. replace (Z.max 0 (1074 + Z.log2 z - 52)) with (shift_of k)
      by (unfold shift_of; lia).
    exact Hmod.
Qed.

(** Subtraction yields zero exactly on equal operands. *)
Lemma sub_is_zero sa ka sb kb :
  is_zero (sub (Fin sa ka) (Fin sb kb)) = (signed sa ka =? signed sb kb).
Proof.
  unfold sub. destruct (Z.eqb_spec (signed sa ka - signed sb kb) 0) as [Heq|Hne].
  - simpl. symmetry. apply Z.eqb_eq. lia.
  - replace (signed sa ka =? signed sb kb) with false by (symmetry; apply Z.eqb_neq; lia).
    unfold round. destruct (round_units _ 1) as [k|] eqn:Hr; [|reflexivity].
    simpl. apply Z.eqb_neq. intros ->.
    apply round_units_zero in Hr; lia.
Qed.

Lemma twos_divides p v : 0 <= v <= Dec.twos p → Zpos p mod 2 ^ v = 0.
Proof.
  revert v. induction p as [p IH|p IH|]; intros v Hv; simpl in Hv.
  - replace v with 0 by lia. apply Z.mod_1_r.
  - destruct (Z.eq_dec v 0) as [->|Hne]; [apply Z.mod_1_r|].
    replace v with (1 + (v - 1)) by lia.
    rewrite Z.pow_add_r by lia.
    rewrite Pos2Z.inj_xO.
    rewrite Z.mul_mod_distr_l; [|lia|pose proof (pow2_pos (v - 1) ltac:(lia)); lia].
    rewrite IH by lia. reflexivity.
  - replace v with 0 by lia. apply Z.mod_1_r.
Qed.

Lemma twos_nonneg p : 0 <= Dec.twos p.
Proof. induction p; simpl; lia. Qed.

End F64Facts.

(** The exact decimal of a double converts back to that double. *)
Lemma Decimal_float_roundtrip s k :
  F64.representable k → Dec.to_float (Dec.from_float (F64.Fin s k)) = F64.Fin s k.
Proof.
  intros Hrep. destruct k as [|p|p].
  - simpl. unfold F64.of_decimal. simpl (0 <=? 0).  cbv iota.
    unfold F64.round.
    replace (0 * 10 ^ 0 * F64.one_units) with (0 * 1) by reflexivity.
    rewrite F64Facts.round_units_exact by (auto || lia). reflexivity.
  - unfold Dec.from_float, Dec.to_float.
    pose proof (F64Facts.twos_nonneg p) as Ht.
    set (v := Z.min (Dec.twos p) 1074).
    assert (Hv : 0 <= v <= 1074) by (unfold v; lia).
    pose proof (F64Facts.twos_divides p v ltac:(unfold v; lia)) as Hdiv.
    pose proof (F64Facts.pow2_pos v ltac:(lia)) as Hpv.
    apply Z.div_exact in Hdiv; [|lia].
    set (n := Z.pos p / 2 ^ v) in *.
    unfold F64.of_decimal, F64.round.
    destruct (Z.leb_spec 0 (- (1074 - v))) as [Hle|Hlt].
    + assert (Hv1074 : v = 1074) by lia.
      replace (- (1074 - v)) with 0 by lia.
      replace (1074 - v) with 0 by lia.
      replace (n * 5 ^ 0 * 10 ^ 0 * F64.one_units) with (Z.pos p * 1).
      * rewrite F64Facts.round_units_exact by (auto || lia). reflexivity.
      * rewrite Hdiv, Hv1074. unfold F64.one_units.
        rewrite !Z.pow_0_r. ring.
    + rewrite Z.opp_involutive.
      replace (n * 5 ^ (1074 - v) * F64.one_units)
        with (Z.pos p * 10 ^ (1074 - v)).
      * rewrite F64Facts.round_units_exact; [reflexivity|exact Hrep|].
        apply Z.pow_pos_nonneg; lia.
      * rewrite Hdiv. unfold F64.one_units.
        replace 1074 with (v + (1074 - v)) at 3 by lia.
        rewrite Z.pow_add_r by lia.
        replace 10 with (5 * 2) by reflexivity.
        rewrite Z.pow_mul_l. ring.
  - destruct Hrep as [[Hneg _] _]. lia.
Qed.


(** * Dictionaries *)

Lemma dict_get_set_eq k v (d : dict) : dict_get k (dict_set k v d) = Some v.
Proof.
  induction d as [|[k' v'] d IH]; simpl.
  - now rewrite String.eqb_refl.
  - destruct (String.eqb k k') eqn:E; simpl; rewrite E; [reflexivity | exact IH].
Qed.

Lemma dict_get_set_ne k k' v (d : dict) :
  k ≠ k' → dict_get k' (dict_set k v d) = dict_get k' d.
Proof.
  intros Hne. induction d as [|[k0 v0] d IH]; simpl.
  - destruct (String.eqb_spec k' k); [congruence | reflexivity].
  - destruct (String.eqb_spec k k0) as [->|Hk]; simpl.
    + destruct (String.eqb_spec k' k0); [congruence | reflexivity].
    + destruct (String.eqb_spec k' k0); [reflexivity | exact IH].
Qed.

Lemma keys_dict_set k v (d : dict) :
  keys (dict_set k v d) = if dict_mem k d then keys d else keys d ++ [k].
Proof.
  unfold dict_mem, keys. induction d as [|[k' v'] d IH]; simpl; [reflexivity|].
  destruct (String.eqb_spec k k') as [->|Hne]; simpl; [reflexivity|].
  rewrite IH. destruct (dict_get k d); reflexivity.
Qed.

Lemma dict_mem_keys k (d : dict) : dict_mem k d = true ↔ k ∈ keys d.
Proof.
  unfold dict_mem, keys. induction d as [|[k' v'] d IH]; simpl.
  - split; [discriminate | intros Hin; inversion Hin].
  - destruct (String.eqb_spec k k') as [->|Hne].
    + split; [intros _; left | reflexivity].
    + rewrite IH. split; [now right|].
      intros Hin. apply elem_of_cons in Hin as [?|?]; [congruence | assumption].
Qed.

Lemma NoDup_keys_dict_set k v (d : dict) :
  NoDup (keys d) → NoDup (keys (dict_set k v d)).
Proof.
  intros Hnd. rewrite keys_dict_set.
  destruct (dict_mem k d) eqn:E; [exact Hnd|].
  apply NoDup_app. repeat split; [exact Hnd | | apply NoDup_singleton].
  intros x Hx Hx'. apply list_elem_of_singleton in Hx' as ->.
  apply dict_mem_keys in Hx. congruence.
Qed.

(** Assigning to a key that is present rewrites its entry where it stands. *)
Lemma dict_set_middle k v v' (pre rest : dict) :
  k ∉ keys pre → dict_set k v' (pre ++ (k, v) :: rest) = pre ++ (k, v') :: rest.
Proof.
  induction pre as [|[k0 v0] pre IH]; simpl; intros Hnot.
  - now rewrite String.eqb_refl.
  - destruct (String.eqb_spec k k0) as [->|Hne].
    + exfalso. apply Hnot. left.
    + rewrite IH; [reflexivity|]. intros Hin. apply Hnot. now right.
Qed.

Lemma dict_get_map f k (d : dict) :
  dict_get k (map (λ kv, (kv.1, f kv.2)) d) = f <$> dict_get k d.
Proof.
  induction d as [|[k' v'] d IH]; simpl; [reflexivity|].
  destruct (String.eqb k k'); [reflexivity | exact IH].
Qed.

(** * Loops over the items of a dictionary *)

(** A loop whose body rewrites the entry it visits, over a dictionary with
    distinct keys, is a map over the entries.  [P] is what the body needs
    of a value to succeed. *)
Lemma for_items_map (P : pyval → Prop) body f (entries pre : dict) :
  (∀ k v pre rest, P v → k ∉ keys pre →
     body k v (pre ++ (k, v) :: rest) = Ok (pre ++ (k, f v) :: rest)) →
  Forall (λ kv, P kv.2) entries →
  NoDup (keys (pre ++ entries)) →
  for_items body entries (pre ++ entries)
  = (Ok tt, pre ++ map (λ kv, (kv.1, f kv.2)) entries).
Proof.
  intros Hbody. revert pre.
  induction entries as [|[k v] entries IH]; intros pre HP Hnd; simpl.
  - reflexivity.
  - apply Forall_cons in HP as [Hv HP].
    assert (Hk : k ∉ keys pre).
    { unfold keys in *. rewrite map_app in Hnd. simpl in Hnd.
      apply NoDup_app in Hnd as (_ & Hdis & _).
      intros Hin. apply (Hdis k Hin). left. }
    rewrite Hbody by assumption.
    replace (pre ++ (k, f v) :: entries) with ((pre ++ [(k, f v)]) ++ entries)
      by (rewrite <- app_assoc; reflexivity).
    rewrite IH.
    + rewrite <- app_assoc. reflexivity.
    + exact HP.
    + unfold keys in *. rewrite !map_app in *. simpl in *.
      rewrite <- app_assoc. exact Hnd.
Qed.

(** A loop whose body fails on the values that are [bad], with [e], and
    on no other, fails with [e] as soon as some entry is bad. *)
Lemma for_items_raises (bad : pyval → bool) e body (entries obj : dict) :
  (∀ k v obj, bad v = true → body k v obj = Raise e) →
  (∀ k v obj, bad v = false → ∃ obj', body k v obj = Ok obj') →
  existsb (λ kv, bad kv.2) entries = true →
  ∃ obj', for_items body entries obj = (Raise e, obj').
Proof.
  intros Hbad Hgood. revert obj.
  induction entries as [|[k v] entries IH]; intros obj Hex; simpl in *.
  - discriminate.
  - destruct (bad v) eqn:Hv.
    + rewrite Hbad by exact Hv. eauto.
    + destruct (Hgood k v obj Hv) as [obj' ->]. apply IH. exact Hex.
Qed.

(** * The type converter *)

Lemma convert_dynamo2native (item : dict) :
  NoDup (keys item) →
  convert_dtypes item "dynamo2native"
  = (Ok tt, map (λ kv, (kv.1, read_value kv.2)) item).
Proof.
  intros Hnd. unfold convert_dtypes. simpl.
  apply (for_items_map (λ _, True) _ read_value item []);
    [| apply Forall_forall; auto | exact Hnd].
  intros k v pre rest _ Hk.
  destruct v; simpl; try reflexivity; now rewrite dict_set_middle.
Qed.

Lemma convert_native2dynamo (item : dict) :
  NoDup (keys item) →
  has_bytes item = false →
  convert_dtypes item "native2dynamo"
  = (Ok tt, map (λ kv, (kv.1, write_value kv.2)) item).
Proof.
  intros Hnd Hnb. unfold convert_dtypes. simpl.
  apply (for_items_map (λ v, is_bytes v = false) _ write_value item []);
    [| | exact Hnd].
  - intros k v pre rest Hv Hk.
    destruct v; simpl in *; try reflexivity; try discriminate.
    now rewrite dict_set_middle.
  - apply Forall_forall. intros kv Hin.
    destruct (is_bytes kv.2) eqn:E; [|reflexivity].
    assert (has_bytes item = true); [|congruence].
    apply existsb_exists. exists kv. split; [now apply list_elem_of_In | exact E].
Qed.

(** The write direction fails on every item that holds a byte sequence:
    it hands the class [bytes], not the value, to [Binary]. *)
Lemma convert_native2dynamo_bytes (item : dict) :
  has_bytes item = true →
  ∃ item', convert_dtypes item "native2dynamo" = (Raise Binary_TypeError, item').
Proof.
  intros Hex. unfold convert_dtypes. simpl.
  apply (for_items_raises is_bytes); [ | | exact Hex].
  - intros k v obj Hv. destruct v; simpl in *; try discriminate; reflexivity.
  - intros k v obj Hv. destruct v; simpl in *; try discriminate; eauto.
Qed.

(** ** Both directions *)

Lemma read_write_value v : plain_value v → read_value (write_value v) = v.
Proof.
  destruct v as [| | |f| | | | | | | |]; simpl; try tauto.
  destruct f as [s k| |]; simpl; try reflexivity.
  intros Hk. f_equal. apply (Decimal_float_roundtrip s k Hk).
Qed.

(** Without byte sequences the two directions compose to the identity:
    the exact decimal of a double reads back as that double. *)
Lemma convert_roundtrip_plain (item : dict) :
  NoDup (keys item) →
  Forall (λ kv, plain_value kv.2) item →
  ∃ wire, convert_dtypes item "native2dynamo" = (Ok tt, wire)
          ∧ convert_dtypes wire "dynamo2native" = (Ok tt, item).
Proof.
  intros Hnd Hplain. eexists. split.
  - apply convert_native2dynamo; [exact Hnd|].
    apply not_true_is_false. intros Hex.
    apply existsb_exists in Hex as (kv & Hin & Hb).
    apply list_elem_of_In in Hin.
    rewrite Forall_forall in Hplain. specialize (Hplain kv Hin).
    destruct (kv.2); simpl in *; try discriminate; tauto.
  - rewrite convert_dynamo2native.
    + f_equal. rewrite map_map. simpl.
      induction Hplain as [|[k v] item Hv _ IH]; simpl; [reflexivity|].
      rewrite read_write_value by exact Hv. f_equal. apply IH.
      now apply NoDup_cons in Hnd as [_ Hnd].
    + unfold keys in *. rewrite map_map. simpl. exact Hnd.
Qed.

(** C1 (the code at the failing input).  An item with a byte blob and a
    float does not survive the write direction: [convert_dtypes] in mode
    ["native2dynamo"] evaluates [Binary(bytes)], on the class instead of the
    value, and boto3's constructor raises [TypeError].  The item is left as
    it was, the blob unboxed; no wire form exists to read back. *)
Theorem convert_dtypes_blob_roundtrip_fails :
  let item := [("blob", PBytes [Byte.x01; Byte.x02]);
               ("price", PFloat (F64.of_decimal false 15 (-1)))] in
  convert_dtypes item "native2dynamo" = (Raise Binary_TypeError, item).
Proof. vm_compute. reflexivity. Qed.

(** C6 (counterexample).  The read direction turns the exact decimal 3,
    which has no fractional part, into the float 3.0, not into an
    integer. *)
Lemma convert_dtypes_integral_decimal_is_float :
  convert_dtypes [("n", PDecimal (Dec.Finite false 3 0))] "dynamo2native"
  = (Ok tt, [("n", PFloat (F64.of_Z 3))])
  ∧ ¬ ∃ z : Z, dict_get "n"
        (snd (convert_dtypes [("n", PDecimal (Dec.Finite false 3 0))] "dynamo2native"))
      = Some (PInt z).
Proof.
  split; [vm_compute; reflexivity|].
  intros [z Hz]. vm_compute in Hz. discriminate.
Qed.

(** * The operations *)

Section KeyResolution.
Context `{PyRuntime}.
Context {W Client : Type} `{Backend W Client}.

#[local] Abbreviation state := (@state W Client).
#[local] Abbreviation M := (@M W Client).

Lemma bind_ok {A B : Type} (m : M A) (f : A → M B) (s s' : state) a :
  m s = (Ok a, s') → (m ≫= f) s = f a s'.
Proof. intros Hm. unfold mbind, M_bind. now rewrite Hm. Qed.

Lemma bind_raise {A B : Type} (m : M A) (f : A → M B) (s s' : state) e :
  m s = (Raise e, s') → (m ≫= f) s = (Raise e, s').
Proof. intros Hm. unfold mbind, M_bind. now rewrite Hm. Qed.

(** ** Key resolution *)

Lemma define_key_args_composite_None (s : state) pk_value :
  length (key_schema (st_self s)) = 2%nat →
  define_key_args pk_value PNone s = (Raise sort_key_missing, s).
Proof.
  intros Hlen. unfold define_key_args, mbind, M_bind, self. simpl.
  rewrite Hlen. reflexivity.
Qed.

(** C2.  On a table whose key schema has two components, every operation
    that resolves a single primary key raises [MissingParameter], with
    code 400, when the sort-key value is [None]; nothing else happens:
    the handle, the caller's objects and the store are as before. *)
Theorem composite_key_needs_sort_key
    (s : state) (pk_value AttributesToGet attribute_name attribute_value : pyval)
    (item : loc) (kwargs : dict) :
  length (key_schema (st_self s)) = 2%nat →
  get_by_keys pk_value PNone AttributesToGet s = (Raise sort_key_missing, s)
  ∧ add_item pk_value PNone item s = (Raise sort_key_missing, s)
  ∧ update_item pk_value PNone attribute_name attribute_value kwargs s
    = (Raise sort_key_missing, s)
  ∧ dump_item pk_value PNone kwargs s = (Raise sort_key_missing, s).
Proof.
  intros Hlen.
  pose proof (define_key_args_composite_None s pk_value Hlen) as Hkey.
  repeat split.
  - unfold get_by_keys. now apply bind_raise.
  - unfold add_item. now apply bind_raise.
  - unfold update_item. now apply bind_raise.
  - unfold dump_item. now apply bind_raise.
Qed.

End KeyResolution.

(** The store instances at which the statements are run. *)
Example init_simple :
  fst (init tt "movies" (PBool false) (PBool false) (MemStore.simple [] []))
  = Ok MemStore.simple_handle.
Proof. reflexivity. Qed.

Example init_composite :
  fst (init tt "movies" (PBool false) (PBool false) (MemStore.composite [] []))
  = Ok MemStore.composite_handle.
Proof. reflexivity. Qed.

Lemma composite_key_needs_sort_key_witness :
  let s := MemStore.state_of MemStore.composite_handle (MemStore.composite [] []) ∅ in
  get_by_keys (PStr "m1") PNone (PList []) s = (Raise sort_key_missing, s)
  ∧ add_item (PStr "m1") PNone 1%positive s = (Raise sort_key_missing, s)
  ∧ update_item (PStr "m1") PNone (PStr "title") (PStr "x") [] s
    = (Raise sort_key_missing, s)
  ∧ dump_item (PStr "m1") PNone [] s = (Raise sort_key_missing, s).
Proof.
  intros s. apply (composite_key_needs_sort_key s). reflexivity.
Defined.

(** ** The handle across the operations *)

Section HandleFrame.
Context `{PyRuntime}.
Context {W Client : Type} `{Backend W Client}.

#[local] Abbreviation state := (@state W Client).
#[local] Abbreviation M := (@M W Client).
#[local] Abbreviation keeps m := (keeps_self (W := W) (Client := Client) m).

Lemma keeps_self_ret {A : Type} (a : A) : keeps (mret a).
Proof. intros s. reflexivity. Qed.

Lemma keeps_self_bind {A B : Type} (m : M A) (f : A → M B) :
  keeps m → (∀ a, keeps (f a)) → keeps (m ≫= f).
Proof.
  intros Hm Hf s. unfold mbind, M_bind. specialize (Hm s).
  destruct (m s) as [[a|e] s']; simpl in *; [|exact Hm].
  rewrite Hf. exact Hm.
Qed.

Lemma keeps_self_raise {A : Type} e : keeps (raise (A := A) e).
Proof. intros s. reflexivity. Qed.

Lemma keeps_self_lift {A : Type} (r : result A) : keeps (lift r).
Proof. intros s. reflexivity. Qed.

Lemma keeps_self_self : keeps self.
Proof. intros s. reflexivity. Qed.

Lemma keeps_self_call {A : Type} (f : W → result A * W) : keeps (call f).
Proof. intros s. unfold call. destruct (f (st_store s)). reflexivity. Qed.

Lemma keeps_self_on_object {A : Type} l (f : dict → result A * dict) :
  keeps (on_object l f).
Proof.
  intros s. unfold on_object.
  destruct (st_heap s !! l) as [d|]; [|reflexivity].
  destruct (f d). reflexivity.
Qed.

Lemma keeps_self_except_ClientError {A : Type} (m : M A) handler :
  keeps m → (∀ e, keeps (handler e)) →
  keeps (except_ClientError m handler).
Proof.
  intros Hm Hh s. unfold except_ClientError. specialize (Hm s).
  destruct (m s) as [[a|e] s']; simpl in *; [exact Hm|].
  destruct e; simpl; try exact Hm. rewrite Hh. exact Hm.
Qed.

Lemma keeps_self_except_KeyError {A : Type} (m handler : M A) :
  keeps m → keeps handler → keeps (except_KeyError m handler).
Proof.
  intros Hm Hh s. unfold except_KeyError. specialize (Hm s).
  destruct (m s) as [[a|e] s']; simpl in *; [exact Hm|].
  destruct e as [| cls msg | |]; simpl; try exact Hm.
  destruct cls; simpl; try exact Hm. rewrite Hh. exact Hm.
Qed.

Ltac frame :=
  repeat first
    [ apply keeps_self_ret | apply keeps_self_raise | apply keeps_self_lift
    | apply keeps_self_self | apply keeps_self_call | apply keeps_self_on_object
    | match goal with Hk : _ |- _ => apply Hk end
    | apply keeps_self_bind; [|intros]
    | apply keeps_self_except_ClientError; [|intros]
    | apply keeps_self_except_KeyError
    | case_match ].

Lemma keeps_self_define_key_args pk sk : keeps (define_key_args pk sk).
Proof. unfold define_key_args. frame. Qed.

Lemma keeps_self_define_list_key_args pks sks :
  keeps (define_list_key_args pks sks).
Proof. unfold define_list_key_args. frame. Qed.

Lemma keeps_self_merge_keys item entries : keeps (merge_keys item entries).
Proof. induction entries as [|[k v] entries IH]; simpl; frame. Qed.

(** Six of the seven public operations leave every attribute of the
    handle as it was. *)
Lemma operations_keep_self :
  (∀ pk sk a, keeps (get_by_keys pk sk a))
  ∧ (∀ pks sks a, keeps (batch_get_by_key pks sks a))
  ∧ (∀ type kwargs, keeps (query_table type kwargs))
  ∧ (∀ pk sk item, keeps (add_item pk sk item))
  ∧ (∀ pk sk n v kwargs, keeps (update_item pk sk n v kwargs))
  ∧ (∀ pk sk kwargs, keeps (dump_item pk sk kwargs)).
Proof.
  pose proof keeps_self_define_key_args.
  pose proof keeps_self_define_list_key_args.
  pose proof keeps_self_merge_keys.
  repeat split; intros.
  - unfold get_by_keys. frame.
  - unfold batch_get_by_key. frame.
  - unfold query_table. frame.
  - unfold add_item. frame.
  - unfold update_item. frame.
  - unfold dump_item. frame.
Qed.

(** [scan_table] does not: its first statement assigns [self.payload]. *)
Lemma scan_table_sets_payload kwargs (s : state) :
  st_self (scan_table kwargs s).2 = set_payload (st_self s) (PDict []).
Proof.
  unfold scan_table.
  rewrite (bind_ok _ _ s s (st_self s)) by reflexivity.
  erewrite bind_ok by reflexivity.
  match goal with |- st_self (?m ?s1).2 = _ =>
    assert (Hk : keeps_self m) by frame; rewrite (Hk s1) end.
  reflexivity.
Qed.

End HandleFrame.

(** C9 (the code at the failing input).  On a freshly constructed handle,
    which has no [payload] attribute, [scan_table] leaves the handle with
    [payload] set to an empty dictionary: the handle is not the same before
    and after the call. *)
Theorem scan_table_mutates_handle :
  let s := MemStore.state_of MemStore.simple_handle (MemStore.simple [] []) ∅ in
  payload (st_self s) = None
  ∧ payload (st_self (scan_table [] s).2) = Some (PDict [])
  ∧ st_self (scan_table [] s).2 ≠ st_self s.
Proof.
  intros s. rewrite scan_table_sets_payload.
  repeat split. discriminate.
Qed.

(** ** Put *)

Section Put.
Context `{PyRuntime}.
Context {W Client : Type} `{Backend W Client}.

#[local] Abbreviation state := (@state W Client).
#[local] Abbreviation M := (@M W Client).

Lemma with_heap_id (s : state) : with_heap s (st_heap s) = s.
Proof. destruct s. reflexivity. Qed.

Lemma on_object_run {A : Type} (s : state) l d (f : dict → result A * dict) :
  st_heap s !! l = Some d →
  on_object l f s = ((f d).1, with_heap s (<[l := (f d).2]> (st_heap s))).
Proof.
  intros Hl. unfold on_object. rewrite Hl. destruct (f d). reflexivity.
Qed.

Lemma merge_get_other k (d Key : dict) :
  k ∉ keys Key → dict_get k (merge_into d Key) = dict_get k d.
Proof.
  revert d. induction Key as [|[k0 v0] Key IH]; intros d Hk; [reflexivity|].
  unfold merge_into in *. simpl.
  rewrite IH by (intros Hin; apply Hk; now right).
  apply dict_get_set_ne. intros ->. apply Hk. left.
Qed.

(** After the merge every key field holds the resolved key value,
    whatever the item held under that name. *)
Lemma merge_get k v (d Key : dict) :
  NoDup (keys Key) → dict_get k Key = Some v →
  dict_get k (merge_into d Key) = Some v.
Proof.
  revert d. induction Key as [|[k0 v0] Key IH]; intros d Hnd Hget; [discriminate|].
  simpl in Hget. apply NoDup_cons in Hnd as [Hk0 Hnd].
  unfold merge_into in *. simpl.
  destruct (String.eqb_spec k k0) as [->|Hne].
  - injection Hget as ->. fold (merge_into (dict_set k0 v d) Key).
    rewrite merge_get_other by exact Hk0. apply dict_get_set_eq.
  - apply IH; assumption.
Qed.

Lemma NoDup_keys_merge (d Key : dict) :
  NoDup (keys d) → NoDup (keys (merge_into d Key)).
Proof.
  revert d. induction Key as [|[k0 v0] Key IH]; intros d Hnd; [exact Hnd|].
  unfold merge_into in *. simpl. apply IH. now apply NoDup_keys_dict_set.
Qed.

Lemma merge_keys_run (s : state) l (d Key : dict) :
  st_heap s !! l = Some d →
  merge_keys l Key s
  = (Ok tt, with_heap s (<[l := merge_into d Key]> (st_heap s))).
Proof.
  revert s d. induction Key as [|[k v] Key IH]; intros s d Hl.
  - simpl. unfold mret, M_ret, merge_into. simpl.
    rewrite insert_id by exact Hl. now rewrite with_heap_id.
  - simpl.
    assert (Hstep : on_object l (λ d, (Ok tt, dict_set k v d)) s
                    = (Ok tt, with_heap s (<[l := dict_set k v d]> (st_heap s))))
      by (rewrite (on_object_run s l d) by exact Hl; reflexivity).
    rewrite (bind_ok _ _ _ _ _ Hstep).
    rewrite (IH _ (dict_set k v d)) by (simpl; apply lookup_insert_eq).
    unfold with_heap. simpl. rewrite insert_insert_eq. reflexivity.
Qed.

(** What [define_key_args] returns when it returns. *)
Lemma define_key_args_shape (s s' : state) pk sk key_args :
  define_key_args pk sk s = (Ok key_args, s') →
  s' = s ∧ ∃ Key, key_args = [("Key", PDict Key)] ∧ NoDup (keys Key)
    ∧ dict_get (partition_key (st_self s)) Key
      = Some (if Nat.eqb (length (key_schema (st_self s))) 2 then
                match sort_key (st_self s) with
                | Some k => if String.eqb (partition_key (st_self s)) k
                            then sk else pk
                | None => pk
                end
              else pk).
Proof.
  unfold define_key_args, mbind, M_bind, self, lift, raise, mret, M_ret.
  cbn -[dict_set dict_get].
  destruct (Nat.eqb (length (key_schema (st_self s))) 2).
  - destruct (eq_None sk); [discriminate|].
    unfold getattr_sort_key. destruct (sort_key (st_self s)) as [k|]; [|discriminate].
    intros Heq. injection Heq as <- <-. split; [reflexivity|].
    exists (dict_set k sk [(partition_key (st_self s), pk)]).
    split; [reflexivity|].
    split; [apply NoDup_keys_dict_set, NoDup_singleton|].
    destruct (String.eqb_spec (partition_key (st_self s)) k) as [->|Hne].
    + apply dict_get_set_eq.
    + rewrite dict_get_set_ne by congruence. simpl. now rewrite String.eqb_refl.
  - intros [= <- <-]. split; [reflexivity|]. eexists. split; [reflexivity|].
    split; [apply NoDup_singleton|]. simpl. now rewrite String.eqb_refl.
Qed.

(** [add_item] up to the store call: the key fields are merged into the
    caller's object, the object is converted where it lies, and the
    object's content is what [put_item] is given. *)
Lemma add_item_run (s : state) pk sk l (d key_args Key : dict) :
  st_heap s !! l = Some d →
  NoDup (keys d) →
  define_key_args pk sk s = (Ok key_args, s) →
  dict_get "Key" key_args = Some (PDict Key) →
  let merged := merge_into d Key in
  if has_bytes merged
  then ∃ d', add_item pk sk l s
             = (Raise Binary_TypeError, with_heap s (<[l := d']> (st_heap s)))
  else
    let Item := map (λ kv, (kv.1, write_value kv.2)) merged in
    add_item pk sk l s
    = (response ← call (Table_put_item (table (st_self s)) [("Item", PDict Item)]);
       statusCode ← lift (HTTPStatusCode response);
       mret (if eq_int statusCode 200 then true else false, statusCode))
        (with_heap s (<[l := Item]> (st_heap s))).
Proof.
  intros Hl Hnd Hkey HKey merged.
  destruct (define_key_args_shape _ _ _ _ _ Hkey) as (_ & Key' & -> & HndK & _).
  simpl in HKey. injection HKey as <-.
  unfold add_item.
  rewrite (bind_ok _ _ s s _ Hkey).
  erewrite bind_ok by reflexivity.
  erewrite bind_ok by (apply merge_keys_run; exact Hl).
  fold merged.
  set (s1 := with_heap s (<[l := merged]> (st_heap s))).
  assert (Hl1 : st_heap s1 !! l = Some merged) by apply lookup_insert_eq.
  destruct (has_bytes merged) eqn:Hb.
  - destruct (convert_native2dynamo_bytes merged Hb) as [d' Hconv].
    exists d'.
    erewrite bind_raise; [reflexivity|].
    erewrite bind_raise; [reflexivity|].
    rewrite (on_object_run s1 l merged) by exact Hl1.
    rewrite Hconv. simpl. unfold with_heap. simpl.
    now rewrite insert_insert_eq.
  - pose proof (convert_native2dynamo merged (NoDup_keys_merge _ _ Hnd) Hb) as Hconv.
    cbv zeta. set (Item := map (λ kv, (kv.1, write_value kv.2)) merged) in *.
    set (s2 := with_heap s (<[l := Item]> (st_heap s))).
    assert (Hconv' : on_object l (λ d, convert_dtypes d "native2dynamo") s1 = (Ok tt, s2)).
    { rewrite (on_object_run s1 l merged) by exact Hl1.
      rewrite Hconv. simpl. unfold s2, with_heap. simpl.
      now rewrite insert_insert_eq. }
    erewrite bind_ok; [|erewrite bind_ok by exact Hconv'; reflexivity].
    erewrite bind_ok by reflexivity.
    assert (Hl2 : st_heap s2 !! l = Some Item) by apply lookup_insert_eq.
    assert (Hread : on_object l (λ d, (Ok d, d)) s2 = (Ok Item, s2)).
    { rewrite (on_object_run s2 l Item) by exact Hl2. simpl.
      unfold s2, with_heap. simpl. now rewrite insert_insert_eq. }
    rewrite (bind_ok _ _ _ _ _ Hread). reflexivity.
Qed.

(** What [put_item] is given is also what the caller's object holds when
    [add_item] is over, whatever the store answers: the object was changed
    where it lies. *)
Lemma add_item_in_place (s : state) pk sk l (d key_args Key : dict) :
  st_heap s !! l = Some d →
  NoDup (keys d) →
  define_key_args pk sk s = (Ok key_args, s) →
  dict_get "Key" key_args = Some (PDict Key) →
  has_bytes (merge_into d Key) = false →
  st_heap (add_item pk sk l s).2 !! l
  = Some (map (λ kv, (kv.1, write_value kv.2)) (merge_into d Key)).
Proof.
  intros Hl Hnd Hkey HKey Hb.
  pose proof (add_item_run s pk sk l d key_args Key Hl Hnd Hkey HKey) as Hrun.
  cbv zeta in Hrun. rewrite Hb in Hrun. rewrite Hrun.
  unfold mbind, M_bind, call, lift, mret, M_ret. simpl.
  destruct (Table_put_item _ _ _) as [[response|e] w]; simpl;
    [|apply lookup_insert_eq].
  destruct (HTTPStatusCode response); simpl; apply lookup_insert_eq.
Qed.

(** C7.  Whenever [add_item] gets as far as writing, the item it hands to
    [put_item] carries, under every key-field name, the value of the
    resolved key, whatever the caller's item held under that name.  This
    is so for key values of the declared key types (string, integer, exact
    decimal); a float given as key value is written as its exact decimal.
    [add_item] does not get as far as writing when the merged item holds a
    byte sequence: then it raises before the store is touched. *)
Theorem add_item_key_fields_win (s : state) pk sk (l : loc) (d key_args Key : dict) :
  st_heap s !! l = Some d →
  NoDup (keys d) →
  define_key_args pk sk s = (Ok key_args, s) →
  dict_get "Key" key_args = Some (PDict Key) →
  (has_bytes (merge_into d Key) = true
   ∧ ∃ s', add_item pk sk l s = (Raise Binary_TypeError, s')
           ∧ st_store s' = st_store s)
  ∨ (has_bytes (merge_into d Key) = false
     ∧ ∃ Item,
         (∀ k v, dict_get k Key = Some v → is_key_type v →
            dict_get k Item = Some v)
         ∧ (∀ k f, dict_get k Key = Some (PFloat f) →
              dict_get k Item = Some (PDecimal (Dec.from_float f)))
         ∧ add_item pk sk l s
           = (response ← call (Table_put_item (table (st_self s))
                                 [("Item", PDict Item)]);
              statusCode ← lift (HTTPStatusCode response);
              mret (if eq_int statusCode 200 then true else false, statusCode))
               (with_heap s (<[l := Item]> (st_heap s)))).
Proof.
  intros Hl Hnd Hkey HKey.
  pose proof (add_item_run s pk sk l d key_args Key Hl Hnd Hkey HKey) as Hrun.
  cbv zeta in Hrun.
  destruct (has_bytes (merge_into d Key)) eqn:Hb.
  - left. split; [reflexivity|]. destruct Hrun as [d' Hrun]. eauto.
  - right. split; [reflexivity|]. eexists. split; [|split; [|exact Hrun]].
    + intros k v Hget Htype.
      destruct (define_key_args_shape _ _ _ _ _ Hkey) as (_ & Key' & -> & HndK & _).
      simpl in HKey. injection HKey as <-.
      rewrite dict_get_map, (merge_get k v d Key') by assumption.
      destruct v; simpl in *; tauto.
    + intros k f Hget.
      destruct (define_key_args_shape _ _ _ _ _ Hkey) as (_ & Key' & -> & HndK & _).
      simpl in HKey. injection HKey as <-.
      rewrite dict_get_map, (merge_get k (PFloat f) d Key') by assumption. reflexivity.
Qed.

End Put.

Lemma add_item_key_fields_win_witness :
  let d := [("id", PStr "zzz"); ("title", PStr "Alien")] in
  let s := MemStore.state_of MemStore.simple_handle (MemStore.simple [] [])
             {[1%positive := d]} in
  let Key := [("id", PStr "m1")] in
  (has_bytes (merge_into d Key) = true
   ∧ ∃ s', add_item (PStr "m1") PNone 1%positive s = (Raise Binary_TypeError, s')
           ∧ st_store s' = st_store s)
  ∨ (has_bytes (merge_into d Key) = false
     ∧ ∃ Item,
         (∀ k v, dict_get k Key = Some v → is_key_type v →
            dict_get k Item = Some v)
         ∧ (∀ k f, dict_get k Key = Some (PFloat f) →
              dict_get k Item = Some (PDecimal (Dec.from_float f)))
         ∧ add_item (PStr "m1") PNone 1%positive s
           = (response ← call (Table_put_item (table (st_self s))
                                 [("Item", PDict Item)]);
              statusCode ← lift (HTTPStatusCode response);
              mret (if eq_int statusCode 200 then true else false, statusCode))
               (with_heap s (<[1%positive := Item]> (st_heap s)))).
Proof.
  intros d s Key.
  apply (add_item_key_fields_win s (PStr "m1") PNone 1%positive d
           [("Key", PDict Key)] Key).
  - reflexivity.
  - apply NoDup_cons. split; [|apply NoDup_singleton].
    intros Hin. apply list_elem_of_singleton in Hin. discriminate.
  - reflexivity.
  - reflexivity.
Defined.

(** The conflicting ["id"] of the caller's item is replaced by the key. *)
Example add_item_conflicting_key :
  let d := [("id", PStr "zzz"); ("title", PStr "Alien")] in
  let s := MemStore.state_of MemStore.simple_handle (MemStore.simple [] [])
             {[1%positive := d]} in
  (add_item (PStr "m1") PNone 1%positive s).1 = Ok (true, PInt 200)
  ∧ MemStore.rows (st_store (add_item (PStr "m1") PNone 1%positive s).2)
    = [[("id", PStr "m1"); ("title", PStr "Alien")]].
Proof. vm_compute. split; reflexivity. Qed.

(** C10 (the code at the failing input).  The caller's item holds a byte
    sequence.  [add_item] merges the key field into the caller's object,
    then raises [TypeError] out of [Binary(bytes)]: the call does not
    return, the byte sequence is not boxed, nothing is written. *)
Theorem add_item_blob_not_boxed :
  let s := MemStore.state_of MemStore.simple_handle (MemStore.simple [] [])
             {[1%positive := [("blob", PBytes [Byte.x01])]]} in
  (add_item (PStr "m1") PNone 1%positive s).1 = Raise Binary_TypeError
  ∧ st_heap (add_item (PStr "m1") PNone 1%positive s).2 !! 1%positive
    = Some [("blob", PBytes [Byte.x01]); ("id", PStr "m1")]
  ∧ MemStore.rows (st_store (add_item (PStr "m1") PNone 1%positive s).2) = [].
Proof. vm_compute. repeat split; reflexivity. Qed.

(** ** Update *)

Section Update.
Context `{PyRuntime}.
Context {W Client : Type} `{Backend W Client}.

#[local] Abbreviation state := (@state W Client).
#[local] Abbreviation M := (@M W Client).

(** C8.  Called without options, [update_item] sends the store a request
    whose condition expression is [attribute_exists(attribute_name)] and
    whose return-value mode is [UPDATED_OLD]; and whenever the store
    rejects that request with a [ClientError], as it does when the
    conditional check fails, [update_item] raises [InvalidParameter] with
    code 400.  The key is taken to resolve. *)
Theorem update_item_default_condition (s : state) pk sk
    (attribute_name : string) (attribute_value : pyval) (key_args : dict) :
  define_key_args pk sk s = (Ok key_args, s) →
  let arguments := default_update_arguments key_args attribute_name attribute_value in
  let reply := Table_update_item (table (st_self s)) arguments (st_store s) in
  dict_get "ConditionExpression" arguments
  = Some (PStr ("attribute_exists(" +:+ attribute_name +:+ ")"))
  ∧ dict_get "ReturnValues" arguments = Some (PStr "UPDATED_OLD")
  ∧ st_store (update_item pk sk (PStr attribute_name) attribute_value [] s).2
    = reply.2
  ∧ ∀ detail, reply.1 = Raise (ClientError detail) →
      update_item pk sk (PStr attribute_name) attribute_value [] s
      = (Raise update_rejected, with_store s reply.2).
Proof.
  intros Hkey arguments reply.
  assert (Hrun : update_item pk sk (PStr attribute_name) attribute_value [] s
    = (response ← except_ClientError
         (call (Table_update_item (table (st_self s)) arguments))
         (λ e, raise (InvalidParameter "Check that the attribute value is not empty"));
       statusCode ← lift (HTTPStatusCode response);
       Attributes_in_response ←
         lift (match response with
               | PDict d => Ok (dict_mem "Attributes" d)
               | _ => Raise (BuiltinError TypeError "argument is not iterable")
               end);
       if (Attributes_in_response : bool) then
         Attributes ← lift (getitem response "Attributes");
         ReturnValues ← lift (getitem (PDict arguments) "ReturnValues");
         message ← lift (lookup_getitem
           [("UPDATED_OLD", PStr "Returned only updated old item");
            ("ALL_OLD", PStr "Returned all old item");
            ("UPDATED_NEW", PStr "Returned only updated new item");
            ("ALL_NEW", PStr "Returned all new item")] ReturnValues);
         mret (dict_set "message" message (dict_set "data" Attributes []), statusCode)
       else
         mret (dict_set "message" (PStr "Item was updated") [], statusCode)) s).
  { unfold update_item. rewrite (bind_ok _ _ s s _ Hkey).
    erewrite bind_ok by reflexivity. reflexivity. }
  repeat split.
  - apply dict_get_set_eq.
  - unfold arguments, default_update_arguments.
    rewrite dict_get_set_ne by discriminate. apply dict_get_set_eq.
  - rewrite Hrun. unfold mbind, M_bind, except_ClientError, call, lift, raise,
      mret, M_ret. fold reply.
    destruct reply as [[response|e] w]; simpl.
    + repeat (case_match; simpl; try reflexivity).
    + destruct e; reflexivity.
  - intros detail Hrej. rewrite Hrun.
    unfold mbind, M_bind, except_ClientError, call, raise. fold reply.
    destruct reply as [r w]. simpl in Hrej. subst r. reflexivity.
Qed.

End Update.

Lemma update_item_default_condition_witness :
  let s := MemStore.state_of MemStore.simple_handle
             (MemStore.simple [[("id", PStr "m1"); ("title", PStr "Alien")]] []) ∅ in
  define_key_args (PStr "m1") PNone s = (Ok [("Key", PDict [("id", PStr "m1")])], s)
  ∧ (Table_update_item (table (st_self s))
       (default_update_arguments [("Key", PDict [("id", PStr "m1")])] "rating" (PInt 5))
       (st_store s)).1
    = Raise (ClientError "ConditionalCheckFailedException")
  ∧ update_item (PStr "m1") PNone (PStr "rating") (PInt 5) [] s
    = (Raise update_rejected, s).
Proof.
  intros s.
  assert (Hkey : define_key_args (PStr "m1") PNone s
                 = (Ok [("Key", PDict [("id", PStr "m1")])], s)) by reflexivity.
  split; [exact Hkey|]. split; [reflexivity|].
  exact (proj2 (proj2 (proj2
    (update_item_default_condition s (PStr "m1") PNone "rating" (PInt 5)
       [("Key", PDict [("id", PStr "m1")])] Hkey)))
    "ConditionalCheckFailedException" eq_refl).
Defined.

(** ** Get and batch get *)

Section Read.
Context `{PyRuntime}.
Context {W Client : Type} `{Backend W Client}.

#[local] Abbreviation state := (@state W Client).
#[local] Abbreviation M := (@M W Client).

(** C6 (amended).  In the read-direction conversion that [get_by_keys]
    applies to the item of the response, every boxed binary value is
    unwrapped to the value it boxes, and every exact-decimal value, with
    or without a fractional part, becomes the float nearest to it; other
    values are returned as they are. *)
Theorem get_by_keys_read_conversion (s : state) pk sk AttributesToGet
    (key_args : dict) response w' statusCode (Item : dict) :
  define_key_args pk sk s = (Ok key_args, s) →
  Table_get_item (table (st_self s))
    (if truthy AttributesToGet
     then dict_set "AttributesToGet" AttributesToGet key_args else key_args)
    (st_store s) = (Ok response, w') →
  HTTPStatusCode response = Ok statusCode →
  getitem response "Item" = Ok (PDict Item) →
  NoDup (keys Item) →
  ∃ data,
    get_by_keys pk sk AttributesToGet s
    = (Ok ([("data", PDict data)], statusCode), with_store s w')
    ∧ keys data = keys Item
    ∧ (∀ k value, dict_get k Item = Some (PBinary value) →
         dict_get k data = Some value)
    ∧ (∀ k d, dict_get k Item = Some (PDecimal d) →
         dict_get k data = Some (PFloat (Dec.to_float d)))
    ∧ (∀ k v, dict_get k Item = Some v →
         (∀ value, v ≠ PBinary value) → (∀ d, v ≠ PDecimal d) →
         dict_get k data = Some v).
Proof.
  intros Hkey Hget Hstatus HItem Hnd.
  exists (map (λ kv, (kv.1, read_value kv.2)) Item). split; [|split; [|repeat split]].
  - unfold get_by_keys. rewrite (bind_ok _ _ s s _ Hkey).
    erewrite bind_ok by reflexivity.
    erewrite bind_ok; [|unfold call; rewrite Hget; reflexivity].
    erewrite bind_ok; [|unfold lift; rewrite Hstatus; reflexivity].
    erewrite bind_ok; [reflexivity|].
    unfold except_KeyError.
    erewrite bind_ok; [|unfold lift; rewrite HItem; reflexivity].
    erewrite bind_ok by reflexivity.
    rewrite (convert_dynamo2native Item Hnd). reflexivity.
  - unfold keys. rewrite map_map. reflexivity.
  - intros k value Hk. rewrite dict_get_map, Hk. reflexivity.
  - intros k d Hk. rewrite dict_get_map, Hk. reflexivity.
  - intros k v Hk Hb Hd. rewrite dict_get_map, Hk.
    destruct v; try reflexivity; [destruct (Hd _ eq_refl) | destruct (Hb _ eq_refl)].
Qed.

Lemma getitem_raises v k e :
  getitem v k = Raise e → ∃ cls message, e = BuiltinError cls message.
Proof.
  unfold getitem. destruct v; try (intros [= <-]; eauto).
  destruct (dict_get k d); [discriminate|]. intros [= <-]. eauto.
Qed.

Lemma infer_types_list items data :
  infer_types items = Ok data → ∃ l, data = PList l.
Proof.
  unfold infer_types. destruct (mapM infer_item _) as [l|e]; simpl; [|discriminate].
  intros [= <-]. eauto.
Qed.

(** C3.  Given that the store answers the batch request and the items of
    the answer decode, [batch_get_by_key] raises [NotFoundError] exactly
    when the decoded result set is empty; and when it is not empty and
    the answer carries unprocessed keys for the table, the payload
    returned has the decoded items under [data] and exactly that key list
    under [error]. *)
Theorem batch_get_by_key_outcome (s : state) pk_list sk_list AttributesToGet
    (request0 request : dict) response w' statusCode raw data :
  define_list_key_args pk_list sk_list s = (Ok request0, s) →
  (if truthy AttributesToGet
   then setitem3 request0 "RequestItems" (name (table (st_self s)))
          "AttributesToGet" AttributesToGet
   else Ok request0) = Ok request →
  Client_batch_get_item (client (st_self s)) request (st_store s)
  = (Ok response, w') →
  HTTPStatusCode response = Ok statusCode →
  (Responses ← getitem response "Responses";
   getitem Responses (name (table (st_self s)))) = Ok raw →
  infer_types raw = Ok data →
  let run := batch_get_by_key pk_list sk_list AttributesToGet s in
  ((∃ code message, run.1 = Raise (ApiError cNotFoundError code message))
   ↔ data = PList [])
  ∧ (data = PList [] →
     run = (Raise (NotFoundError "None of the items were found"), with_store s w'))
  ∧ ∀ UnprocessedKeys Keys,
      data ≠ PList [] →
      getitem response "UnprocessedKeys" = Ok UnprocessedKeys →
      truthy UnprocessedKeys = true →
      (t ← getitem UnprocessedKeys (name (table (st_self s))); getitem t "Keys")
      = Ok Keys →
      run = (Ok ([("data", data); ("error", Keys)], statusCode), with_store s w').
Proof.
  intros Hreq0 Hreq Hcall Hstatus Hraw Hdata run.
  destruct (infer_types_list _ _ Hdata) as [l ->].
  assert (Hrun : run =
    (if negb (truthy (PList l)) then
       raise (NotFoundError "None of the items were found")
     else
       UnprocessedKeys ← lift (getitem response "UnprocessedKeys");
       payload ←
         (if truthy UnprocessedKeys
          then
            Keys ← lift (t ← getitem UnprocessedKeys (name (table (st_self s)));
                         getitem t "Keys");
            mret (dict_set "error" Keys [("data", PList l)])
          else mret [("data", PList l)]);
       mret (payload, statusCode)) (with_store s w')).
  { unfold run, batch_get_by_key. rewrite (bind_ok _ _ s s _ Hreq0).
    erewrite bind_ok by reflexivity.
    erewrite (bind_ok _ _ s s request).
    2:{ destruct (truthy AttributesToGet);
          [unfold lift; rewrite Hreq; reflexivity | now injection Hreq as ->]. }
    erewrite bind_ok; [|unfold call; rewrite Hcall; reflexivity].
    erewrite bind_ok; [|unfold lift; rewrite Hstatus; reflexivity].
    erewrite bind_ok; [|unfold lift; rewrite Hraw; reflexivity].
    erewrite bind_ok; [|unfold lift; rewrite Hdata; reflexivity].
    reflexivity. }
  destruct l as [|item l].
  - (* nothing was found *)
    simpl in Hrun. split; [split|split].
    + reflexivity.
    + intros _. rewrite Hrun. unfold raise, NotFoundError, api_init. simpl. eauto.
    + intros _. exact Hrun.
    + intros U Keys Hne. congruence.
  - simpl in Hrun. split; [|split].
    + split; [|discriminate].
      intros (code & message & Hnf). rewrite Hrun in Hnf. exfalso.
      unfold mbind, M_bind, lift, mret, M_ret in Hnf.
      destruct (getitem response "UnprocessedKeys") as [U|e] eqn:HU; simpl in Hnf.
      * destruct (truthy U); simpl in Hnf; [|discriminate].
        destruct (getitem U (name (table (st_self s)))) as [t|e] eqn:Ht; simpl in Hnf.
        -- destruct (getitem t "Keys") as [ks|e] eqn:Hks; simpl in Hnf; [discriminate|].
           apply getitem_raises in Hks as (cls & msg & ->). discriminate.
        -- apply getitem_raises in Ht as (cls & msg & ->). discriminate.
      * apply getitem_raises in HU as (cls & msg & ->). discriminate.
    + discriminate.
    + intros U Keys _ HU Htruthy HKeys. rewrite Hrun.
      erewrite bind_ok; [|unfold lift; rewrite HU; reflexivity].
      rewrite Htruthy.
      erewrite bind_ok; [reflexivity|].
      erewrite bind_ok; [|unfold lift; rewrite HKeys; reflexivity].
      reflexivity.
Qed.

End Read.

Lemma get_by_keys_read_conversion_witness :
  let row := [("id", PStr "m1"); ("n", PDecimal (Dec.Finite false 3 0));
              ("b", PBinary (PBytes [Byte.x01]))] in
  let s := MemStore.state_of MemStore.simple_handle (MemStore.simple [row] []) ∅ in
  ∃ data,
    get_by_keys (PStr "m1") PNone (PList []) s
    = (Ok ([("data", PDict data)], PInt 200), s)
    ∧ dict_get "n" data = Some (PFloat (F64.of_Z 3))
    ∧ dict_get "b" data = Some (PBytes [Byte.x01]).
Proof.
  intros row s.
  destruct (get_by_keys_read_conversion s (PStr "m1") PNone (PList [])
              [("Key", PDict [("id", PStr "m1")])]
              (MemStore.response [("Item", PDict row)]) (st_store s)
              (PInt 200) row)
    as (data & Hrun & _ & Hb & Hd & _).
  - reflexivity.
  - reflexivity.
  - reflexivity.
  - reflexivity.
  - repeat (apply NoDup_cons; split;
            [intros Hin; repeat (apply elem_of_cons in Hin as [Hin|Hin];
                                 [discriminate|]); inversion Hin|]).
    apply NoDup_nil. exact I.
  - exists data. split; [exact Hrun|]. split.
    + apply (Hd "n" (Dec.Finite false 3 0)). reflexivity.
    + apply (Hb "b" (PBytes [Byte.x01])). reflexivity.
Defined.

Lemma batch_get_by_key_outcome_witness :
  let found := PList [PDict [("id", PDict [("S", PStr "m1")])]] in
  let left_over := PList [PDict [("id", PDict [("S", PStr "m2")])]] in
  let reply := MemStore.response
    [("Responses", PDict [("movies", found)]);
     ("UnprocessedKeys", PDict [("movies", PDict [("Keys", left_over)])])] in
  let s := MemStore.state_of MemStore.simple_handle
             (MemStore.simple [] [Ok reply]) ∅ in
  batch_get_by_key [PStr "m1"; PStr "m2"] None (PList []) s
  = (Ok ([("data", PList [PDict [("id", PStr "m1")]]); ("error", left_over)],
         PInt 200),
     with_store s (MemStore.simple [] [])).
Proof.
  intros found left_over reply s.
  refine (proj2 (proj2
    (batch_get_by_key_outcome s [PStr "m1"; PStr "m2"] None (PList [])
       [("RequestItems", PDict [("movies", PDict [("Keys",
          PList [PDict [("id", PStr "m1")]; PDict [("id", PStr "m2")]])])])]
       _ reply (MemStore.simple [] []) (PInt 200) found
       (PList [PDict [("id", PStr "m1")]])
       eq_refl eq_refl eq_refl eq_refl eq_refl eq_refl))
    (PDict [("movies", PDict [("Keys", left_over)])]) left_over _ eq_refl eq_refl eq_refl).
  discriminate.
Defined.

(** All requested keys absent: the answer has no item and nothing left
    over. *)
Example batch_get_by_key_nothing_found :
  let reply := MemStore.response
    [("Responses", PDict [("movies", PList [])]); ("UnprocessedKeys", PDict [])] in
  let s := MemStore.state_of MemStore.simple_handle
             (MemStore.simple [] [Ok reply]) ∅ in
  (batch_get_by_key [PStr "m1"; PStr "m2"] None (PList []) s).1
  = Raise (ApiError cNotFoundError 404 "404:None of the items were found").
Proof. reflexivity. Qed.

(** * Decoding wire maps *)

Section InferTypes.
Context `{PyRuntime}.

(** [infer_types] on an item with one attribute and one tag is the
    dispatch on the tag followed by the decoder. *)
Lemma infer_types_wire_item attr dtype x :
  infer_types (wire_item attr dtype x)
  = (f ← conversions_getitem dtype; v ← f x; decoded attr v).
Proof.
  unfold infer_types, wire_item, decoded, infer_item. simpl.
  destruct (conversions_getitem dtype) as [f|e]; simpl; [|reflexivity].
  destruct (f x) as [v|e]; simpl; [|reflexivity].
  rewrite String.eqb_refl. reflexivity.
Qed.

(** ** Booleans *)

(** C5 (amended).  For every string [s], [infer_types] decodes
    [{"BOOL": s}] to true exactly when [s] is one of the three spellings
    ["True"], ["true"], ["TRUE"], and to false for every other string,
    other casings of "true" included. *)
Theorem infer_types_BOOL attr (s : string) :
  ∃ b : bool,
    infer_types (wire_item attr "BOOL" (PStr s)) = decoded attr (PBool b)
    ∧ (b = true ↔ s = "True" ∨ s = "true" ∨ s = "TRUE").
Proof.
  exists (String.eqb s "True" || String.eqb s "true" || String.eqb s "TRUE").
  split; [rewrite infer_types_wire_item; reflexivity|].
  rewrite !orb_true_iff, !String.eqb_eq. tauto.
Qed.

(** ** Numbers *)

Lemma digits_rest_nonneg l acc cnt :
  0 <= acc → 0 <= (FloatLiteral.digits_rest acc cnt l).1.1.
Proof.
  revert acc cnt.
  induction l as [l IH] using (induction_ltof1 _ (@length _)); unfold ltof in IH.
  intros acc cnt Hacc. destruct l as [|c l]; [exact Hacc|]. simpl.
  assert (Hd : ∀ c d, FloatLiteral.digit c = Some d → 0 <= d).
  { intros c0 d. unfold FloatLiteral.digit.
    destruct (_ && _) eqn:E; [|discriminate]. intros [= <-].
    apply andb_prop in E as [E _]. lia. }
  destruct (FloatLiteral.digit c) as [d|] eqn:Ec.
  - apply IH; [simpl; lia|]. specialize (Hd _ _ Ec). lia.
  - destruct (Ascii.eqb c "_"); [|exact Hacc].
    destruct l as [|c2 l]; [exact Hacc|].
    destruct (FloatLiteral.digit c2) as [d|] eqn:Ec2; [|exact Hacc].
    apply IH; [simpl; lia|]. specialize (Hd _ _ Ec2). lia.
Qed.

Lemma digitpart_nonneg l v cnt r :
  FloatLiteral.digitpart l = Some (v, cnt, r) → 0 <= v.
Proof.
  unfold FloatLiteral.digitpart. destruct l as [|c l]; [discriminate|].
  destruct (FloatLiteral.digit c) as [d|] eqn:Ec; [|discriminate].
  intros Heq.
  assert (0 <= d).
  { unfold FloatLiteral.digit in Ec. destruct (_ && _) eqn:E; [|discriminate].
    injection Ec as <-. apply andb_prop in E as [E _]. lia. }
  pose proof (digits_rest_nonneg l d 1 ltac:(lia)) as Hnn.
  injection Heq as Heq. rewrite Heq in Hnn. exact Hnn.
Qed.

Lemma number_nonneg l c e r :
  FloatLiteral.number l = Some (c, e, r) → 0 <= c.
Proof.
  unfold FloatLiteral.number.
  destruct (FloatLiteral.digitpart l) as [[[ip icnt] r0]|] eqn:Hip.
  - pose proof (digitpart_nonneg _ _ _ _ Hip) as Hi.
    destruct r0 as [|c0 r0]; [intros [= <- _ _]; exact Hi|].
    destruct (Ascii.eqb_spec c0 "."%char) as [->|Hne].
    + destruct (FloatLiteral.digitpart r0) as [[[fp fc] r1]|] eqn:Hfp.
      * pose proof (digitpart_nonneg _ _ _ _ Hfp) as Hf.
        intros [= <- _ _]. apply Z.add_nonneg_nonneg; [|exact Hf].
        apply Z.mul_nonneg_nonneg; [exact Hi|]. apply Z.pow_nonneg. lia.
      * intros [= <- _ _]. exact Hi.
    + assert (Hsame : match c0 with
                      | "."%char => None
                      | _ => Some (ip, 0, c0 :: r0)
                      end = Some (ip, 0, c0 :: r0) ∨ c0 = "."%char).
      { destruct c0 as [[] [] [] [] [] [] [] []]; auto. }
      destruct Hsame as [Hs|Hs]; [|congruence].
      destruct c0 as [[] [] [] [] [] [] [] []]; try (intros [= <- _ _]; exact Hi).
      congruence.
  - destruct l as [|c0 r0]; [discriminate|].
    destruct c0 as [[] [] [] [] [] [] [] []]; try discriminate.
    destruct (FloatLiteral.digitpart r0) as [[[fp fc] r1]|] eqn:Hfp; [|discriminate].
    intros [= <- _ _]. exact (digitpart_nonneg _ _ _ _ Hfp).
Qed.

Lemma read_nonneg s neg c e :
  FloatLiteral.read s = Some (FloatLiteral.LDec neg c e) → 0 <= c.
Proof.
  unfold FloatLiteral.read.
  destruct (FloatLiteral.sign _) as [sg l].
  destruct (_ || _); [discriminate|].
  destruct (FloatLiteral.is_word l "nan"); [discriminate|].
  destruct (FloatLiteral.number l) as [[[c0 e0] r]|] eqn:Hn; [|discriminate].
  destruct (FloatLiteral.exponent r) as [[x [|]]|]; try discriminate.
  intros [= _ <- _]. exact (number_nonneg _ _ _ _ Hn).
Qed.

Lemma of_decimal_representable neg c e s k :
  0 <= c → F64.of_decimal neg c e = F64.Fin s k → F64.representable k.
Proof.
  intros Hc. unfold F64.of_decimal, F64.round.
  pose proof F64Facts.one_units_pos as Hu.
  destruct (0 <=? e) eqn:He.
  - destruct (F64.round_units _ 1) as [k'|] eqn:Hr; [|discriminate].
    intros [= _ <-]. eapply F64Facts.round_units_representable; [| |exact Hr]; [|lia].
    apply Z.mul_nonneg_nonneg; [|lia].
    apply Z.mul_nonneg_nonneg; [exact Hc|]. apply Z.pow_nonneg. lia.
  - destruct (F64.round_units _ (10 ^ (- e))) as [k'|] eqn:Hr; [|discriminate].
    intros [= _ <-]. eapply F64Facts.round_units_representable; [| |exact Hr].
    + apply Z.mul_nonneg_nonneg; lia.
    + apply Z.pow_pos_nonneg; [lia|]. apply Z.leb_gt in He. lia.
Qed.

(** What [float] reads from a string is a double. *)
Lemma float_of_str_representable s neg k :
  float_of_str s = Ok (F64.Fin neg k) → F64.representable k.
Proof.
  unfold float_of_str, FloatLiteral.parse.
  destruct (FloatLiteral.read s) as [lit|] eqn:Hread; simpl; [|discriminate].
  destruct lit as [| |neg' c e]; simpl; try discriminate.
  intros [= Hf]. eapply of_decimal_representable; [|exact Hf].
  exact (read_nonneg _ _ _ _ Hread).
Qed.

(** The integer nearest below a double is itself a double, and [float]
    reads it back exactly. *)
Lemma py_float_trunc neg k :
  F64.representable k →
  py_float (PInt (F64.trunc neg k))
  = Ok (F64.Fin (F64.trunc neg k <? 0) (k / F64.one_units * F64.one_units)).
Proof.
  intros Hrep. pose proof F64Facts.one_units_pos as Hu.
  destruct Hrep as [[Hk0 Hktop] Hmod].
  pose proof (Z.div_pos k F64.one_units Hk0 Hu) as Hz.
  assert (Habs : Z.abs (F64.trunc neg k) = k / F64.one_units)
    by (unfold F64.trunc; destruct neg; lia).
  unfold py_float, F64.of_Z, F64.round. rewrite Habs.
  replace (k / F64.one_units * F64.one_units)
    with (k / F64.one_units * F64.one_units * 1) at 1 by lia.
  rewrite F64Facts.round_units_exact; [reflexivity| |lia].
  apply F64Facts.trunc_representable. repeat split; assumption.
Qed.

(** The decoder of the tag [N] on a payload that [float] reads as a
    finite double: the integer part when the double has no fractional
    part, the double otherwise. *)
Lemma N_decoder x neg k :
  py_float x = Ok (F64.Fin neg k) →
  F64.representable k →
  (f ← conversions_getitem "N"; f x)
  = Ok (if k mod F64.one_units =? 0 then PInt (F64.trunc neg k)
        else PFloat (F64.Fin neg k)).
Proof.
  intros Hx Hrep. pose proof F64Facts.one_units_pos as Hu.
  unfold conversions_getitem, conversions.
  change (String.eqb "N" "N") with true. cbv iota. cbn [mbind result_bind].
  rewrite Hx. cbn [mbind result_bind int_of_float].
  unfold float_sub_int. rewrite (py_float_trunc neg k Hrep).
  cbn [mbind result_bind]. rewrite F64Facts.sub_is_zero.
  assert (Hsig : F64.signed (F64.trunc neg k <? 0) (k / F64.one_units * F64.one_units)
                 = F64.signed neg (k / F64.one_units * F64.one_units)).
  { destruct Hrep as [[Hk0 _] _].
    pose proof (Z.div_pos k F64.one_units Hk0 Hu) as Hz.
    unfold F64.signed, F64.trunc. destruct neg.
    - destruct (Z.ltb_spec (- (k / F64.one_units)) 0); [reflexivity|].
      replace (k / F64.one_units) with 0 by lia. reflexivity.
    - destruct (Z.ltb_spec (k / F64.one_units) 0); [lia|reflexivity]. }
  rewrite Hsig.
  pose proof (Z.div_mod k F64.one_units ltac:(lia)) as Hdm.
  destruct (Z.eqb_spec (k mod F64.one_units) 0) as [Hz|Hnz].
  - replace (F64.signed neg k =? _) with true; [reflexivity|].
    symmetry. apply Z.eqb_eq. unfold F64.signed. destruct neg; lia.
  - replace (F64.signed neg k =? _) with false; [reflexivity|].
    symmetry. apply Z.eqb_neq. unfold F64.signed. destruct neg; lia.
Qed.

(** A literal whose value is a double is read as that double: nothing is
    lost to rounding. *)
Lemma float_of_str_exact s neg c e k :
  FloatLiteral.read s = Some (FloatLiteral.LDec neg c e) →
  F64.representable k →
  (if 0 <=? e then c * 10 ^ e * F64.one_units = k
   else c * F64.one_units = k * 10 ^ (- e)) →
  float_of_str s = Ok (F64.Fin neg k).
Proof.
  intros Hread Hrep Hval. unfold float_of_str, FloatLiteral.parse.
  rewrite Hread. simpl. unfold F64.of_decimal, F64.round.
  destruct (0 <=? e) eqn:He.
  - rewrite Hval. replace k with (k * 1) at 1 by lia.
    rewrite F64Facts.round_units_exact by (assumption || lia). reflexivity.
  - rewrite Hval. apply Z.leb_gt in He.
    rewrite F64Facts.round_units_exact; [reflexivity|assumption|].
    apply Z.pow_pos_nonneg; lia.
Qed.

Lemma conversions_unknown dtype :
  dtype ∉ wire_tags → conversions dtype = None.
Proof.
  intros Hnot. unfold conversions.
  repeat (match goal with
          | |- context [String.eqb dtype ?t] =>
              destruct (String.eqb_spec dtype t) as [->|_];
              [exfalso; apply Hnot; unfold wire_tags; set_solver|]
          end).
  reflexivity.
Qed.

(** C4 (amended).  For every wire map [{"N": s}] whose payload [float]
    reads as a finite double, [infer_types] yields the integer part of
    that double when the double has no fractional part, and the double
    otherwise.  The double is the one nearest to the encoded value, and is
    the encoded value itself whenever that value is a double: so
    [{"N": "3.0"}] yields the integer 3 and [{"N": "3.5"}] the float 3.5.
    The dispatch table has a decoder for each documented tag (N, S, BOOL,
    NULL, B, L, M, NS, SS), the decoders of S, NULL and BOOL never fail,
    and [infer_types] raises [KeyError] on every other tag. *)
Theorem infer_types_wire_tags :
  (∀ attr s neg k,
     float_of_str s = Ok (F64.Fin neg k) →
     infer_types (wire_item attr "N" (PStr s))
     = decoded attr (if k mod F64.one_units =? 0 then PInt (F64.trunc neg k)
                     else PFloat (F64.Fin neg k)))
  ∧ (∀ s neg c e k,
       FloatLiteral.read s = Some (FloatLiteral.LDec neg c e) →
       F64.representable k →
       (if 0 <=? e then c * 10 ^ e * F64.one_units = k
        else c * F64.one_units = k * 10 ^ (- e)) →
       float_of_str s = Ok (F64.Fin neg k))
  ∧ (∀ attr, infer_types (wire_item attr "N" (PStr "3.0")) = decoded attr (PInt 3))
  ∧ (∀ attr, infer_types (wire_item attr "N" (PStr "3.5"))
             = decoded attr (PFloat (F64.Fin false (7 * 2 ^ 1073))))
  ∧ (∀ dtype, dtype ∈ wire_tags → is_Some (conversions dtype))
  ∧ (∀ attr x, infer_types (wire_item attr "S" x) = decoded attr x)
  ∧ (∀ attr x, infer_types (wire_item attr "NULL" x) = decoded attr PNone)
  ∧ (∀ attr x, ∃ b, infer_types (wire_item attr "BOOL" x) = decoded attr (PBool b))
  ∧ (∀ attr dtype x,
       dtype ∉ wire_tags →
       infer_types (wire_item attr dtype x) = Raise (BuiltinError KeyError dtype)).
Proof.
  assert (HN : ∀ attr s neg k,
     float_of_str s = Ok (F64.Fin neg k) →
     infer_types (wire_item attr "N" (PStr s))
     = decoded attr (if k mod F64.one_units =? 0 then PInt (F64.trunc neg k)
                     else PFloat (F64.Fin neg k))).
  { intros attr s neg k Hs. rewrite infer_types_wire_item.
    pose proof (N_decoder (PStr s) neg k Hs (float_of_str_representable _ _ _ Hs)) as Hdec.
    destruct (conversions_getitem "N") as [f|e]; simpl in *; [|discriminate].
    rewrite Hdec. reflexivity. }
  split; [exact HN|].
  split; [exact float_of_str_exact|].
  split.
  { intros attr.
    rewrite (HN attr "3.0" false (3 * 2 ^ 1074)) by (vm_compute; reflexivity).
    f_equal. }
  split.
  { intros attr.
    rewrite (HN attr "3.5" false (7 * 2 ^ 1073)) by (vm_compute; reflexivity).
    f_equal. }
  split.
  { intros dtype Hin. unfold wire_tags in Hin.
    repeat (apply elem_of_cons in Hin as [->|Hin]; [eexists; reflexivity|]).
    inversion Hin. }
  split; [intros; rewrite infer_types_wire_item; reflexivity|].
  split; [intros; rewrite infer_types_wire_item; reflexivity|].
  split; [intros; eexists; rewrite infer_types_wire_item; reflexivity|].
  intros attr dtype x Hnot. rewrite infer_types_wire_item.
  unfold conversions_getitem. rewrite (conversions_unknown dtype Hnot). reflexivity.
Qed.

End InferTypes.

Lemma infer_types_wire_tags_witness :
  float_of_str "2.5" = Ok (F64.Fin false (5 * 2 ^ 1073))
  ∧ infer_types (wire_item "price" "N" (PStr "2.5"))
    = decoded "price" (PFloat (F64.Fin false (5 * 2 ^ 1073)))
  ∧ ("X" ∉ wire_tags)
  ∧ infer_types (wire_item "price" "X" (PStr "2.5")) = Raise (BuiltinError KeyError "X").
Proof.
  assert (Hf : float_of_str "2.5" = Ok (F64.Fin false (5 * 2 ^ 1073)))
    by (vm_compute; reflexivity).
  assert (HX : "X" ∉ wire_tags).
  { unfold wire_tags. intros Hin.
    repeat (apply elem_of_cons in Hin as [Hin|Hin]; [discriminate|]).
    inversion Hin. }
  split; [exact Hf|]. split; [|split; [exact HX|]].
  - exact (proj1 infer_types_wire_tags "price" "2.5" false (5 * 2 ^ 1073) Hf).
  - exact (proj2 (proj2 (proj2 (proj2 (proj2 (proj2 (proj2 (proj2
             infer_types_wire_tags))))))) "price" "X" (PStr "2.5") HX).
Defined.

(** C4 (counterexample).  The numeral 9007199254740993.5 has a fractional
    part, yet [infer_types] decodes it to an integer, 9007199254740994: the
    nearest double has none.  And on the documented tag [N] the function
    is not total: a payload that is no numeral makes it raise. *)
Lemma infer_types_N_fraction_lost :
  FloatLiteral.read "9007199254740993.5"
  = Some (FloatLiteral.LDec false 90071992547409935 (-1))
  ∧ 90071992547409935 mod 10 ≠ 0
  ∧ infer_types (wire_item "a" "N" (PStr "9007199254740993.5"))
    = decoded "a" (PInt 9007199254740994)
  ∧ infer_types (wire_item "a" "N" (PStr "abc"))
    = Raise (BuiltinError ValueError "could not convert string to float").
Proof. vm_compute. repeat split; try reflexivity. discriminate. Qed.

(** An integral numeral beyond 53 bits decodes to an integer, but to the
    double's, not to its own. *)
Example infer_types_N_big_integer :
  infer_types (wire_item "a" "N" (PStr "9007199254740993"))
  = decoded "a" (PInt 9007199254740992).
Proof. vm_compute. reflexivity. Qed.

(** C5 (counterexample).  ["tRue"] is the token "true" up to case, and
    [infer_types] decodes [{"BOOL": "tRue"}] to false. *)
Lemma infer_types_BOOL_mixed_case :
  casefold "tRue" = "true"
  ∧ infer_types (wire_item "a" "BOOL" (PStr "tRue")) = decoded "a" (PBool false).
Proof. vm_compute. split; reflexivity. Qed.

(** * Further properties of the operations *)

(** ** Construction and key resolution *)

Section Keys.
Context `{PyRuntime}.
Context {W Client : Type} `{Backend W Client}.

#[local] Abbreviation state := (@state W Client).
#[local] Abbreviation M := (@M W Client).

(** X1.  On a handle built by the constructor, key resolution never fails
    for want of the [sort_key] attribute: the handle has a sort-key name
    exactly when its key schema has two components; without one the key
    is the partition field alone, whatever sort-key value is passed; with
    one, a sort-key value of [None] raises [MissingParameter] and any
    other value is put under the sort-key name. *)
Theorem constructed_handle_resolves_keys (c : Client) (table_name : string)
    (verbose debug : pyval) (w w' : W) (h : Handle Client)
    (objects : gmap loc dict) (store : W) (pk_value sk_value : pyval) :
  init c table_name verbose debug w = (Ok h, w') →
  let s := {| st_self := h; st_heap := objects; st_store := store |} in
  (is_Some (sort_key h) ↔ length (key_schema h) = 2%nat)
  ∧ define_key_args pk_value sk_value s
    = match sort_key h with
      | None => (Ok [("Key", PDict [(partition_key h, pk_value)])], s)
      | Some sk =>
          if eq_None sk_value then (Raise sort_key_missing, s)
          else (Ok [("Key", PDict (dict_set sk sk_value
                                     [(partition_key h, pk_value)]))], s)
      end.
Proof.
  unfold init.
  destruct (Table_key_schema _ w) as [[ks|e] w0]; [|discriminate].
  destruct ks as [|pk rest]; [discriminate|].
  intros [= <- <-].
  unfold define_key_args, mbind, M_bind, self, lift, raise, mret, M_ret,
    getattr_sort_key.
  destruct rest as [|sk [|x rest]]; cbn -[dict_set].
  - split; [|reflexivity]. split; [intros [? [=]] | discriminate].
  - split; [split; eauto|]. destruct (eq_None sk_value); reflexivity.
  - split; [|reflexivity]. split; [intros [? [=]] | discriminate].
Qed.

(** X2.  Key resolution has no side effect: whether it returns or raises,
    the single-key and the batch resolver leave the handle, the caller's
    objects and the store as they find them. *)
Theorem key_resolution_is_pure (s : state) :
  (∀ pk_value sk_value, (define_key_args pk_value sk_value s).2 = s)
  ∧ (∀ pk_list sk_list, (define_list_key_args pk_list sk_list s).2 = s).
Proof.
  split.
  - intros pk sk.
    unfold define_key_args, mbind, M_bind, self, lift, raise, mret, M_ret.
    cbn -[dict_set].
    destruct (Nat.eqb _ 2); [|reflexivity].
    destruct (eq_None sk); [reflexivity|].
    destruct (getattr_sort_key _); reflexivity.
  - intros pks sks.
    unfold define_list_key_args, mbind, M_bind, self, lift, raise, mret, M_ret.
    cbn -[zip_keys].
    destruct (Nat.eqb _ 2); [|reflexivity].
    destruct sks as [sks|]; [|reflexivity].
    destruct (negb _); [reflexivity|].
    destruct (getattr_sort_key _); reflexivity.
Qed.

Lemma zip_keys_length pk sk (pks sks : list pyval) :
  length sks = length pks → length (zip_keys pk sk pks sks) = length pks.
Proof.
  revert sks. induction pks as [|p pks IH]; intros [|q sks] Hlen;
    simpl in *; try discriminate; [reflexivity|].
  f_equal. apply IH. lia.
Qed.

Lemma zip_keys_lookup pk sk (pks sks : list pyval) (i : nat) pkv skv :
  pks !! i = Some pkv → sks !! i = Some skv →
  zip_keys pk sk pks sks !! i = Some (PDict (dict_set sk skv [(pk, pkv)])).
Proof.
  revert sks i. induction pks as [|p pks IH]; intros [|q sks] [|i] Hp Hs;
    simpl in *; try discriminate.
  - injection Hp as ->. injection Hs as ->. reflexivity.
  - now apply IH.
Qed.

(** X3.  On a composite-key table the batch resolver pairs the two lists
    by position: for lists of equal length it asks for as many keys as
    there are partition values, and the i-th key holds the i-th partition
    value and the i-th sort value. *)
Theorem define_list_key_args_pairs (s : state) (sk : string)
    (pk_list sk_list : list pyval) :
  length (key_schema (st_self s)) = 2%nat →
  sort_key (st_self s) = Some sk →
  partition_key (st_self s) ≠ sk →
  length sk_list = length pk_list →
  ∃ Keys,
    define_list_key_args pk_list (Some sk_list) s
    = (Ok [("RequestItems",
            PDict [(name (table (st_self s)), PDict [("Keys", PList Keys)])])], s)
    ∧ length Keys = length pk_list
    ∧ ∀ (i : nat) pkv skv,
        pk_list !! i = Some pkv → sk_list !! i = Some skv →
        Keys !! i = Some (PDict [(partition_key (st_self s), pkv); (sk, skv)]).
Proof.
  intros Hlen Hsk Hne Hl.
  exists (zip_keys (partition_key (st_self s)) sk pk_list sk_list).
  split; [|split].
  - unfold define_list_key_args, mbind, M_bind, self, lift, raise, mret, M_ret,
      getattr_sort_key.
    cbn -[zip_keys]. rewrite Hlen, Hl, Hsk. simpl. rewrite Nat.eqb_refl. reflexivity.
  - now apply zip_keys_length.
  - intros i pkv skv Hp Hs. rewrite (zip_keys_lookup _ _ _ _ i pkv skv Hp Hs).
    simpl. destruct (String.eqb_spec sk (partition_key (st_self s))); congruence.
Qed.

(** X4.  On a composite-key table [batch_get_by_key] refuses lists of
    different lengths with [ValueError], and a missing sort-key list with
    [TypeError], before anything is asked of the store: the state is as
    before the call. *)
Theorem batch_get_by_key_uneven_lists (s : state)
    (pk_list : list pyval) (AttributesToGet : pyval) :
  length (key_schema (st_self s)) = 2%nat →
  (∀ sk_list, length sk_list ≠ length pk_list →
     batch_get_by_key pk_list (Some sk_list) AttributesToGet s
     = (Raise (BuiltinError ValueError
                 "The number of primary keys and sort keys must be the same"), s))
  ∧ batch_get_by_key pk_list None AttributesToGet s
    = (Raise (BuiltinError TypeError "object of type 'NoneType' has no len()"), s).
Proof.
  intros Hlen. split.
  - intros sk_list Hne. unfold batch_get_by_key. apply bind_raise.
    unfold define_list_key_args, mbind, M_bind, self, raise. cbn -[zip_keys].
    rewrite Hlen. simpl.
    destruct (Nat.eqb_spec (length sk_list) (length pk_list)); [contradiction|].
    reflexivity.
  - unfold batch_get_by_key. apply bind_raise.
    unfold define_list_key_args, mbind, M_bind, self, raise. cbn.
    rewrite Hlen. reflexivity.
Qed.

(** X5.  A batch of one resolves to the key of the single resolver:
    whenever [define_key_args] returns a key for a partition and a sort
    value, [define_list_key_args] on the two one-element lists asks for
    exactly that key. *)
Theorem singleton_batch_key (s : state) (pk_value sk_value : pyval) (Key : dict) :
  define_key_args pk_value sk_value s = (Ok [("Key", PDict Key)], s) →
  define_list_key_args [pk_value] (Some [sk_value]) s
  = (Ok [("RequestItems",
          PDict [(name (table (st_self s)),
                  PDict [("Keys", PList [PDict Key])])])], s).
Proof.
  unfold define_key_args, define_list_key_args, mbind, M_bind, self, lift,
    raise, mret, M_ret.
  cbn -[dict_set].
  destruct (Nat.eqb _ 2).
  - destruct (eq_None sk_value); [discriminate|].
    destruct (getattr_sort_key _) as [sk|e]; [|discriminate].
    intros [= <-]. reflexivity.
  - intros [= <-]. reflexivity.
Qed.

End Keys.

Lemma constructed_handle_resolves_keys_witness :
  let s := MemStore.state_of MemStore.composite_handle (MemStore.composite [] []) ∅ in
  (is_Some (sort_key MemStore.composite_handle)
   ↔ length (key_schema MemStore.composite_handle) = 2%nat)
  ∧ define_key_args (PStr "m1") (PInt 7) s
    = (Ok [("Key", PDict [("id", PStr "m1"); ("ts", PInt 7)])], s).
Proof.
  intros s.
  exact (constructed_handle_resolves_keys tt "movies" (PBool false) (PBool false)
           (MemStore.composite [] []) (MemStore.composite [] [])
           MemStore.composite_handle ∅ (MemStore.composite [] [])
           (PStr "m1") (PInt 7) eq_refl).
Defined.

Lemma define_list_key_args_pairs_witness :
  let s := MemStore.state_of MemStore.composite_handle (MemStore.composite [] []) ∅ in
  ∃ Keys,
    define_list_key_args [PStr "m1"; PStr "m2"] (Some [PInt 1; PInt 2]) s
    = (Ok [("RequestItems", PDict [("movies", PDict [("Keys", PList Keys)])])], s)
    ∧ length Keys = 2%nat
    ∧ ∀ (i : nat) pkv skv,
        [PStr "m1"; PStr "m2"] !! i = Some pkv → [PInt 1; PInt 2] !! i = Some skv →
        Keys !! i = Some (PDict [("id", pkv); ("ts", skv)]).
Proof.
  intros s.
  apply (define_list_key_args_pairs s "ts" [PStr "m1"; PStr "m2"] [PInt 1; PInt 2]).
  - reflexivity.
  - reflexivity.
  - discriminate.
  - reflexivity.
Defined.

Lemma batch_get_by_key_uneven_lists_witness :
  let s := MemStore.state_of MemStore.composite_handle (MemStore.composite [] []) ∅ in
  batch_get_by_key [PStr "m1"; PStr "m2"] (Some [PInt 1]) (PList []) s
  = (Raise (BuiltinError ValueError
              "The number of primary keys and sort keys must be the same"), s).
Proof.
  intros s.
  apply (proj1 (batch_get_by_key_uneven_lists s [PStr "m1"; PStr "m2"] (PList [])
                  eq_refl) [PInt 1]).
  discriminate.
Defined.

Lemma singleton_batch_key_witness :
  let s := MemStore.state_of MemStore.composite_handle (MemStore.composite [] []) ∅ in
  define_list_key_args [PStr "m1"] (Some [PInt 7]) s
  = (Ok [("RequestItems",
          PDict [("movies",
                  PDict [("Keys", PList [PDict [("id", PStr "m1"); ("ts", PInt 7)]])])])],
     s).
Proof.
  intros s.
  exact (singleton_batch_key s (PStr "m1") (PInt 7)
           [("id", PStr "m1"); ("ts", PInt 7)] eq_refl).
Defined.

(** ** The caller's objects *)

Section HeapFrame.
Context `{PyRuntime}.
Context {W Client : Type} `{Backend W Client}.

#[local] Abbreviation state := (@state W Client).
#[local] Abbreviation M := (@M W Client).
#[local] Abbreviation keeps m := (keeps_heap (W := W) (Client := Client) m).
#[local] Abbreviation only l m := (changes_only (W := W) (Client := Client) l m).

Lemma keeps_heap_ret {A : Type} (a : A) : keeps (mret a).
Proof. intros s. reflexivity. Qed.

Lemma keeps_heap_bind {A B : Type} (m : M A) (f : A → M B) :
  keeps m → (∀ a, keeps (f a)) → keeps (m ≫= f).
Proof.
  intros Hm Hf s. unfold mbind, M_bind. specialize (Hm s).
  destruct (m s) as [[a|e] s']; simpl in *; [|exact Hm].
  rewrite Hf. exact Hm.
Qed.

Lemma keeps_heap_raise {A : Type} e : keeps (raise (A := A) e).
Proof. intros s. reflexivity. Qed.

Lemma keeps_heap_lift {A : Type} (r : result A) : keeps (lift r).
Proof. intros s. reflexivity. Qed.

Lemma keeps_heap_self : keeps self.
Proof. intros s. reflexivity. Qed.

Lemma keeps_heap_set_self h : keeps (set_self h).
Proof. intros s. reflexivity. Qed.

Lemma keeps_heap_call {A : Type} (f : W → result A * W) : keeps (call f).
Proof. intros s. unfold call. destruct (f (st_store s)). reflexivity. Qed.

Lemma keeps_heap_except_ClientError {A : Type} (m : M A) handler :
  keeps m → (∀ e, keeps (handler e)) → keeps (except_ClientError m handler).
Proof.
  intros Hm Hh s. unfold except_ClientError. specialize (Hm s).
  destruct (m s) as [[a|e] s']; simpl in *; [exact Hm|].
  destruct e; simpl; try exact Hm. rewrite Hh. exact Hm.
Qed.

Lemma keeps_heap_except_KeyError {A : Type} (m handler : M A) :
  keeps m → keeps handler → keeps (except_KeyError m handler).
Proof.
  intros Hm Hh s. unfold except_KeyError. specialize (Hm s).
  destruct (m s) as [[a|e] s']; simpl in *; [exact Hm|].
  destruct e as [| cls msg | |]; simpl; try exact Hm.
  destruct cls; simpl; try exact Hm. rewrite Hh. exact Hm.
Qed.

Ltac heap_frame :=
  repeat first
    [ apply keeps_heap_ret | apply keeps_heap_raise | apply keeps_heap_lift
    | apply keeps_heap_self | apply keeps_heap_set_self | apply keeps_heap_call
    | match goal with Hk : _ |- _ => apply Hk end
    | apply keeps_heap_bind; [|intros]
    | apply keeps_heap_except_ClientError; [|intros]
    | apply keeps_heap_except_KeyError
    | case_match ].

Lemma keeps_heap_define_key_args pk sk : keeps (define_key_args pk sk).
Proof. unfold define_key_args. heap_frame. Qed.

Lemma keeps_heap_define_list_key_args pks sks :
  keeps (define_list_key_args pks sks).
Proof. unfold define_list_key_args. heap_frame. Qed.

(** X6.  No operation but [add_item] writes to an object of the caller:
    reads, queries, scans, updates and deletes leave every dictionary the
    caller holds as it was, whether they return or raise. *)
Theorem only_add_item_writes_objects :
  (∀ pk sk a, keeps (get_by_keys pk sk a))
  ∧ (∀ pks sks a, keeps (batch_get_by_key pks sks a))
  ∧ (∀ type kwargs, keeps (query_table type kwargs))
  ∧ (∀ kwargs, keeps (scan_table kwargs))
  ∧ (∀ pk sk n v kwargs, keeps (update_item pk sk n v kwargs))
  ∧ (∀ pk sk kwargs, keeps (dump_item pk sk kwargs)).
Proof.
  pose proof keeps_heap_define_key_args.
  pose proof keeps_heap_define_list_key_args.
  repeat split; intros.
  - unfold get_by_keys. heap_frame.
  - unfold batch_get_by_key. heap_frame.
  - unfold query_table. heap_frame.
  - unfold scan_table. heap_frame.
  - unfold update_item. heap_frame.
  - unfold dump_item. heap_frame.
Qed.

Lemma changes_only_keeps {A : Type} l (m : M A) : keeps m → only l m.
Proof. intros Hm s l' _. now rewrite Hm. Qed.

Lemma changes_only_bind {A B : Type} l (m : M A) (f : A → M B) :
  only l m → (∀ a, only l (f a)) → only l (m ≫= f).
Proof.
  intros Hm Hf s l' Hne. unfold mbind, M_bind. specialize (Hm s l' Hne).
  destruct (m s) as [[a|e] s']; simpl in *; [|exact Hm].
  rewrite (Hf a s' l' Hne). exact Hm.
Qed.

Lemma changes_only_bind_ok {A B : Type} l (m : M A) (f : A → M B) :
  only l m → (∀ (s : state) a s', m s = (Ok a, s') → only l (f a)) →
  only l (m ≫= f).
Proof.
  intros Hm Hf s l' Hne. unfold mbind, M_bind. specialize (Hm s l' Hne).
  destruct (m s) as [[a|e] s'] eqn:Hrun; simpl in *; [|exact Hm].
  rewrite (Hf s a s' Hrun s' l' Hne). exact Hm.
Qed.

Lemma changes_only_on_object {A : Type} l (f : dict → result A * dict) :
  only l (on_object l f).
Proof.
  intros s l' Hne. unfold on_object.
  destruct (st_heap s !! l) as [d|]; [|reflexivity].
  destruct (f d). simpl. now apply lookup_insert_ne.
Qed.

Lemma changes_only_merge_keys l entries : only l (merge_keys l entries).
Proof.
  induction entries as [|[k v] entries IH]; simpl.
  - apply changes_only_keeps, keeps_heap_ret.
  - apply changes_only_bind; [apply changes_only_on_object | intros; exact IH].
Qed.

(** X7.  [add_item] writes to no object but the item it is given: every
    other dictionary of the caller is, after the call, what it was before,
    whether the call returns or raises. *)
Theorem add_item_writes_only_its_item (s : state) pk sk (item other : loc) :
  other ≠ item →
  st_heap (add_item pk sk item s).2 !! other = st_heap s !! other.
Proof.
  intros Hne. revert s other Hne.
  change (changes_only (W := W) (Client := Client) item (add_item pk sk item)).
  unfold add_item.
  apply changes_only_bind;
    [apply changes_only_keeps, keeps_heap_define_key_args | intros key_args].
  apply changes_only_bind;
    [apply changes_only_keeps, keeps_heap_lift | intros Key].
  apply changes_only_bind; [apply changes_only_merge_keys | intros _].
  (* the name [item] is rebound to the reference it already holds *)
  apply changes_only_bind_ok.
  - apply changes_only_bind; [apply changes_only_on_object | intros _].
    apply changes_only_keeps, keeps_heap_ret.
  - intros s item' s' Hrun.
    assert (item' = item) as ->.
    { unfold mbind, M_bind, mret, M_ret in Hrun.
      destruct (on_object item _ s) as [[u|e] s1]; congruence. }
    apply changes_only_bind; [apply changes_only_keeps, keeps_heap_self | intros h].
    apply changes_only_bind; [apply changes_only_on_object | intros Item].
    apply changes_only_keeps. heap_frame.
Qed.

End HeapFrame.

Lemma add_item_writes_only_its_item_witness :
  let s := MemStore.state_of MemStore.simple_handle (MemStore.simple [] [])
             (<[2%positive := [("note", PBytes [Byte.x01])]]>
                {[1%positive := [("title", PStr "Alien")]]}) in
  st_heap (add_item (PStr "m1") PNone 1%positive s).2 !! 2%positive
  = Some [("note", PBytes [Byte.x01])].
Proof.
  intros s.
  rewrite (add_item_writes_only_its_item s (PStr "m1") PNone 1%positive 2%positive);
    [reflexivity | discriminate].
Defined.

(** ** Calls on the store *)

Section Calls.
Context `{PyRuntime}.
Context {W Client : Type} `{Backend W Client}.

#[local] Abbreviation RW := (W * list (store_call Client))%type.
#[local] Abbreviation state := (@state RW Client).
#[local] Abbreviation M := (@M RW Client).
#[local] Abbreviation quiet m := (no_call (W := W) (Client := Client) m).
#[local] Abbreviation single m := (at_most_one_call (W := W) (Client := Client) m).

Lemma no_call_ret {A : Type} (a : A) : quiet (mret a).
Proof. intros s. reflexivity. Qed.

Lemma no_call_raise {A : Type} e : quiet (raise (A := A) e).
Proof. intros s. reflexivity. Qed.

Lemma no_call_lift {A : Type} (r : result A) : quiet (lift r).
Proof. intros s. reflexivity. Qed.

Lemma no_call_self : quiet self.
Proof. intros s. reflexivity. Qed.

Lemma no_call_set_self h : quiet (set_self h).
Proof. intros s. reflexivity. Qed.

Lemma no_call_on_object {A : Type} l (f : dict → result A * dict) :
  quiet (on_object l f).
Proof.
  intros s. unfold on_object.
  destruct (st_heap s !! l) as [d|]; [|reflexivity]. destruct (f d). reflexivity.
Qed.

Lemma no_call_bind {A B : Type} (m : M A) (f : A → M B) :
  quiet m → (∀ a, quiet (f a)) → quiet (m ≫= f).
Proof.
  intros Hm Hf s. unfold mbind, M_bind. specialize (Hm s).
  destruct (m s) as [[a|e] s']; simpl in *; [|exact Hm].
  rewrite Hf. exact Hm.
Qed.

Lemma no_call_except_KeyError {A : Type} (m handler : M A) :
  quiet m → quiet handler → quiet (except_KeyError m handler).
Proof.
  intros Hm Hh s. unfold except_KeyError. specialize (Hm s).
  destruct (m s) as [[a|e] s']; simpl in *; [exact Hm|].
  destruct e as [| cls msg | |]; simpl; try exact Hm.
  destruct cls; simpl; try exact Hm. rewrite Hh. exact Hm.
Qed.

Lemma one_call_quiet {A : Type} (m : M A) : quiet m → single m.
Proof. intros Hm s. left. apply Hm. Qed.

Lemma one_call_recorded {A : Type} c (f : W → result A * W) :
  single (call (recorded c f)).
Proof.
  intros s. right. exists c. unfold call, recorded, calls.
  destruct (f (st_store s).1). reflexivity.
Qed.

Lemma quiet_then_one {A B : Type} (m : M A) (f : A → M B) :
  quiet m → (∀ a, single (f a)) → single (m ≫= f).
Proof.
  intros Hm Hf s. unfold mbind, M_bind. specialize (Hm s).
  destruct (m s) as [[a|e] s']; simpl in *; [|left; exact Hm].
  rewrite <- Hm. apply Hf.
Qed.

Lemma one_then_quiet {A B : Type} (m : M A) (f : A → M B) :
  single m → (∀ a, quiet (f a)) → single (m ≫= f).
Proof.
  intros Hm Hf s. unfold mbind, M_bind. specialize (Hm s).
  destruct (m s) as [[a|e] s']; simpl in *; [|exact Hm].
  specialize (Hf a s'). destruct Hm as [Hm|[c Hm]].
  - left. congruence.
  - right. exists c. congruence.
Qed.

Lemma one_call_except_ClientError {A : Type} (m : M A) handler :
  single m → (∀ e, quiet (handler e)) → single (except_ClientError m handler).
Proof.
  intros Hm Hh s. unfold except_ClientError. specialize (Hm s).
  destruct (m s) as [[a|e] s']; simpl in *; [exact Hm|].
  destruct e as [| | detail |]; simpl; try exact Hm.
  specialize (Hh detail s'). destruct Hm as [Hm|[c Hm]].
  - left. congruence.
  - right. exists c. congruence.
Qed.

Ltac hush :=
  solve [repeat first
    [ apply no_call_ret | apply no_call_raise | apply no_call_lift
    | apply no_call_self | apply no_call_set_self | apply no_call_on_object
    | match goal with Hk : _ |- _ => apply Hk end
    | apply no_call_bind; [|intros]
    | apply no_call_except_KeyError
    | case_match ]].

Ltac one_shot :=
  first
    [ solve [apply one_call_quiet; hush]
    | solve [apply one_call_recorded]
    | solve [apply one_call_except_ClientError; [one_shot | intros; hush]]
    | solve [apply quiet_then_one; [hush | intros; one_shot]]
    | solve [apply one_then_quiet; [one_shot | intros; hush]]
    | solve [case_match; one_shot] ].

Lemma no_call_define_key_args pk sk : quiet (define_key_args pk sk).
Proof. unfold define_key_args. hush. Qed.

Lemma no_call_define_list_key_args pks sks : quiet (define_list_key_args pks sks).
Proof. unfold define_list_key_args. hush. Qed.

Lemma no_call_merge_keys item entries : quiet (merge_keys item entries).
Proof. induction entries as [|[k v] entries IH]; simpl; hush. Qed.

(** X8.  Every public operation makes at most one call on the store,
    whatever store it runs against and whether it returns or raises:
    there is no retry, no second request and no read before a write. *)
Theorem operations_call_store_at_most_once :
  (∀ pk sk a, single (get_by_keys pk sk a))
  ∧ (∀ pks sks a, single (batch_get_by_key pks sks a))
  ∧ (∀ type kwargs, single (query_table type kwargs))
  ∧ (∀ kwargs, single (scan_table kwargs))
  ∧ (∀ pk sk item, single (add_item pk sk item))
  ∧ (∀ pk sk n v kwargs, single (update_item pk sk n v kwargs))
  ∧ (∀ pk sk kwargs, single (dump_item pk sk kwargs)).
Proof.
  pose proof no_call_define_key_args.
  pose proof no_call_define_list_key_args.
  pose proof no_call_merge_keys.
  repeat split; intros.
  - unfold get_by_keys. one_shot.
  - unfold batch_get_by_key. one_shot.
  - unfold query_table. one_shot.
  - unfold scan_table. one_shot.
  - unfold add_item. one_shot.
  - unfold update_item. one_shot.
  - unfold dump_item. one_shot.
Qed.

End Calls.

(** ** What is asked of the store *)

Section Requests.
Context `{PyRuntime}.
Context {W Client : Type} `{Backend W Client}.

#[local] Abbreviation RW := (W * list (store_call Client))%type.
#[local] Abbreviation state := (@state RW Client).
#[local] Abbreviation M := (@M RW Client).

(** X9.  [scan_table] asks the store for a scan without any argument:
    the keyword arguments it is given never reach the store, and two
    calls that differ only in them do the same. *)
Theorem scan_table_drops_arguments (s : state) (kwargs : dict) :
  calls (scan_table kwargs s).2 = calls s ++ [scan_call (table (st_self s)) []]
  ∧ ∀ kwargs', scan_table kwargs s = scan_table kwargs' s.
Proof.
  split; [|reflexivity].
  unfold scan_table, mbind, M_bind, self, set_self, call, lift, mret, M_ret,
    calls. simpl. unfold recorded.
  destruct (Table_scan _ _ _) as [[response|e] w']; simpl; [|reflexivity].
  destruct (HTTPStatusCode response); simpl; [|reflexivity].
  destruct (getitem response "Items"); reflexivity.
Qed.

(** X10.  [query_table] hands its keyword arguments to the store as they
    are: in mode ["PartiQL"] to the client's statement execution, in mode
    ["native"] to the table's query.  In any other mode it makes no call
    and raises [UnboundLocalError], leaving the state as it was. *)
Theorem query_table_dispatch (s : state) (type : string) (kwargs : dict) :
  (type = "PartiQL" →
     calls (query_table type kwargs s).2
     = calls s ++ [execute_statement_call (client (st_self s)) kwargs])
  ∧ (type = "native" →
       calls (query_table type kwargs s).2
       = calls s ++ [query_call (table (st_self s)) kwargs])
  ∧ (type ≠ "PartiQL" → type ≠ "native" →
       query_table type kwargs s
       = (Raise (BuiltinError UnboundLocalError
                   "cannot access local variable 'response'"), s)).
Proof.
  repeat split.
  - intros ->.
    unfold query_table, mbind, M_bind, self, call, lift, raise, mret, M_ret, calls.
    simpl. unfold recorded.
    destruct (Client_execute_statement _ _ _) as [[response|e] w']; simpl;
      [|reflexivity].
    destruct (HTTPStatusCode response); simpl; [|reflexivity].
    destruct (getitem response "Items"); reflexivity.
  - intros ->.
    unfold query_table, mbind, M_bind, self, call, lift, raise, mret, M_ret, calls.
    simpl. unfold recorded.
    destruct (Table_query _ _ _) as [[response|e] w']; simpl; [|reflexivity].
    destruct (getitem response "Count") as [Count|e]; simpl; [|reflexivity].
    destruct (eq_int Count 0); simpl; [reflexivity|].
    destruct (HTTPStatusCode response); simpl; [|reflexivity].
    destruct (getitem response "Items"); reflexivity.
  - intros H1 H2.
    unfold query_table, mbind, M_bind, self, raise. simpl.
    destruct (String.eqb_spec type "PartiQL"); [contradiction|].
    destruct (String.eqb_spec type "native"); [contradiction|].
    reflexivity.
Qed.

(** X11.  When the key resolves, [get_by_keys] asks the table for exactly
    one item: the request holds the key and, only when the list is not
    empty, the attributes to get. *)
Theorem get_by_keys_request (s : state) pk sk AttributesToGet (key_args : dict) :
  define_key_args pk sk s = (Ok key_args, s) →
  calls (get_by_keys pk sk AttributesToGet s).2
  = calls s ++ [get_item_call (table (st_self s))
                  (if truthy AttributesToGet
                   then dict_set "AttributesToGet" AttributesToGet key_args
                   else key_args)].
Proof.
  intros Hkey. unfold get_by_keys. rewrite (bind_ok _ _ s s _ Hkey).
  erewrite bind_ok by reflexivity.
  unfold mbind, M_bind, except_KeyError, call, lift, raise, mret, M_ret, calls.
  simpl. unfold recorded.
  destruct (Table_get_item _ _ _) as [[response|e] w']; simpl; [|reflexivity].
  destruct (HTTPStatusCode response); simpl; [|reflexivity].
  destruct (getitem response "Item") as [Item|e]; simpl.
  - destruct (items Item) as [d|e]; simpl.
    + destruct (convert_dtypes d "dynamo2native") as [[u|e] d']; simpl;
        [reflexivity|].
      destruct e as [|[] ?| |]; reflexivity.
    + destruct e as [|[] ?| |]; reflexivity.
  - destruct e as [|[] ?| |]; reflexivity.
Qed.

(** X12.  When the key resolves, the request of [update_item] has exactly
    five entries: the key, the [SET] expression for the attribute, the
    attribute value as it was given, and the two options [ReturnValues]
    and [ConditionExpression], each taken from the keyword arguments when
    present there.  No other keyword argument is forwarded. *)
Theorem update_item_request (s : state) pk sk attribute_name attribute_value
    (kwargs key_args : dict) :
  define_key_args pk sk s = (Ok key_args, s) →
  ∃ arguments,
    calls (update_item pk sk attribute_name attribute_value kwargs s).2
    = calls s ++ [update_item_call (table (st_self s)) arguments]
    ∧ keys arguments = ["Key"; "UpdateExpression"; "ExpressionAttributeValues";
                        "ReturnValues"; "ConditionExpression"]
    ∧ dict_get "Key" arguments = dict_get "Key" key_args
    ∧ dict_get "UpdateExpression" arguments
      = Some (PStr ("SET " +:+ py_str attribute_name +:+ " = :r"))
    ∧ dict_get "ExpressionAttributeValues" arguments
      = Some (PDict [(":r", attribute_value)])
    ∧ dict_get "ReturnValues" arguments
      = Some (dict_get_default kwargs "ReturnValues" (PStr "UPDATED_OLD"))
    ∧ dict_get "ConditionExpression" arguments
      = Some (dict_get_default kwargs "ConditionExpression"
                (PStr ("attribute_exists(" +:+ py_str attribute_name +:+ ")"))).
Proof.
  intros Hkey.
  destruct (define_key_args_shape _ _ _ _ _ Hkey) as (_ & Key & -> & _ & _).
  eexists. split.
  - unfold update_item. rewrite (bind_ok _ _ s s _ Hkey).
    erewrite bind_ok by reflexivity.
    unfold mbind, M_bind, except_ClientError, call, lift, raise, mret, M_ret, calls.
    simpl. unfold recorded.
    destruct (Table_update_item _ _ _) as [[response|e] w']; simpl.
    + repeat (case_match; simpl; try reflexivity).
    + destruct e; reflexivity.
  - repeat split.
Qed.

(** X13.  When the key resolves, [dump_item] asks the table to delete
    exactly that key, forwarding none of its keyword arguments, and
    reports success exactly when the status code of the answer is 200; a
    different status is reported, not raised. *)
Theorem dump_item_request_and_flag (s : state) pk sk (kwargs key_args : dict) :
  define_key_args pk sk s = (Ok key_args, s) →
  calls (dump_item pk sk kwargs s).2
  = calls s ++ [delete_item_call (table (st_self s)) key_args]
  ∧ ∀ response w' statusCode,
      Table_delete_item (table (st_self s)) key_args (st_store s)
      = (Ok response, w') →
      HTTPStatusCode response = Ok statusCode →
      dump_item pk sk kwargs s
      = (Ok (eq_int statusCode 200, statusCode), with_store s w').
Proof.
  intros Hkey. split.
  - unfold dump_item. rewrite (bind_ok _ _ s s _ Hkey).
    erewrite bind_ok by reflexivity.
    unfold mbind, M_bind, call, lift, mret, M_ret, calls. simpl. unfold recorded.
    destruct (Table_delete_item _ _ _) as [[response|e] w']; simpl; [|reflexivity].
    destruct (HTTPStatusCode response); reflexivity.
  - intros response w' statusCode Hdel Hstatus.
    unfold dump_item. rewrite (bind_ok _ _ s s _ Hkey).
    erewrite bind_ok by reflexivity.
    erewrite bind_ok; [|unfold call; rewrite Hdel; reflexivity].
    erewrite bind_ok; [|unfold lift; rewrite Hstatus; reflexivity].
    unfold mret, M_ret. destruct (eq_int statusCode 200); reflexivity.
Qed.

End Requests.

Lemma query_table_dispatch_witness :
  let s := recording MemStore.simple_handle (MemStore.simple [] []) in
  query_table "sql" [("Statement", PStr "SELECT * FROM movies")] s
  = (Raise (BuiltinError UnboundLocalError
              "cannot access local variable 'response'"), s).
Proof.
  intros s.
  apply (proj2 (proj2 (query_table_dispatch s "sql"
                         [("Statement", PStr "SELECT * FROM movies")])));
    discriminate.
Defined.

Lemma get_by_keys_request_witness :
  let s := recording MemStore.simple_handle (MemStore.simple [] []) in
  calls (get_by_keys (PStr "m1") PNone (PList [PStr "title"]) s).2
  = [get_item_call {| name := "movies" |}
       [("Key", PDict [("id", PStr "m1")]);
        ("AttributesToGet", PList [PStr "title"])]].
Proof.
  intros s.
  exact (get_by_keys_request s (PStr "m1") PNone (PList [PStr "title"])
           [("Key", PDict [("id", PStr "m1")])] eq_refl).
Defined.

Lemma update_item_request_witness :
  let s := recording MemStore.simple_handle
             (MemStore.simple [[("id", PStr "m1"); ("title", PStr "Alien")]] []) in
  ∃ arguments,
    calls (update_item (PStr "m1") PNone (PStr "title") (PStr "Aliens")
             [("ReturnValues", PStr "ALL_NEW"); ("ReturnConsumedCapacity", PStr "TOTAL")]
             s).2
    = [update_item_call {| name := "movies" |} arguments]
    ∧ dict_get "ReturnValues" arguments = Some (PStr "ALL_NEW")
    ∧ dict_get "ReturnConsumedCapacity" arguments = None.
Proof.
  intros s.
  destruct (update_item_request s (PStr "m1") PNone (PStr "title") (PStr "Aliens")
              [("ReturnValues", PStr "ALL_NEW"); ("ReturnConsumedCapacity", PStr "TOTAL")]
              [("Key", PDict [("id", PStr "m1")])] eq_refl)
    as (arguments & Hcalls & Hkeys & _ & _ & _ & Hret & _).
  exists arguments. split; [exact Hcalls|]. split; [exact Hret|].
  destruct (dict_get "ReturnConsumedCapacity" arguments) as [v|] eqn:Hget;
    [|reflexivity].
  assert (Hin : dict_mem "ReturnConsumedCapacity" arguments = true)
    by (unfold dict_mem; now rewrite Hget).
  apply dict_mem_keys in Hin. rewrite Hkeys in Hin.
  repeat (apply elem_of_cons in Hin as [Hin|Hin]; [discriminate|]).
  inversion Hin.
Defined.

Lemma dump_item_request_and_flag_witness :
  let s := recording MemStore.simple_handle
             (MemStore.simple [[("id", PStr "m1")]] []) in
  calls (dump_item (PStr "m1") PNone [] s).2
  = [delete_item_call {| name := "movies" |} [("Key", PDict [("id", PStr "m1")])]]
  ∧ (dump_item (PStr "m1") PNone [] s).1 = Ok (true, PInt 200).
Proof.
  intros s.
  destruct (dump_item_request_and_flag s (PStr "m1") PNone []
              [("Key", PDict [("id", PStr "m1")])] eq_refl) as [Hcalls Hflag].
  split; [exact Hcalls|].
  rewrite (Hflag (MemStore.response []) (MemStore.simple [] [], calls s ++
             [delete_item_call {| name := "movies" |}
                [("Key", PDict [("id", PStr "m1")])]]) (PInt 200) eq_refl eq_refl).
  reflexivity.
Defined.

(** ** What the operations answer *)

Section Outcomes.
Context `{PyRuntime}.
Context {W Client : Type} `{Backend W Client}.

#[local] Abbreviation state := (@state W Client).
#[local] Abbreviation M := (@M W Client).

(** X14.  When the key resolves and the store answers without an item,
    [get_by_keys] raises [NotFoundError], code 404, whose message names the
    partition and the sort value as [str] prints them. *)
Theorem get_by_keys_not_found (s : state) pk sk AttributesToGet
    (key_args : dict) response w' statusCode :
  define_key_args pk sk s = (Ok key_args, s) →
  Table_get_item (table (st_self s))
    (if truthy AttributesToGet
     then dict_set "AttributesToGet" AttributesToGet key_args else key_args)
    (st_store s) = (Ok response, w') →
  HTTPStatusCode response = Ok statusCode →
  getitem response "Item" = Raise (BuiltinError KeyError "Item") →
  get_by_keys pk sk AttributesToGet s
  = (Raise (ApiError cNotFoundError 404
              ("404:Item " +:+ py_str pk +:+ py_str sk +:+ " was not found")),
     with_store s w').
Proof.
  intros Hkey Hget Hstatus HItem.
  unfold get_by_keys. rewrite (bind_ok _ _ s s _ Hkey).
  erewrite bind_ok by reflexivity.
  erewrite bind_ok; [|unfold call; rewrite Hget; reflexivity].
  erewrite bind_ok; [|unfold lift; rewrite Hstatus; reflexivity].
  erewrite bind_raise; [reflexivity|].
  unfold except_KeyError.
  erewrite bind_raise; [|unfold lift; rewrite HItem; reflexivity].
  reflexivity.
Qed.

(** X15.  Only the native mode of [query_table] treats an empty result as
    an error.  For an answer of the store with a status and items: in mode
    ["native"] a count of zero raises [NotFoundError] and any other count
    returns the items; in mode ["PartiQL"] the items are returned whatever
    they are.  The items are returned as the store gave them. *)
Theorem query_table_empty_result (s : state) (kwargs : dict)
    response w' statusCode Items :
  HTTPStatusCode response = Ok statusCode →
  getitem response "Items" = Ok Items →
  (∀ Count,
     Table_query (table (st_self s)) kwargs (st_store s) = (Ok response, w') →
     getitem response "Count" = Ok Count →
     query_table "native" kwargs s
     = if eq_int Count 0
       then (Raise (NotFoundError "None of the given keys were found"),
             with_store s w')
       else (Ok ([("data", Items)], statusCode), with_store s w'))
  ∧ (Client_execute_statement (client (st_self s)) kwargs (st_store s)
     = (Ok response, w') →
     query_table "PartiQL" kwargs s
     = (Ok ([("data", Items)], statusCode), with_store s w')).
Proof.
  intros Hstatus HItems. split.
  - intros Count Hq HCount. unfold query_table.
    erewrite bind_ok by reflexivity. simpl.
    destruct (eq_int Count 0) eqn:Hzero.
    + erewrite bind_raise; [reflexivity|].
      erewrite bind_ok; [|unfold call; rewrite Hq; reflexivity].
      erewrite bind_ok; [|unfold lift; rewrite HCount; reflexivity].
      rewrite Hzero. reflexivity.
    + erewrite bind_ok.
      2:{ erewrite bind_ok; [|unfold call; rewrite Hq; reflexivity].
          erewrite bind_ok; [|unfold lift; rewrite HCount; reflexivity].
          rewrite Hzero. reflexivity. }
      erewrite bind_ok; [|unfold lift; rewrite Hstatus; reflexivity].
      erewrite bind_ok; [|unfold lift; rewrite HItems; reflexivity].
      reflexivity.
  - intros Hq. unfold query_table.
    erewrite bind_ok by reflexivity. simpl.
    erewrite bind_ok; [|unfold call; rewrite Hq; reflexivity].
    erewrite bind_ok; [|unfold lift; rewrite Hstatus; reflexivity].
    erewrite bind_ok; [|unfold lift; rewrite HItems; reflexivity].
    reflexivity.
Qed.

(** X16.  When the store answers a batch request with items that decode
    to a non-empty list and leaves no key unprocessed, the payload of
    [batch_get_by_key] is the decoded items under [data] and nothing
    else: there is no [error] entry. *)
Theorem batch_get_by_key_all_processed (s : state) pk_list sk_list AttributesToGet
    (request0 request : dict) response w' statusCode raw data UnprocessedKeys :
  define_list_key_args pk_list sk_list s = (Ok request0, s) →
  (if truthy AttributesToGet
   then setitem3 request0 "RequestItems" (name (table (st_self s)))
          "AttributesToGet" AttributesToGet
   else Ok request0) = Ok request →
  Client_batch_get_item (client (st_self s)) request (st_store s)
  = (Ok response, w') →
  HTTPStatusCode response = Ok statusCode →
  (Responses ← getitem response "Responses";
   getitem Responses (name (table (st_self s)))) = Ok raw →
  infer_types raw = Ok data →
  data ≠ PList [] →
  getitem response "UnprocessedKeys" = Ok UnprocessedKeys →
  truthy UnprocessedKeys = false →
  batch_get_by_key pk_list sk_list AttributesToGet s
  = (Ok ([("data", data)], statusCode), with_store s w').
Proof.
  intros Hreq0 Hreq Hcall Hstatus Hraw Hdata Hne HU Hfalsy.
  destruct (infer_types_list _ _ Hdata) as [l ->].
  destruct l as [|item l]; [congruence|].
  unfold batch_get_by_key. rewrite (bind_ok _ _ s s _ Hreq0).
  erewrite bind_ok by reflexivity.
  erewrite (bind_ok _ _ s s request).
  2:{ destruct (truthy AttributesToGet);
        [unfold lift; rewrite Hreq; reflexivity | now injection Hreq as ->]. }
  erewrite bind_ok; [|unfold call; rewrite Hcall; reflexivity].
  erewrite bind_ok; [|unfold lift; rewrite Hstatus; reflexivity].
  erewrite bind_ok; [|unfold lift; rewrite Hraw; reflexivity].
  erewrite bind_ok; [|unfold lift; rewrite Hdata; reflexivity].
  simpl.
  erewrite bind_ok; [|unfold lift; rewrite HU; reflexivity].
  rewrite Hfalsy. reflexivity.
Qed.

(** X17.  When the item holds no byte sequence and the store answers the
    write, [add_item] returns the status code of the answer with a flag
    that is true exactly when that code is 200: another status is
    reported, not raised. *)
Theorem add_item_reports_status (s : state) pk sk (l : loc)
    (d key_args Key : dict) response w' statusCode :
  st_heap s !! l = Some d →
  NoDup (keys d) →
  define_key_args pk sk s = (Ok key_args, s) →
  dict_get "Key" key_args = Some (PDict Key) →
  has_bytes (merge_into d Key) = false →
  Table_put_item (table (st_self s))
    [("Item", PDict (map (λ kv, (kv.1, write_value kv.2)) (merge_into d Key)))]
    (st_store s) = (Ok response, w') →
  HTTPStatusCode response = Ok statusCode →
  (add_item pk sk l s).1 = Ok (eq_int statusCode 200, statusCode)
  ∧ st_store (add_item pk sk l s).2 = w'.
Proof.
  intros Hl Hnd Hkey HKey Hb Hput Hstatus.
  pose proof (add_item_run s pk sk l d key_args Key Hl Hnd Hkey HKey) as Hrun.
  cbv zeta in Hrun. rewrite Hb in Hrun. rewrite Hrun.
  erewrite bind_ok; [|unfold call; simpl; rewrite Hput; reflexivity].
  erewrite bind_ok; [|unfold lift; rewrite Hstatus; reflexivity].
  unfold mret, M_ret. simpl. destruct (eq_int statusCode 200); split; reflexivity.
Qed.

(** X18.  [add_item] changes the caller's dictionary where it lies, and
    does so before the store is asked: when the item holds no byte
    sequence, the dictionary holds after the call the key fields merged in
    and every float replaced by its exact decimal, whatever the store
    answers, also when the write fails. *)
Theorem add_item_updates_item_in_place (s : state) pk sk (l : loc)
    (d key_args Key : dict) :
  st_heap s !! l = Some d →
  NoDup (keys d) →
  define_key_args pk sk s = (Ok key_args, s) →
  dict_get "Key" key_args = Some (PDict Key) →
  has_bytes (merge_into d Key) = false →
  st_heap (add_item pk sk l s).2 !! l
  = Some (map (λ kv, (kv.1, write_value kv.2)) (merge_into d Key)).
Proof. apply add_item_in_place. Qed.

(** X19.  What [update_item] answers, called without options, when the
    store accepts the request: if the answer carries [Attributes], they
    are returned under [data] with the message of the mode [UPDATED_OLD];
    if it carries none, the payload is the message ["Item was updated"]
    alone. *)
Theorem update_item_answers (s : state) pk sk (attribute_name : string)
    attribute_value (key_args : dict) (answer : dict) w' statusCode :
  define_key_args pk sk s = (Ok key_args, s) →
  Table_update_item (table (st_self s))
    (default_update_arguments key_args attribute_name attribute_value)
    (st_store s) = (Ok (PDict answer), w') →
  HTTPStatusCode (PDict answer) = Ok statusCode →
  update_item pk sk (PStr attribute_name) attribute_value [] s
  = (Ok (match dict_get "Attributes" answer with
         | Some Attributes =>
             [("data", Attributes);
              ("message", PStr "Returned only updated old item")]
         | None => [("message", PStr "Item was updated")]
         end, statusCode),
     with_store s w').
Proof.
  intros Hkey Hupd Hstatus.
  destruct (define_key_args_shape _ _ _ _ _ Hkey) as (_ & Key & -> & _ & _).
  unfold update_item. rewrite (bind_ok _ _ s s _ Hkey).
  erewrite bind_ok by reflexivity.
  assert (Hc : except_ClientError
                 (call (Table_update_item (table (st_self s))
                          (default_update_arguments [("Key", PDict Key)]
                             attribute_name attribute_value)))
                 (λ _, raise (InvalidParameter
                                "Check that the attribute value is not empty")) s
               = (Ok (PDict answer), with_store s w')).
  { unfold except_ClientError, call. rewrite Hupd. reflexivity. }
  erewrite bind_ok; [|exact Hc].
  erewrite bind_ok; [|unfold lift; rewrite Hstatus; reflexivity].
  erewrite bind_ok by reflexivity.
  unfold dict_mem, getitem.
  destruct (dict_get "Attributes" answer) as [Attributes|]; reflexivity.
Qed.


End Outcomes.

Lemma get_by_keys_not_found_witness :
  let s := MemStore.state_of MemStore.simple_handle (MemStore.simple [] []) ∅ in
  get_by_keys (PStr "m1") PNone (PList []) s
  = (Raise (ApiError cNotFoundError 404 "404:Item m1None was not found"), s).
Proof.
  intros s.
  exact (get_by_keys_not_found s (PStr "m1") PNone (PList [])
           [("Key", PDict [("id", PStr "m1")])] (MemStore.response [])
           (MemStore.simple [] []) (PInt 200) eq_refl eq_refl eq_refl eq_refl).
Defined.

Lemma query_table_empty_result_witness :
  let s := MemStore.state_of MemStore.simple_handle (MemStore.simple [] []) ∅ in
  query_table "native" [] s
  = (Raise (ApiError cNotFoundError 404 "404:None of the given keys were found"), s).
Proof.
  intros s.
  exact (proj1 (query_table_empty_result s []
                  (MemStore.response [("Items", PList []); ("Count", PInt 0)])
                  (MemStore.simple [] []) (PInt 200) (PList []) eq_refl eq_refl)
           (PInt 0) eq_refl eq_refl).
Defined.

Lemma batch_get_by_key_all_processed_witness :
  let found := PList [PDict [("id", PDict [("S", PStr "m1")])]] in
  let reply := MemStore.response
    [("Responses", PDict [("movies", found)]); ("UnprocessedKeys", PDict [])] in
  let s := MemStore.state_of MemStore.simple_handle
             (MemStore.simple [] [Ok reply]) ∅ in
  batch_get_by_key [PStr "m1"] None (PList []) s
  = (Ok ([("data", PList [PDict [("id", PStr "m1")]])], PInt 200),
     with_store s (MemStore.simple [] [])).
Proof.
  intros found reply s.
  refine (batch_get_by_key_all_processed s [PStr "m1"] None (PList [])
            [("RequestItems", PDict [("movies", PDict [("Keys",
               PList [PDict [("id", PStr "m1")]])])])]
            _ reply (MemStore.simple [] []) (PInt 200) found
            (PList [PDict [("id", PStr "m1")]]) (PDict [])
            eq_refl eq_refl eq_refl eq_refl eq_refl eq_refl _ eq_refl eq_refl).
  discriminate.
Defined.

Lemma add_item_reports_status_witness :
  let d := [("title", PStr "Alien"); ("rating", PFloat (F64.of_decimal false 85 (-1)))] in
  let s := MemStore.state_of MemStore.simple_handle (MemStore.simple [] [])
             {[1%positive := d]} in
  (add_item (PStr "m1") PNone 1%positive s).1 = Ok (true, PInt 200)
  ∧ MemStore.rows (st_store (add_item (PStr "m1") PNone 1%positive s).2)
    = [[("title", PStr "Alien");
        ("rating", PDecimal (Dec.Finite false 85 (-1)));
        ("id", PStr "m1")]].
Proof.
  intros d s.
  destruct (add_item_reports_status s (PStr "m1") PNone 1%positive d
              [("Key", PDict [("id", PStr "m1")])] [("id", PStr "m1")]
              (MemStore.response [])
              (MemStore.simple [[("title", PStr "Alien");
                                 ("rating", PDecimal (Dec.Finite false 85 (-1)));
                                 ("id", PStr "m1")]] [])
              (PInt 200)) as [Hflag Hstore].
  - reflexivity.
  - apply NoDup_cons. split; [|apply NoDup_singleton].
    intros Hin. apply list_elem_of_singleton in Hin. discriminate.
  - reflexivity.
  - reflexivity.
  - reflexivity.
  - vm_compute. reflexivity.
  - reflexivity.
  - split; [exact Hflag | rewrite Hstore; reflexivity].
Defined.

Lemma add_item_updates_item_in_place_witness :
  let d := [("id", PStr "zzz"); ("rating", PFloat (F64.of_decimal false 85 (-1)))] in
  let s := DownStore.state_of {[1%positive := d]} in
  (add_item (PStr "m1") PNone 1%positive s).1
  = Raise (LibraryError "EndpointConnectionError")
  ∧ st_heap (add_item (PStr "m1") PNone 1%positive s).2 !! 1%positive
    = Some [("id", PStr "m1"); ("rating", PDecimal (Dec.Finite false 85 (-1)))].
Proof.
  intros d s. split; [vm_compute; reflexivity|].
  rewrite (add_item_updates_item_in_place s (PStr "m1") PNone 1%positive d
             [("Key", PDict [("id", PStr "m1")])] [("id", PStr "m1")]).
  - vm_compute. reflexivity.
  - reflexivity.
  - apply NoDup_cons. split; [|apply NoDup_singleton].
    intros Hin. apply list_elem_of_singleton in Hin. discriminate.
  - reflexivity.
  - reflexivity.
  - reflexivity.
Defined.

Lemma update_item_answers_witness :
  let s := MemStore.state_of MemStore.simple_handle
             (MemStore.simple [[("id", PStr "m1"); ("title", PStr "Alien")]] []) ∅ in
  (update_item (PStr "m1") PNone (PStr "title") (PStr "Aliens") [] s).1
  = Ok ([("data", PDict [("title", PStr "Alien")]);
         ("message", PStr "Returned only updated old item")], PInt 200).
Proof.
  intros s.
  rewrite (update_item_answers s (PStr "m1") PNone "title" (PStr "Aliens")
             [("Key", PDict [("id", PStr "m1")])]
             [("ResponseMetadata", PDict [("HTTPStatusCode", PInt 200)]);
              ("Attributes", PDict [("title", PStr "Alien")])]
             (MemStore.simple [[("id", PStr "m1"); ("title", PStr "Aliens")]] [])
             (PInt 200)) by reflexivity.
  reflexivity.
Defined.


(** ** The type converter, further *)

(** A loop over the items of a dictionary keeps whatever each step of its
    body keeps. *)
Lemma for_items_invariant (I : dict → Prop) body (entries obj : dict) :
  (∀ k v o o', (k, v) ∈ entries → I o → body k v o = Ok o' → I o') →
  I obj → I (for_items body entries obj).2.
Proof.
  revert obj. induction entries as [|[k v] entries IH]; intros obj Hbody HI;
    simpl; [exact HI|].
  destruct (body k v obj) as [obj'|e] eqn:Hb; simpl; [|exact HI].
  apply IH.
  - intros k0 v0 o o' Hin. apply Hbody. now right.
  - apply (Hbody k v obj obj'); [left | exact HI | exact Hb].
Qed.

Lemma keys_dict_set_present k v (d : dict) :
  k ∈ keys d → keys (dict_set k v d) = keys d.
Proof.
  intros Hin. rewrite keys_dict_set.
  apply dict_mem_keys in Hin. now rewrite Hin.
Qed.

Lemma elem_of_keys k v (d : dict) : (k, v) ∈ d → k ∈ keys d.
Proof. intros Hin. unfold keys. apply list_elem_of_fmap. exists (k, v). auto. Qed.

(** X21.  [convert_dtypes] never adds, removes or reorders attributes: in
    either direction, for any mode string, and whether it returns or
    raises, the dictionary has afterwards the attribute names it had, in
    the order it had them. *)
Theorem convert_dtypes_keeps_keys (item : dict) (type : string) :
  keys (convert_dtypes item type).2 = keys item.
Proof.
  unfold convert_dtypes.
  destruct (negb _); [reflexivity|].
  destruct (String.eqb type "dynamo2native").
  - apply (for_items_invariant (λ o, keys o = keys item)); [|reflexivity].
    intros k v o o' Hin Ho Hb. apply elem_of_keys in Hin. rewrite <- Ho in Hin.
    destruct v; simpl in Hb; injection Hb as <-; try exact Ho;
      now rewrite keys_dict_set_present.
  - destruct (String.eqb type "native2dynamo"); [|reflexivity].
    apply (for_items_invariant (λ o, keys o = keys item)); [|reflexivity].
    intros k v o o' Hin Ho Hb. apply elem_of_keys in Hin. rewrite <- Ho in Hin.
    destruct v; simpl in Hb; try discriminate; injection Hb as <-; try exact Ho;
      now rewrite keys_dict_set_present.
Qed.

Lemma for_items_stops (good : pyval → Prop) e body f (pre done rest : dict) k b :
  (∀ k v pre rest, good v → k ∉ keys pre →
     body k v (pre ++ (k, v) :: rest) = Ok (pre ++ (k, f v) :: rest)) →
  (∀ obj, body k b obj = Raise e) →
  Forall (λ kv, good kv.2) pre →
  NoDup (keys (done ++ pre ++ (k, b) :: rest)) →
  for_items body (pre ++ (k, b) :: rest) (done ++ pre ++ (k, b) :: rest)
  = (Raise e, done ++ map (λ kv, (kv.1, f kv.2)) pre ++ (k, b) :: rest).
Proof.
  intros Hgood Hbad. revert done.
  induction pre as [|[k0 v0] pre IH]; intros done HP Hnd; simpl.
  - now rewrite Hbad.
  - apply Forall_cons in HP as [Hv HP].
    assert (Hk : k0 ∉ keys done).
    { unfold keys in *. rewrite map_app in Hnd. simpl in Hnd.
      apply NoDup_app in Hnd as (_ & Hdis & _).
      intros Hin. apply (Hdis k0 Hin). left. }
    rewrite Hgood by assumption.
    replace (done ++ (k0, f v0) :: pre ++ (k, b) :: rest)
      with ((done ++ [(k0, f v0)]) ++ pre ++ (k, b) :: rest)
      by (rewrite <- app_assoc; reflexivity).
    rewrite IH.
    + rewrite <- app_assoc. reflexivity.
    + exact HP.
    + unfold keys in *. rewrite !map_app in *. simpl in *.
      rewrite <- app_assoc. exact Hnd.
Qed.

(** X22.  A write-direction conversion that fails leaves the dictionary
    half converted: the attributes before the first byte sequence have
    been converted, floats to exact decimals, and the byte sequence and
    everything after it are as they were. *)
Theorem convert_dtypes_stops_at_bytes (pre rest : dict) (k : string) (b : pyval) :
  NoDup (keys (pre ++ (k, b) :: rest)) →
  has_bytes pre = false →
  is_bytes b = true →
  convert_dtypes (pre ++ (k, b) :: rest) "native2dynamo"
  = (Raise Binary_TypeError,
     map (λ kv, (kv.1, write_value kv.2)) pre ++ (k, b) :: rest).
Proof.
  intros Hnd Hpre Hb. unfold convert_dtypes. simpl.
  apply (for_items_stops (λ v, is_bytes v = false) Binary_TypeError _
           write_value pre [] rest k b).
  - intros k0 v pre0 rest0 Hv Hk.
    destruct v; simpl in *; try reflexivity; try discriminate.
    now rewrite dict_set_middle.
  - intros obj. destruct b; simpl in *; try discriminate; reflexivity.
  - apply Forall_forall. intros kv Hin.
    destruct (is_bytes kv.2) eqn:E; [|reflexivity].
    assert (has_bytes pre = true); [|congruence].
    apply existsb_exists. exists kv. split; [now apply list_elem_of_In | exact E].
  - exact Hnd.
Qed.

(** X23.  On an item that holds no byte sequence, box or exact decimal,
    the two directions of [convert_dtypes] are inverse to each other:
    writing and then reading returns the item as it was, every float
    bit for bit. *)
Theorem convert_dtypes_roundtrip (item : dict) :
  NoDup (keys item) →
  Forall (λ kv, plain_value kv.2) item →
  ∃ wire, convert_dtypes item "native2dynamo" = (Ok tt, wire)
          ∧ convert_dtypes wire "dynamo2native" = (Ok tt, item).
Proof. apply convert_roundtrip_plain. Qed.

Lemma map_value_idempotent (f : pyval → pyval) (item : dict) :
  Forall (λ kv, f (f kv.2) = f kv.2) item →
  map (λ kv, (kv.1, f kv.2)) (map (λ kv, (kv.1, f kv.2)) item)
  = map (λ kv : string * pyval, (kv.1, f kv.2)) item.
Proof.
  induction 1 as [|[k v] item Hv _ IH]; simpl in *; [reflexivity|].
  now rewrite Hv, IH.
Qed.

Lemma keys_map_value (f : pyval → pyval) (item : dict) :
  keys (map (λ kv, (kv.1, f kv.2)) item) = keys item.
Proof. unfold keys. rewrite map_map. reflexivity. Qed.

Lemma existsb_map_value (item : dict) :
  existsb (λ kv, is_bytes kv.2) (map (λ kv, (kv.1, write_value kv.2)) item)
  = existsb (λ kv : string * pyval, is_bytes kv.2) item.
Proof.
  induction item as [|[k v] item IH]; simpl; [reflexivity|].
  rewrite IH. destruct v; reflexivity.
Qed.

(** X24.  A conversion applied a second time changes nothing.  Reading an
    item whose boxes hold byte sequences, and reading the result again,
    gives the result of the first reading; likewise for writing an item
    without byte sequences. *)
Theorem convert_dtypes_idempotent (item : dict) :
  NoDup (keys item) →
  (Forall (λ kv, boxes_bytes kv.2) item →
   convert_dtypes (convert_dtypes item "dynamo2native").2 "dynamo2native"
   = (Ok tt, (convert_dtypes item "dynamo2native").2))
  ∧ (has_bytes item = false →
     convert_dtypes (convert_dtypes item "native2dynamo").2 "native2dynamo"
     = (Ok tt, (convert_dtypes item "native2dynamo").2)).
Proof.
  intros Hnd. split.
  - intros Hbox. rewrite (convert_dynamo2native item Hnd). simpl.
    rewrite convert_dynamo2native by (now rewrite keys_map_value).
    f_equal. apply map_value_idempotent.
    eapply Forall_impl; [exact Hbox|]. intros [k v] Hv. simpl in *.
    destruct v; simpl in *; try reflexivity.
    destruct v; simpl in *; try discriminate; reflexivity.
  - intros Hb. rewrite (convert_native2dynamo item Hnd Hb). simpl.
    rewrite convert_native2dynamo.
    + f_equal. apply map_value_idempotent.
      apply Forall_forall. intros [k v] _. destruct v; reflexivity.
    + now rewrite keys_map_value.
    + unfold has_bytes in *. rewrite existsb_map_value. exact Hb.
Qed.

Lemma convert_dtypes_stops_at_bytes_witness :
  convert_dtypes [("rating", PFloat (F64.of_decimal false 85 (-1)));
                  ("poster", PBytes [Byte.x01]);
                  ("score", PFloat (F64.of_decimal false 5 (-1)))] "native2dynamo"
  = (Raise Binary_TypeError,
     [("rating", PDecimal (Dec.Finite false 85 (-1)));
      ("poster", PBytes [Byte.x01]);
      ("score", PFloat (F64.of_decimal false 5 (-1)))]).
Proof.
  refine (eq_trans (convert_dtypes_stops_at_bytes
             [("rating", PFloat (F64.of_decimal false 85 (-1)))]
             [("score", PFloat (F64.of_decimal false 5 (-1)))]
             "poster" (PBytes [Byte.x01]) _ eq_refl eq_refl) _).
  - repeat (apply NoDup_cons; split;
            [intros Hin; repeat (apply elem_of_cons in Hin as [Hin|Hin];
                                 [discriminate|]); inversion Hin|]).
    apply NoDup_nil. exact I.
  - vm_compute. reflexivity.
Defined.

Lemma convert_dtypes_roundtrip_witness :
  let item := [("title", PStr "Alien"); ("rating", PFloat (F64.Fin false (7 * 2 ^ 1073)))] in
  ∃ wire, convert_dtypes item "native2dynamo" = (Ok tt, wire)
          ∧ convert_dtypes wire "dynamo2native" = (Ok tt, item).
Proof.
  intros item. apply (convert_dtypes_roundtrip item).
  - apply NoDup_cons. split; [|apply NoDup_singleton].
    intros Hin. apply list_elem_of_singleton in Hin. discriminate.
  - apply Forall_cons. split; [exact I|].
    apply Forall_cons. split; [|apply Forall_nil; exact I].
    split; [split; [apply Z.leb_le | apply Z.ltb_lt]|]; vm_compute; reflexivity.
Defined.

Lemma convert_dtypes_idempotent_witness :
  let item := [("n", PDecimal (Dec.Finite false 35 (-1)));
               ("b", PBinary (PBytes [Byte.x01]))] in
  convert_dtypes (convert_dtypes item "dynamo2native").2 "dynamo2native"
  = (Ok tt, (convert_dtypes item "dynamo2native").2).
Proof.
  intros item. apply (proj1 (convert_dtypes_idempotent item
    ltac:(apply NoDup_cons; split; [|apply NoDup_singleton];
          intros Hin; apply list_elem_of_singleton in Hin; discriminate))).
  repeat (apply Forall_cons; split; [exact I || reflexivity|]).
  apply Forall_nil. exact I.
Defined.

(** ** Decoding wire maps, further *)

Section InferMore.
Context `{PyRuntime}.

Lemma mapM_Ok {A B : Type} (f : A → result B) (l : list A) (l' : list B) :
  mapM f l = Ok l' → Forall2 (λ a b, f a = Ok b) l l'.
Proof.
  revert l'. induction l as [|a l IH]; intros l'; simpl.
  - intros [= <-]. constructor.
  - destruct (f a) as [b|e] eqn:Hf; simpl; [|discriminate].
    destruct (mapM f l) as [k|e]; simpl; [|discriminate].
    intros [= <-]. constructor; [exact Hf | now apply IH].
Qed.

Lemma completed_Ok {A : Type} (r : result unit * A) a :
  completed r = Ok a → r.2 = a.
Proof. destruct r as [[u|e] a']; simpl; [intros [= <-]; reflexivity | discriminate]. Qed.

Lemma infer_item_keys (item out : pyval) :
  infer_item item = Ok out →
  ∃ d d', item = PDict d ∧ out = PDict d' ∧ keys d' = keys d.
Proof.
  unfold infer_item. destruct item; simpl; try discriminate.
  destruct (completed _) as [d'|e] eqn:Hc; simpl; [|discriminate].
  intros [= <-]. exists d, d'. repeat split.
  apply completed_Ok in Hc. rewrite <- Hc.
  apply (for_items_invariant (λ o, keys o = keys d)); [|reflexivity].
  intros attr val_dict o o' Hin Ho Hb. apply elem_of_keys in Hin.
  rewrite <- Ho in Hin.
  destruct (items val_dict) as [vd|e]; simpl in Hb; [|discriminate].
  apply completed_Ok in Hb. rewrite <- Hb.
  apply (for_items_invariant (λ x, keys x = keys d)); [|exact Ho].
  intros dtype value x x' _ Hx Hstep.
  destruct (conversions_getitem dtype) as [f|e]; simpl in Hstep; [|discriminate].
  destruct (f value) as [v|e]; simpl in Hstep; [|discriminate].
  injection Hstep as <-. rewrite keys_dict_set_present; [exact Hx|].
  now rewrite Hx, <- Ho.
Qed.

(** X25.  When [infer_types] returns, it returns a list with one
    dictionary per item it was given, in the same order, each with the
    attribute names of its item; a single item that is not in a list is
    treated as a list of one. *)
Theorem infer_types_shape (items out : pyval) :
  infer_types items = Ok out →
  let given := match items with PList l => l | _ => [items] end in
  ∃ l', out = PList l'
        ∧ length l' = length given
        ∧ ∀ (i : nat) v v', given !! i = Some v → l' !! i = Some v' →
            ∃ d d', v = PDict d ∧ v' = PDict d' ∧ keys d' = keys d.
Proof.
  unfold infer_types.
  set (given := match items with PList l => l | _ => [items] end).
  destruct (mapM infer_item given) as [l'|e] eqn:Hm; simpl; [|discriminate].
  intros [= <-]. exists l'. apply mapM_Ok in Hm.
  split; [reflexivity|]. split; [symmetry; eapply Forall2_length; exact Hm|].
  intros i v v' Hv Hv'.
  apply (infer_item_keys v v').
  exact (Forall2_lookup_lr _ _ _ i v v' Hm Hv Hv').
Qed.

Lemma small_integer_representable z :
  0 <= z <= 2 ^ 53 → F64.representable (z * F64.one_units).
Proof.
  intros Hz. pose proof F64Facts.one_units_pos as Hu.
  assert (Htop : z * F64.one_units < F64.top).
  { unfold F64.top, F64.one_units.
    replace 2098 with (1024 + 1074) by reflexivity.
    rewrite Z.pow_add_r by lia.
    assert (2 ^ 53 < 2 ^ 1024) by (apply Z.pow_lt_mono_r; lia).
    pose proof (F64Facts.pow2_pos 1074 ltac:(lia)). nia. }
  split; [split; [nia | exact Htop]|].
  destruct (Z.eq_dec z 0) as [->|Hne].
  { rewrite Z.mul_0_l. apply Z.mod_0_l.
    pose proof (F64Facts.pow2_shift_pos 0). lia. }
  assert (Hlog : Z.log2 (z * F64.one_units) = 1074 + Z.log2 z)
    by (unfold F64.one_units; apply Z.log2_mul_pow2; lia).
  pose proof (Z.log2_nonneg z) as Hl0.
  pose proof (F64Facts.log2_le_53 z ltac:(lia)) as H53.
  unfold F64.shift_of at 1. rewrite Hlog.
  destruct (Z_le_gt_dec (Z.log2 z) 52) as [Hle|Hgt].
  - set (sh := Z.max 0 (1074 + Z.log2 z - 52)).
    assert (Hsh : 0 <= sh <= 1074) by (unfold sh; lia).
    unfold F64.one_units.
    replace (2 ^ 1074) with (2 ^ (1074 - sh) * 2 ^ sh)
      by (rewrite <- Z.pow_add_r by lia; f_equal; lia).
    rewrite Z.mul_assoc. apply Z.mod_mul.
    pose proof (F64Facts.pow2_pos sh ltac:(lia)). lia.
  - assert (Hz53 : z = 2 ^ 53).
    { destruct (Z.log2_spec z ltac:(lia)) as [Hlb _].
      assert (2 ^ 53 <= 2 ^ Z.log2 z) by (apply Z.pow_le_mono_r; lia). lia. }
    rewrite Hz53, Z.log2_pow2 by lia.
    replace (Z.max 0 (1074 + 53 - 52)) with 1075 by lia.
    unfold F64.one_units. rewrite <- Z.pow_add_r by lia.
    replace (53 + 1074) with (52 + 1075) by lia.
    rewrite Z.pow_add_r by lia. apply Z.mod_mul.
    pose proof (F64Facts.pow2_pos 1075 ltac:(lia)). lia.
Qed.

(** X26.  Integers up to 2^53 in magnitude are decoded exactly.  For
    every payload of the tag [N] that is a decimal numeral denoting an
    integer [z] with [|z| <= 2^53], however the numeral is written (with a
    fraction of zeros, with an exponent), [infer_types] yields the
    integer [z]. *)
Theorem infer_types_N_integer attr (s : string) (neg : bool) (c e z : Z) :
  FloatLiteral.read s = Some (FloatLiteral.LDec neg c e) →
  denotes c e z →
  0 <= z <= 2 ^ 53 →
  infer_types (wire_item attr "N" (PStr s)) = decoded attr (PInt (F64.signed neg z)).
Proof.
  intros Hread Hden Hz. pose proof F64Facts.one_units_pos as Hu.
  pose proof (small_integer_representable z Hz) as Hrep.
  assert (Hf : float_of_str s = Ok (F64.Fin neg (z * F64.one_units))).
  { apply (float_of_str_exact s neg c e); [exact Hread | exact Hrep |].
    unfold denotes in Hden. destruct (0 <=? e); [now rewrite Hden | rewrite Hden; ring]. }
  rewrite infer_types_wire_item.
  pose proof (N_decoder (PStr s) neg _ Hf Hrep) as Hdec.
  destruct (conversions_getitem "N") as [f|err]; simpl in *; [|discriminate].
  rewrite Hdec. rewrite Z.mod_mul by lia. simpl.
  unfold decoded, F64.trunc, F64.signed. rewrite Z.div_mul by lia. reflexivity.
Qed.

(** X27.  A payload of the tag [N] that [float] does not read as a finite
    number is not decoded: when it reads as an infinity, as ["Infinity"]
    and every numeral beyond the range of a double do, [infer_types]
    raises [OverflowError]; when it reads as a NaN, [ValueError]; and when
    [float] itself fails, that failure. *)
Theorem infer_types_N_not_finite attr (s : string) :
  (∀ neg, float_of_str s = Ok (F64.Inf neg) →
     infer_types (wire_item attr "N" (PStr s))
     = Raise (BuiltinError OverflowError "cannot convert float infinity to integer"))
  ∧ (float_of_str s = Ok F64.NaN →
     infer_types (wire_item attr "N" (PStr s))
     = Raise (BuiltinError ValueError "cannot convert float NaN to integer"))
  ∧ (∀ e, float_of_str s = Raise e →
     infer_types (wire_item attr "N" (PStr s)) = Raise e).
Proof.
  repeat split; intros; rewrite infer_types_wire_item;
    unfold conversions_getitem, conversions;
    change (String.eqb "N" "N") with true; cbv iota;
    cbn [mbind result_bind py_float];
    match goal with Hs : float_of_str s = _ |- _ => rewrite Hs end; reflexivity.
Qed.

(** X28.  The decoder of the tag [B] returns a byte payload as it is, and
    fails on every string payload: [bytes] of a string without an
    encoding is a [TypeError]. *)
Theorem infer_types_B attr :
  (∀ b, infer_types (wire_item attr "B" (PBytes b)) = decoded attr (PBytes b))
  ∧ (∀ s, infer_types (wire_item attr "B" (PStr s))
          = Raise (BuiltinError TypeError "string argument without an encoding")).
Proof.
  split; intros; rewrite infer_types_wire_item; reflexivity.
Qed.

End InferMore.

Lemma infer_types_shape_witness :
  ∃ l', infer_types (PDict [("id", PDict [("S", PStr "m1")]);
                             ("year", PDict [("N", PStr "1979")])])
        = Ok (PList l')
        ∧ length l' = 1%nat.
Proof.
  destruct (infer_types_shape
              (PDict [("id", PDict [("S", PStr "m1")]);
                      ("year", PDict [("N", PStr "1979")])])
              (PList [PDict [("id", PStr "m1"); ("year", PInt 1979)]]))
    as (l' & Hout & Hlen & _).
  - vm_compute. reflexivity.
  - exists l'. split; [|exact Hlen]. rewrite <- Hout. vm_compute. reflexivity.
Defined.

Lemma infer_types_N_integer_witness :
  infer_types (wire_item "seats" "N" (PStr "-12.00e1")) = decoded "seats" (PInt (-120)).
Proof.
  refine (infer_types_N_integer "seats" "-12.00e1" true 1200 (-1) 120 _ _ _).
  - vm_compute. reflexivity.
  - reflexivity.
  - split; [apply Z.leb_le | apply Z.leb_le]; vm_compute; reflexivity.
Defined.

Lemma infer_types_N_not_finite_witness :
  infer_types (wire_item "n" "N" (PStr "1e400"))
  = Raise (BuiltinError OverflowError "cannot convert float infinity to integer").
Proof.
  apply (proj1 (infer_types_N_not_finite "n" "1e400") false).
  vm_compute. reflexivity.
Defined.

(** ** The exceptions of the operations *)

Section Taxonomy.
Context `{PyRuntime}.
Context {W Client : Type} `{Backend W Client}.

#[local] Abbreviation state := (@state W Client).
#[local] Abbreviation M := (@M W Client).
#[local] Abbreviation only l m :=
  (raises_only (W := W) (Client := Client) (api_among l) m).

Lemma foreign_among l e : foreign e → api_among l e.
Proof. destruct e; simpl; tauto. Qed.

(** *** The builtins raise builtin exceptions *)

Lemma foreign_bind {A B : Type} (m : result A) (k : A → result B) e :
  (∀ e, m = Raise e → foreign e) →
  (∀ a e, m = Ok a → k a = Raise e → foreign e) →
  m ≫= k = Raise e → foreign e.
Proof.
  unfold mbind, result_bind. destruct m as [a|e']; intros Hm Hk Hr.
  - exact (Hk a e eq_refl Hr).
  - injection Hr as <-. now apply Hm.
Qed.

Ltac builtin :=
  intros; repeat (case_match; simplify_eq/=); simplify_eq/=; exact I.

(** [m ≫= k] where [m] raises by the lemma [lem]; goes on with [k]. *)
Ltac after lem :=
  apply foreign_bind; [first [apply lem | intros ?; apply lem] | intros ? ? ?].

Lemma foreign_getitem v k e : getitem v k = Raise e → foreign e.
Proof. unfold getitem. builtin. Qed.

Lemma foreign_items v e : items v = Raise e → foreign e.
Proof. unfold items. builtin. Qed.

Lemma foreign_getitem2 v k1 k2 e :
  (x ← getitem v k1; getitem x k2) = Raise e → foreign e.
Proof. after foreign_getitem. apply foreign_getitem. Qed.

Lemma foreign_HTTPStatusCode v e : HTTPStatusCode v = Raise e → foreign e.
Proof. apply foreign_getitem2. Qed.

Lemma foreign_setitem3 d k1 k2 k3 v e :
  setitem3 d k1 k2 k3 v = Raise e → foreign e.
Proof.
  unfold setitem3. after foreign_getitem. after foreign_getitem. builtin.
Qed.

Lemma foreign_lookup_getitem lookup key e :
  lookup_getitem lookup key = Raise e → foreign e.
Proof.
  unfold lookup_getitem. destruct key; try (intros [= <-]; exact I).
  apply foreign_getitem.
Qed.

Lemma foreign_float_of_str s e : float_of_str s = Raise e → foreign e.
Proof. unfold float_of_str. builtin. Qed.

Lemma foreign_py_float x e : py_float x = Raise e → foreign e.
Proof.
  unfold py_float. destruct x; try (intros [= <-]; exact I);
    try apply foreign_float_of_str; try discriminate.
  builtin.
Qed.

Lemma foreign_int_of_float f e : int_of_float f = Raise e → foreign e.
Proof. unfold int_of_float. builtin. Qed.

Lemma foreign_float_sub_int f z e : float_sub_int f z = Raise e → foreign e.
Proof. unfold float_sub_int. after foreign_py_float. discriminate. Qed.

Lemma foreign_mapM {A B : Type} (f : A → result B) (l : list A) e :
  (∀ a e, f a = Raise e → foreign e) → mapM f l = Raise e → foreign e.
Proof.
  intros Hf. induction l as [|a l IH]; simpl; [discriminate|].
  destruct (f a) as [b|e'] eqn:Ha; simpl; [|intros [= <-]; eauto].
  destruct (mapM f l) as [k|e']; simpl; [discriminate|].
  intros [= <-]. now apply IH.
Qed.

Lemma foreign_bytes_elem v e : bytes_elem v = Raise e → foreign e.
Proof. unfold bytes_elem. builtin. Qed.

Lemma foreign_py_bytes x e : py_bytes x = Raise e → foreign e.
Proof.
  unfold py_bytes. destruct x; try (intros [= <-]; exact I); try discriminate;
    try solve [builtin].
  apply foreign_mapM. intros a e'. apply foreign_bytes_elem.
Qed.

Lemma foreign_for_items body entries obj e :
  (∀ k v o e, body k v o = Raise e → foreign e) →
  (for_items body entries obj).1 = Raise e → foreign e.
Proof.
  intros Hb. revert obj. induction entries as [|[k v] rest IH]; intros obj; simpl.
  - discriminate.
  - destruct (body k v obj) as [o|e'] eqn:Hk; [apply IH|].
    simpl. intros [= <-]. eauto.
Qed.

Lemma foreign_completed {A : Type} (r : result unit * A) e :
  (∀ e, r.1 = Raise e → foreign e) → completed r = Raise e → foreign e.
Proof. destruct r as [[u|e'] a]; simpl; [discriminate|]. intros Hr [= <-]. eauto. Qed.

Lemma foreign_convert_dtypes item type e :
  (convert_dtypes item type).1 = Raise e → foreign e.
Proof.
  unfold convert_dtypes. repeat case_match; simpl;
    try (intros [= <-]; exact I); try discriminate.
  - apply foreign_for_items. intros k v o e'.
    destruct v; discriminate.
  - apply foreign_for_items. intros k v o e'.
    destruct v; try discriminate; unfold Binary, Binary_TypeError; simpl;
      intros [= <-]; exact I.
Qed.

(** *** The decoders raise builtin exceptions and what the JSON parser raises *)

Lemma foreign_conversions dtype f v e :
  (∀ v e, json_loads v = Raise e → foreign e) →
  conversions dtype = Some f → f v = Raise e → foreign e.
Proof.
  intros json_foreign. unfold conversions.
  repeat case_match; intros [= <-]; try apply json_foreign;
    try discriminate.
  - after foreign_py_float. after foreign_int_of_float.
    after foreign_float_sub_int. case_match.
    + after foreign_py_float. after foreign_int_of_float. discriminate.
    + after foreign_py_float. discriminate.
  - after foreign_py_bytes. discriminate.
Qed.

Lemma foreign_infer_item item e :
  (∀ v e, json_loads v = Raise e → foreign e) →
  infer_item item = Raise e → foreign e.
Proof.
  intros json_foreign. unfold infer_item. after foreign_items.
  apply foreign_bind; [|discriminate].
  intros e'. apply foreign_completed. intros e''. apply foreign_for_items.
  intros attr val_dict o e3. after foreign_items.
  apply foreign_completed. intros e5. apply foreign_for_items.
  intros dtype value o' e6.
  apply foreign_bind; [unfold conversions_getitem; builtin|].
  intros f e7 Hf. apply foreign_bind; [|discriminate].
  intros e8. unfold conversions_getitem in Hf.
  destruct (conversions dtype) as [g|] eqn:Hg; [|discriminate].
  injection Hf as ->. now apply (foreign_conversions dtype).
Qed.

Lemma foreign_infer_types v e :
  (∀ v e, json_loads v = Raise e → foreign e) →
  infer_types v = Raise e → foreign e.
Proof.
  intros json_foreign. unfold infer_types.
  apply foreign_bind; [|discriminate].
  intros e'. apply foreign_mapM. intros a e''. now apply foreign_infer_item.
Qed.

(** *** What a computation on the state raises *)

Lemma only_ret {A : Type} l (a : A) : only l (mret a).
Proof. intros s e s'. discriminate. Qed.

Lemma only_raise {A : Type} l e : api_among l e → only l (raise (A := A) e).
Proof. intros He s e' s' [= <- _]. exact He. Qed.

Lemma only_lift {A : Type} l (r : result A) :
  (∀ e, r = Raise e → foreign e) → only l (lift r).
Proof. intros Hr s e s' [= -> _]. apply foreign_among. now apply Hr. Qed.

Lemma only_self l : only l self.
Proof. intros s e s'. discriminate. Qed.

Lemma only_set_self l h : only l (set_self h).
Proof. intros s e s'. discriminate. Qed.

Lemma only_on_object {A : Type} l o (f : dict → result A * dict) :
  (∀ d e, (f d).1 = Raise e → foreign e) → only l (on_object o f).
Proof.
  intros Hf s e s'. unfold on_object.
  destruct (st_heap s !! o) as [d|]; [|intros [= <- _]; exact I].
  specialize (Hf d). destruct (f d) as [r d']. intros [= -> _].
  apply foreign_among. now apply Hf.
Qed.

Lemma only_call {A : Type} l (f : W → result A * W) :
  (∀ w e w', f w = (Raise e, w') → foreign e) → only l (call f).
Proof.
  intros Hf s e s'. unfold call. specialize (Hf (st_store s)).
  destruct (f (st_store s)) as [r w]. intros [= -> _].
  apply foreign_among. now apply (Hf e w).
Qed.

Lemma only_bind {A B : Type} l (m : M A) (k : A → M B) :
  only l m → (∀ a, only l (k a)) → only l (m ≫= k).
Proof.
  intros Hm Hk s e s'. unfold mbind, M_bind. specialize (Hm s).
  destruct (m s) as [[a|e'] s1].
  - apply Hk.
  - intros [= <- _]. now apply (Hm e' s1).
Qed.

Lemma only_except_KeyError {A : Type} l (m handler : M A) :
  only l m → only l handler → only l (except_KeyError m handler).
Proof.
  intros Hm Hh s e s'. unfold except_KeyError. specialize (Hm s).
  destruct (m s) as [[a|e'] s1]; [discriminate|].
  destruct e' as [| cls msg | |]; try (intros [= <- _]; now eapply Hm).
  destruct cls; try (intros [= <- _]; now eapply Hm). apply Hh.
Qed.

Lemma only_except_ClientError {A : Type} l (m : M A) handler :
  only l m → (∀ d, only l (handler d)) → only l (except_ClientError m handler).
Proof.
  intros Hm Hh s e s'. unfold except_ClientError. specialize (Hm s).
  destruct (m s) as [[a|e'] s1]; [discriminate|].
  destruct e'; try (intros [= <- _]; now eapply Hm). apply Hh.
Qed.

Lemma only_merge_keys l item entries : only l (merge_keys item entries).
Proof.
  induction entries as [|[k v] entries IH]; simpl; [apply only_ret|].
  apply only_bind; [|intros _; exact IH].
  apply only_on_object. discriminate.
Qed.

Lemma api_among_init l cls text :
  In cls l → api_among l (api_init cls text (default_code cls)).
Proof. intros Hin. unfold api_init. simpl. eauto. Qed.

Lemma only_define_key_args l pk sk :
  In cMissingParameter l → only l (define_key_args pk sk).
Proof.
  intros Hin. unfold define_key_args.
  apply only_bind; [apply only_self|]. intros h.
  repeat case_match; try apply only_ret.
  - apply only_raise. now apply (api_among_init l cMissingParameter).
  - apply only_bind; [|intros; apply only_ret].
    apply only_lift. unfold getattr_sort_key. builtin.
Qed.

Lemma only_define_list_key_args l pks sks : only l (define_list_key_args pks sks).
Proof.
  unfold define_list_key_args.
  apply only_bind; [apply only_self|]. intros h.
  repeat case_match; try apply only_ret; try (apply only_raise; exact I).
  apply only_bind; [|intros; apply only_ret].
  apply only_lift. unfold getattr_sort_key. builtin.
Qed.

Ltac pure_part :=
  first
    [ apply foreign_HTTPStatusCode | apply foreign_getitem | apply foreign_items
    | apply foreign_getitem2 | apply foreign_setitem3 | apply foreign_lookup_getitem
    | solve [builtin] ].

Ltac taxonomy :=
  repeat first
    [ apply only_ret | apply only_self | apply only_set_self
    | apply only_merge_keys | apply only_define_list_key_args
    | apply only_define_key_args; simpl; tauto
    | apply only_raise; solve [exact I | apply api_among_init; simpl; tauto]
    | apply only_lift; solve [pure_part | intros ?; pure_part]
    | apply only_call; intros ? ? ? ?;
      match goal with Hs : _ |- _ => eapply Hs; eassumption end
    | apply only_bind; [|intros]
    | apply only_except_ClientError; [|intros]
    | case_match ].

(** X29.  Which exceptions of [Exceptions.py] an operation can raise.
    Against a store and a JSON parser that raise only exceptions of their
    own, an exception raised by an operation that is of a class of
    [Exceptions.py] is: [MissingParameter] or [NotFoundError] for
    [get_by_keys]; [NotFoundError] for [batch_get_by_key] and
    [query_table]; [MissingParameter] for [add_item] and [dump_item];
    [MissingParameter] or [InvalidParameter] for [update_item]; and
    [scan_table] raises none.  Each carries the default code of its class
    (404, 400, 400) before its message.  [NotImplementedError],
    [InvalidMethodError] and [ServerError] are never raised. *)
Theorem operations_error_taxonomy :
  foreign_store →
  (∀ v e, json_loads v = Raise e → foreign e) →
  (∀ pk sk a, only [cMissingParameter; cNotFoundError] (get_by_keys pk sk a))
  ∧ (∀ pks sks a, only [cNotFoundError] (batch_get_by_key pks sks a))
  ∧ (∀ type kwargs, only [cNotFoundError] (query_table type kwargs))
  ∧ (∀ kwargs, only [] (scan_table kwargs))
  ∧ (∀ pk sk item, only [cMissingParameter] (add_item pk sk item))
  ∧ (∀ pk sk n v kwargs,
       only [cMissingParameter; cInvalidParameter] (update_item pk sk n v kwargs))
  ∧ (∀ pk sk kwargs, only [cMissingParameter] (dump_item pk sk kwargs)).
Proof.
  intros (Hget & Hquery & Hscan & Hput & Hupdate & Hdelete & Hbatch & Hexec) Hjson.
  repeat split; intros.
  - unfold get_by_keys. taxonomy.
    apply only_except_KeyError; [|taxonomy].
    taxonomy.
    apply only_lift.
    match goal with
    | Hc : convert_dtypes ?d ?t = _ |- _ =>
        pose proof (foreign_convert_dtypes d t) as Hconv; rewrite Hc in Hconv
    end.
    exact Hconv.
  - unfold batch_get_by_key. taxonomy.
    all: try (apply only_lift; intros ?; now apply foreign_infer_types).
  - unfold query_table. taxonomy.
  - unfold scan_table. taxonomy.
  - unfold add_item. taxonomy.
    + apply only_lift. intros e. after foreign_getitem. apply foreign_items.
    + apply only_on_object. intros d e. apply foreign_convert_dtypes.
    + apply only_on_object. discriminate.
  - unfold update_item. taxonomy.
  - unfold dump_item. taxonomy.
Qed.

End Taxonomy.

Lemma operations_error_taxonomy_witness :
  let s := {| st_self := MemStore.composite_handle; st_heap := ∅; st_store := tt |} in
  (dump_item (PStr "m1") PNone [] s).1 = Raise sort_key_missing
  ∧ api_among [cMissingParameter] sort_key_missing.
Proof.
  intros s.
  assert (Hstore : foreign_store (W := unit) (Client := unit)).
  { unfold foreign_store. repeat split; intros ? ? ? e ? Hr; cbv in Hr;
      injection Hr as <- _; exact I. }
  assert (Hjson : ∀ v e, json_loads v = Raise e → foreign e).
  { intros v e Hr. cbv in Hr. injection Hr as <-. exact I. }
  destruct (operations_error_taxonomy Hstore Hjson) as (_ & _ & _ & _ & _ & _ & Hdump).
  split; [reflexivity|].
  exact (Hdump (PStr "m1") PNone [] s sort_key_missing s eq_refl).
Defined.
